(** * Recipe search proxy: cache keys, read-through cache, enhanced search

  A shallow embedding of [fastapi-proxy/main.py].  The handlers of the
  proxy are written in a small state-and-exception monad over an explicit
  world (HTTP client, Redis client, clock, I/O trace); the pure parts
  (cache-key derivation, deduplication, ranking) are plain functions.

  Conventions.
  - A Python [str] is a [string] whose characters are the code points
    U+0000..U+00FF; [len] is [String.length], [<] is [String.ltb].
  - A Python [int] is a [Z]; a [float] is the rational it denotes, an
    infinity or NaN.
  - A [dict] is an association list in insertion order with distinct keys.
  - What the upstream API sends is any JSON value: the handlers do not
    check it, and neither does the model.
  - [logger.*] calls change nothing that the handlers return or store and
    are left out. *)

From Stdlib Require Import ZArith List String Ascii QArith Lia Bool.
From Stdlib Require Import Sorting.Permutation Sorting.Sorted DecimalString.
From Stdlib Require DecimalPos DecimalZ.
From stdpp Require Import base gmap strings.
Import ListNotations.

Set Warnings "-register-all".

Local Open Scope string_scope.

(** ** Python strings *)

Module PyStr.

Definition ord (c : ascii) : Z := Z.of_N (N_of_ascii c).

Definition chr (n : Z) : ascii := ascii_of_N (Z.to_N n).

Definition hex_digit (n : Z) : ascii :=
  if (n <? 10)%Z then chr (48 + n) else chr (87 + n).

(** Two lowercase hexadecimal digits of a byte: [format(b, '02x')]. *)
Definition hex2 (b : Z) : string :=
  String (hex_digit (Z.shiftr b 4)) (String (hex_digit (Z.land b 15)) "").

(** [str.encode()]: UTF-8.  Code points below U+0080 are one byte, the
    others (up to U+00FF here) two. *)
Definition utf8_char (c : ascii) : list Z :=
  let n := ord c in
  if (n <? 128)%Z then [n]
  else [Z.lor 192 (Z.shiftr n 6); Z.lor 128 (Z.land n 63)].

Definition encode (s : string) : list Z :=
  flat_map utf8_char (list_ascii_of_string s).

(** [", ".join(parts)] and friends. *)
Fixpoint join (sep : string) (parts : list string) : string :=
  match parts with
  | [] => ""
  | [p] => p
  | p :: rest => p +:+ sep +:+ join sep rest
  end.

(** The double quote character, as a one-character string. *)
Definition dq : string := String (chr 34) "".

(** [str(n)] for an [int]. *)
Definition of_int (n : Z) : string := NilZero.string_of_int (Z.to_int n).

End PyStr.

(** ** MD5 (RFC 1321), as computed by [hashlib.md5] *)

Module MD5.
Local Open Scope Z_scope.

Definition mask32 : Z := 0xffffffff.
Definition add32 (x y : Z) : Z := Z.land (x + y) mask32.
Definition not32 (x : Z) : Z := Z.lxor x mask32.
Definition rotl32 (x s : Z) : Z :=
  Z.land (Z.lor (Z.shiftl x s) (Z.shiftr x (32 - s))) mask32.

Definition K : list Z :=
  [ 0xd76aa478; 0xe8c7b756; 0x242070db; 0xc1bdceee;
    0xf57c0faf; 0x4787c62a; 0xa8304613; 0xfd469501;
    0x698098d8; 0x8b44f7af; 0xffff5bb1; 0x895cd7be;
    0x6b901122; 0xfd987193; 0xa679438e; 0x49b40821;
    0xf61e2562; 0xc040b340; 0x265e5a51; 0xe9b6c7aa;
    0xd62f105d; 0x02441453; 0xd8a1e681; 0xe7d3fbc8;
    0x21e1cde6; 0xc33707d6; 0xf4d50d87; 0x455a14ed;
    0xa9e3e905; 0xfcefa3f8; 0x676f02d9; 0x8d2a4c8a;
    0xfffa3942; 0x8771f681; 0x6d9d6122; 0xfde5380c;
    0xa4beea44; 0x4bdecfa9; 0xf6bb4b60; 0xbebfbc70;
    0x289b7ec6; 0xeaa127fa; 0xd4ef3085; 0x04881d05;
    0xd9d4d039; 0xe6db99e5; 0x1fa27cf8; 0xc4ac5665;
    0xf4292244; 0x432aff97; 0xab9423a7; 0xfc93a039;
    0x655b59c3; 0x8f0ccc92; 0xffeff47d; 0x85845dd1;
    0x6fa87e4f; 0xfe2ce6e0; 0xa3014314; 0x4e0811a1;
    0xf7537e82; 0xbd3af235; 0x2ad7d2bb; 0xeb86d391 ].

Definition S : list Z :=
  [ 7; 12; 17; 22; 7; 12; 17; 22; 7; 12; 17; 22; 7; 12; 17; 22;
    5;  9; 14; 20; 5;  9; 14; 20; 5;  9; 14; 20; 5;  9; 14; 20;
    4; 11; 16; 23; 4; 11; 16; 23; 4; 11; 16; 23; 4; 11; 16; 23;
    6; 10; 15; 21; 6; 10; 15; 21; 6; 10; 15; 21; 6; 10; 15; 21 ].

Record state := St { sa : Z; sb : Z; sc : Z; sd : Z }.

Definition init : state :=
  St 0x67452301 0xefcdab89 0x98badcfe 0x10325476.

(** The message is padded with 0x80, zeros up to 56 modulo 64, and the bit
    length as a 64-bit little-endian integer. *)
Definition le_bytes (n : nat) (x : Z) : list Z :=
  List.map (fun i => Z.land (Z.shiftr x (8 * Z.of_nat i)) 255) (seq 0 n).

Definition pad (msg : list Z) : list Z :=
  let len := Z.of_nat (List.length msg) in
  let zeros := Z.to_nat ((55 - len) mod 64) in
  msg ++ [128] ++ repeat 0 zeros ++ le_bytes 8 (Z.land (8 * len) (2 ^ 64 - 1)).

Fixpoint word_le (bs : list Z) : Z :=
  match bs with
  | [] => 0
  | b :: rest => Z.lor b (Z.shiftl (word_le rest) 8)
  end.

Fixpoint words (n : nat) (bs : list Z) : list Z :=
  match n with
  | O => []
  | Datatypes.S n' => word_le (firstn 4 bs) :: words n' (skipn 4 bs)
  end.

Fixpoint blocks (fuel : nat) (bs : list Z) : list (list Z) :=
  match fuel, bs with
  | O, _ | _, [] => []
  | Datatypes.S f, _ => words 16 (firstn 64 bs) :: blocks f (skipn 64 bs)
  end.

Definition step (m : list Z) (st : state) (i : nat) : state :=
  let '(St a b c d) := st in
  let iz := Z.of_nat i in
  let '(f, g) :=
    if iz <? 16 then (Z.lor (Z.land b c) (Z.land (not32 b) d), iz)
    else if iz <? 32 then
      (Z.lor (Z.land d b) (Z.land (not32 d) c), (5 * iz + 1) mod 16)
    else if iz <? 48 then (Z.lxor b (Z.lxor c d), (3 * iz + 5) mod 16)
    else (Z.lxor c (Z.lor b (not32 d)), (7 * iz) mod 16) in
  let f' := add32 (add32 (add32 f a) (nth i K 0)) (nth (Z.to_nat g) m 0) in
  St d (add32 b (rotl32 f' (nth i S 0))) b c.

Definition compress (st : state) (m : list Z) : state :=
  let '(St a b c d) := fold_left (step m) (seq 0 64) st in
  St (add32 (sa st) a) (add32 (sb st) b) (add32 (sc st) c) (add32 (sd st) d).

Definition digest (msg : list Z) : list Z :=
  let p := pad msg in
  let '(St a b c d) := fold_left compress (blocks (List.length p) p) init in
  le_bytes 4 a ++ le_bytes 4 b ++ le_bytes 4 c ++ le_bytes 4 d.

Definition hexdigest (msg : list Z) : string :=
  fold_right (fun b acc => PyStr.hex2 b +:+ acc) "" (digest msg).

End MD5.

(** ** JSON values and [json.dumps] *)

(** A [float]: [json.loads] reads [NaN], [Infinity] and [-Infinity], and
    a literal too large for a double as an infinity. *)
Inductive pyfloat :=
| Finite (x : Q)
| PosInf
| NegInf
| NaN.

(** The values a handler passes to [generate_cache_key] and receives from
    the upstream API. *)
Inductive json : Type :=
| JNull
| JBool (b : bool)
| JInt (n : Z)
| JFloat (x : pyfloat)
| JStr (s : string)
| JList (items : list json)
| JDict (items : list (string * json)).

Module Json.

(** [py_encode_basestring_ascii]: backslash, the double quote and the
    characters outside [' '..'~'] are escaped. *)
Definition escape_char (c : ascii) : string :=
  let n := PyStr.ord c in
  if (n =? 34)%Z then "\" +:+ PyStr.dq
  else if (n =? 92)%Z then "\\"
  else if (n =? 10)%Z then "\n"
  else if (n =? 13)%Z then "\r"
  else if (n =? 9)%Z then "\t"
  else if (n =? 8)%Z then "\b"
  else if (n =? 12)%Z then "\f"
  else if ((32 <=? n) && (n <=? 126))%Z then String c ""
  else "\u00" +:+ PyStr.hex2 n.

Fixpoint escape (s : string) : string :=
  match s with
  | EmptyString => ""
  | String c rest => escape_char c +:+ escape rest
  end.

Definition quote (s : string) : string :=
  PyStr.dq +:+ escape s +:+ PyStr.dq.

(** [sorted(dct.items())]: the keys of a dict are distinct, so the pairs
    are ordered by their keys alone. *)
Section Sort.
Context {V : Type}.

Fixpoint insert_item (kv : string * V) (l : list (string * V))
  : list (string * V) :=
  match l with
  | [] => [kv]
  | kv' :: rest =>
      if String.ltb (fst kv') (fst kv) then kv' :: insert_item kv rest
      else kv :: l
  end.

Fixpoint sort_items (l : list (string * V)) : list (string * V) :=
  match l with
  | [] => []
  | kv :: rest => insert_item kv (sort_items rest)
  end.

(** Members in strictly increasing key order. *)
Definition key_lt (kv1 kv2 : string * V) : Prop :=
  String.ltb (fst kv1) (fst kv2) = true.
End Sort.

Section Dumps.
(** [float.__repr__] (and the ['NaN'], ['Infinity'] spellings) is
    floating-point formatting of the standard library: a parameter. *)
Variable float_repr : pyfloat -> string.

Definition render_item (kv : string * string) : string :=
  quote (fst kv) +:+ ": " +:+ snd kv.

(** [json.dumps(v, sort_keys=sort_keys)] with the default separators.
    Every member of a dict is rendered on its own, so ordering the
    rendered members by key gives the text of the ordered dict. *)
Fixpoint dumps (sort_keys : bool) (v : json) : string :=
  match v with
  | JNull => "null"
  | JBool true => "true"
  | JBool false => "false"
  | JInt n => PyStr.of_int n
  | JFloat x => float_repr x
  | JStr s => quote s
  | JList items =>
      "[" +:+ PyStr.join ", " (List.map (dumps sort_keys) items) +:+ "]"
  | JDict items =>
      let rendered :=
        List.map (fun kv : string * json =>
                    let (k, v') := kv in (k, dumps sort_keys v')) items in
      "{" +:+ PyStr.join ", "
               (List.map render_item
                  (if sort_keys then sort_items rendered else rendered))
          +:+ "}"
  end.
End Dumps.

End Json.

(** Two JSON values with the same content, whatever the insertion order of
    the dicts inside them. *)
Inductive same_mapping : json -> json -> Prop :=
| same_value (v : json) : same_mapping v v
| same_list (l1 l2 : list json) :
    Forall2 same_mapping l1 l2 -> same_mapping (JList l1) (JList l2)
| same_dict (d1 d d2 : list (string * json)) :
    List.NoDup (List.map fst d1) ->
    Permutation d1 d ->
    Forall2 (fun kv1 kv2 => fst kv1 = fst kv2
                            /\ same_mapping (snd kv1) (snd kv2)) d d2 ->
    same_mapping (JDict d1) (JDict d2).

(** ** Data model *)

(** [class RecipeResult(BaseModel)]: the entry of a result list as the
    upstream API documents it. *)
Record RecipeResult := mkRecipe {
  recipe_id : Z;
  name : string;
  category : string;
  area : string;
  thumbnail_url : option string;
  youtube_url : option string;
  similarity_score : pyfloat;
  matched_content : string;
  matched_type : string
}.

(** The JSON object of such an entry. *)
Definition recipe_dict (r : RecipeResult) : json :=
  let optional (s : option string) :=
    match s with
    | Some text => JStr text
    | None => JNull
    end in
  JDict [("recipe_id", JInt (recipe_id r));
         ("name", JStr (name r));
         ("category", JStr (category r));
         ("area", JStr (area r));
         ("thumbnail_url", optional (thumbnail_url r));
         ("youtube_url", optional (youtube_url r));
         ("similarity_score", JFloat (similarity_score r));
         ("matched_content", JStr (matched_content r));
         ("matched_type", JStr (matched_type r))].

(** A JSON object exchanged with the upstream API or with the cache: its
    ["results"] member, whatever value it holds and absent when the object
    has no such key, and its other members in insertion order. *)
Record payload := mkPayload {
  results : option json;
  fields : list (string * json)
}.

(** What [response.json()] or [json.loads] returns: a [dict], or another
    JSON value ([Other], never holding a [JDict]).  Python's [None] is
    [Other JNull]. *)
Inductive body :=
| Object (p : payload)
| Other (v : json).

Definition None_ : body := Other JNull.

(** Truth value of a Python object in [if x:]. *)
Definition json_truthy (v : json) : bool :=
  match v with
  | JNull => false
  | JBool b => b
  | JInt n => negb (n =? 0)%Z
  | JFloat (Finite x) => negb (Qeq_bool x 0)
  | JFloat _ => true
  | JStr s => negb (s =? "")%string
  | JList items => negb (Nat.eqb (List.length items) 0)
  | JDict items => negb (Nat.eqb (List.length items) 0)
  end.

Definition truthy (b : body) : bool :=
  match b with
  | Object p =>
      match results p, fields p with
      | None, [] => false
      | _, _ => true
      end
  | Other v => json_truthy v
  end.

(** [d[key] = value] on the members of a dict: an existing key keeps its
    place, a new one goes last. *)
Fixpoint dict_set (key : string) (value : json) (d : list (string * json))
  : list (string * json) :=
  match d with
  | [] => [(key, value)]
  | (k, v) :: rest =>
      if (k =? key)%string then (k, value) :: rest
      else (k, v) :: dict_set key value rest
  end.

Fixpoint dict_get (key : string) (d : list (string * json)) : option json :=
  match d with
  | [] => None
  | (k, v) :: rest => if (k =? key)%string then Some v else dict_get key rest
  end.

(** ** Library functions taken as parameters

    Floating-point formatting and arithmetic, the text of a serialized
    handler result and its parser belong to the Python standard library;
    the string form of an exception belongs to the raising library. *)

(** The exceptions the handlers meet.  The last five are what Python
    raises on a value of a result list: [KeyError] for a missing key, and
    four [TypeError]s that [str] tells apart, for a value that cannot be
    iterated, subscripted with a key, hashed, or ordered with [<]. *)
Inductive exn :=
| HTTPException (status_code : Z) (detail : string)
| HTTPStatusError (status_code : Z) (message : string)
| RequestError (message : string)
| JSONDecodeError
| TypeError
| AttributeError
| ConnectionError
| RequestValidationError
| KeyError (key : string)
| NotIterable (v : json)
| NotSubscriptable (v : json)
| Unhashable (v : json)
| NotOrdered (x y : json).

Class PyLib := {
  (** [repr] of a float, as [json.dumps] writes it *)
  float_repr : pyfloat -> string;
  (** [int((now - start).total_seconds() * 1000)] *)
  elapsed_ms : Z -> Z -> Z;
  (** [json.dumps(data)] of a handler result *)
  json_dumps : body -> string;
  (** [json.loads(text)]; [None] when it raises *)
  json_loads : string -> option body;
  (** [str(e)] *)
  exn_str : exn -> string
}.

(** ** [generate_cache_key] *)

Definition generate_cache_key `{PyLib} (endpoint : string) (data : json)
  : string :=
  let cache_string := endpoint +:+ ":" +:+ Json.dumps float_repr true data in
  MD5.hexdigest (PyStr.encode cache_string).

(** ** The world of a handler *)

(** What [http_client.post(endpoint, json=data)] leads to: a response whose
    body parses as JSON, one whose body does not, one that
    [raise_for_status] rejects, or no response at all. *)
Inductive post_outcome :=
| PostJson (b : body)
| PostBadJson
| PostStatusError (status_code : Z) (message : string)
| PostRequestError (message : string).

(** The upstream API as seen through [httpx.AsyncClient]. *)
Definition AsyncClient := string -> json -> post_outcome.

(** The Redis server behind [redis_client]: whether it answers, and its
    entries, each with the time-to-live it was written with.  Expiry is a
    transition of the server between requests. *)
Record Redis := mkRedis {
  reachable : bool;
  db : gmap string (Z * string)
}.

Inductive event :=
| HttpPost (endpoint : string) (data : json)
| RedisGet (key : string)
| RedisSetex (key : string) (ttl : Z) (value : string).

Record World := mkWorld {
  http_client : option AsyncClient;
  redis_client : option Redis;
  clock : nat -> Z;
  ticks : nat;
  trace : list event
}.

Definition LARAVEL_BASE_URL : string := "http://localhost:8080/api".
Definition CACHE_TTL : Z := 3600.

(** ** State and exceptions *)

Inductive outcome (A : Type) :=
| Ok (a : A)
| Raise (e : exn).
Arguments Ok {A} a.
Arguments Raise {A} e.

Definition M (A : Type) : Type := World -> outcome A * World.

Definition ret {A} (a : A) : M A := fun w => (Ok a, w).

Definition raise {A} (e : exn) : M A := fun w => (Raise e, w).

Definition bind {A B} (m : M A) (k : A -> M B) : M B :=
  fun w =>
    match m w with
    | (Ok a, w') => k a w'
    | (Raise e, w') => (Raise e, w')
    end.

Declare Scope py_scope.
Delimit Scope py_scope with py.
Notation "x <- m ;; k" := (bind m (fun x => k))
  (at level 100, m at next level, k at level 200, right associativity,
   format "'[v' x  <-  m  ;; '/' k ']'") : py_scope.
Notation "m ;; k" := (bind m (fun _ => k))
  (at level 100, k at level 200, right associativity) : py_scope.
Local Open Scope py_scope.

(** [try: ... except ...]: [handler e] is [None] when no [except] clause
    matches [e], which then propagates. *)
Definition try_except {A} (m : M A) (handler : exn -> option (M A)) : M A :=
  fun w =>
    match m w with
    | (Ok a, w') => (Ok a, w')
    | (Raise e, w') =>
        match handler e with
        | Some h => h w'
        | None => (Raise e, w')
        end
    end.

(** [asyncio.gather] with [return_exceptions=True]: every task runs to
    its end, in task order here; an exception becomes the task's result. *)
Fixpoint gather {A} (tasks : list (M A)) : M (list (outcome A)) :=
  match tasks with
  | [] => ret []
  | task :: rest =>
      fun w =>
        let (r, w1) := task w in
        match gather rest w1 with
        | (Ok rs, w2) => (Ok (r :: rs), w2)
        | (Raise e, w2) => (Raise e, w2)
        end
  end.

Definition log (ev : event) (w : World) : World :=
  mkWorld (http_client w) (redis_client w) (clock w) (ticks w)
          (trace w ++ [ev]).

Definition tick (w : World) : World :=
  mkWorld (http_client w) (redis_client w) (clock w) (Datatypes.S (ticks w))
          (trace w).

Definition with_redis (r : Redis) (w : World) : World :=
  mkWorld (http_client w) (Some r) (clock w) (ticks w) (trace w).

Definition emit (ev : event) : M unit := fun w => (Ok tt, log ev w).

(** [datetime.utcnow()], in microseconds. *)
Definition utcnow : M Z := fun w => (Ok (clock w (ticks w)), tick w).

Definition get_redis_client : M (option Redis) :=
  fun w => (Ok (redis_client w), w).

Definition get_http_client : M (option AsyncClient) :=
  fun w => (Ok (http_client w), w).

(** [redis_client.get(key)] *)
Definition redis_get (key : string) : M (option string) :=
  r <- get_redis_client ;;
  match r with
  | None => raise AttributeError
  | Some r =>
      emit (RedisGet key) ;;
      if reachable r then ret (snd <$> db r !! key)
      else raise ConnectionError
  end.

(** [redis_client.setex(key, ttl, value)] *)
Definition redis_setex (key : string) (ttl : Z) (value : string) : M unit :=
  r <- get_redis_client ;;
  match r with
  | None => raise AttributeError
  | Some r =>
      emit (RedisSetex key ttl value) ;;
      if reachable r then
        fun w =>
          (Ok tt, with_redis (mkRedis true (<[key := (ttl, value)]> (db r))) w)
      else raise ConnectionError
  end.

(** [await http_client.post(endpoint, json=data)] *)
Definition http_post (endpoint : string) (data : json) : M post_outcome :=
  c <- get_http_client ;;
  match c with
  | None => raise AttributeError
  | Some client =>
      emit (HttpPost endpoint data) ;;
      match client endpoint data with
      | PostRequestError message => raise (RequestError message)
      | response => ret response
      end
  end.

(** [response.raise_for_status()] *)
Definition raise_for_status (response : post_outcome) : M unit :=
  match response with
  | PostStatusError status_code message =>
      raise (HTTPStatusError status_code message)
  | _ => ret tt
  end.

(** [response.json()] *)
Definition response_json (response : post_outcome) : M body :=
  match response with
  | PostJson b => ret b
  | _ => raise JSONDecodeError
  end.

(** [obj[key] = value]: item assignment works on a [dict] only. *)
Definition setitem (obj : body) (key : string) (value : json) : M body :=
  match obj with
  | Object p => ret (Object (mkPayload (results p) (dict_set key value (fields p))))
  | Other _ => raise TypeError
  end.

(** ** Cache and upstream access *)

Section Handlers.
Context `{PyLib}.

Definition get_cached_result (cache_key : string) : M body :=
  client <- get_redis_client ;;
  if negb (bool_decide (is_Some client)) then ret None_
  else
    returned <- try_except
      (cached_data <- redis_get cache_key ;;
       match cached_data with
       | Some text =>
           if negb (text =? "")%string then
             match json_loads text with
             | Some value => ret (Some value)
             | None => raise JSONDecodeError
             end
           else ret None
       | None => ret None
       end)
      (fun e => Some (ret None)) ;;
    match returned with
    | Some value => ret value
    | None => ret None_
    end.

Definition set_cached_result (cache_key : string) (data : body) : M unit :=
  client <- get_redis_client ;;
  if negb (bool_decide (is_Some client)) then ret tt
  else
    try_except
      (redis_setex cache_key CACHE_TTL (json_dumps data))
      (fun e => Some (ret tt)).

Definition proxy_laravel_request (endpoint : string) (data : json) : M body :=
  client <- get_http_client ;;
  if negb (bool_decide (is_Some client)) then
    raise (HTTPException 500 "HTTP client not initialized")
  else
    try_except
      (response <- http_post endpoint data ;;
       raise_for_status response ;;
       response_json response)
      (fun e =>
         match e with
         | HTTPStatusError status_code message =>
             Some (raise (HTTPException status_code
                            ("Laravel API error: " +:+ message)))
         | RequestError message =>
             Some (raise (HTTPException 500 ("Request failed: " +:+ message)))
         | _ => None
         end).

End Handlers.

(** ** Request models *)

Definition in_bounds (lo hi n : Z) : bool := ((lo <=? n) && (n <=? hi))%Z.

Definition len (s : string) : Z := Z.of_nat (String.length s).

Module SearchRequest.
Record t := mk { query : string; limit : Z }.
Definition dict (r : t) : json :=
  JDict [("query", JStr (query r)); ("limit", JInt (limit r))].
(** [Field(..., min_length=1, max_length=500)], [Field(10, ge=1, le=50)] *)
Definition parse (query : string) (limit : option Z) : option t :=
  let limit := default 10%Z limit in
  if in_bounds 1 500 (len query) && in_bounds 1 50 limit
  then Some (mk query limit) else None.
End SearchRequest.

Module IngredientSearchRequest.
Record t := mk { ingredients : string; limit : Z }.
Definition dict (r : t) : json :=
  JDict [("ingredients", JStr (ingredients r)); ("limit", JInt (limit r))].
Definition parse (ingredients : string) (limit : option Z) : option t :=
  let limit := default 10%Z limit in
  if in_bounds 1 500 (len ingredients) && in_bounds 1 50 limit
  then Some (mk ingredients limit) else None.
End IngredientSearchRequest.

Module CuisineSearchRequest.
Record t := mk { cuisine : string; limit : Z }.
Definition dict (r : t) : json :=
  JDict [("cuisine", JStr (cuisine r)); ("limit", JInt (limit r))].
Definition parse (cuisine : string) (limit : option Z) : option t :=
  let limit := default 10%Z limit in
  if in_bounds 1 200 (len cuisine) && in_bounds 1 50 limit
  then Some (mk cuisine limit) else None.
End CuisineSearchRequest.

Module DishSearchRequest.
Record t := mk { dish : string; limit : Z }.
Definition dict (r : t) : json :=
  JDict [("dish", JStr (dish r)); ("limit", JInt (limit r))].
Definition parse (dish : string) (limit : option Z) : option t :=
  let limit := default 10%Z limit in
  if in_bounds 1 200 (len dish) && in_bounds 1 50 limit
  then Some (mk dish limit) else None.
End DishSearchRequest.

(** The dict returned by [enhanced_search]. *)
Module EnhancedResponse.
Record t := mk {
  query : string;
  search_type : string;
  results : list json;
  count : Z;
  successful_searches : Z;
  total_searches : Z;
  cached : bool;
  response_time_ms : Z
}.
End EnhancedResponse.

(** ** Cached search handlers *)

Section Endpoints.
Context `{PyLib}.

Definition search_by_ingredients (request : IngredientSearchRequest.t)
  : M body :=
  start_time <- utcnow ;;
  let cache_key :=
    generate_cache_key "ingredients" (IngredientSearchRequest.dict request) in
  cached_result <- get_cached_result cache_key ;;
  if truthy cached_result then
    cached_result <- setitem cached_result "cached" (JBool true) ;;
    now <- utcnow ;;
    cached_result <- setitem cached_result "response_time_ms"
                       (JInt (elapsed_ms start_time now)) ;;
    ret cached_result
  else
    let laravel_data :=
      JDict [("ingredients", JStr (IngredientSearchRequest.ingredients request));
             ("limit", JInt (IngredientSearchRequest.limit request))] in
    result <- proxy_laravel_request "/search/ingredients" laravel_data ;;
    result <- setitem result "cached" (JBool false) ;;
    now <- utcnow ;;
    result <- setitem result "response_time_ms"
                (JInt (elapsed_ms start_time now)) ;;
    set_cached_result cache_key result ;;
    ret result.

Definition search_by_cuisine (request : CuisineSearchRequest.t) : M body :=
  start_time <- utcnow ;;
  let cache_key :=
    generate_cache_key "cuisine" (CuisineSearchRequest.dict request) in
  cached_result <- get_cached_result cache_key ;;
  if truthy cached_result then
    cached_result <- setitem cached_result "cached" (JBool true) ;;
    now <- utcnow ;;
    cached_result <- setitem cached_result "response_time_ms"
                       (JInt (elapsed_ms start_time now)) ;;
    ret cached_result
  else
    let laravel_data :=
      JDict [("cuisine", JStr (CuisineSearchRequest.cuisine request));
             ("limit", JInt (CuisineSearchRequest.limit request))] in
    result <- proxy_laravel_request "/search/cuisine" laravel_data ;;
    result <- setitem result "cached" (JBool false) ;;
    now <- utcnow ;;
    result <- setitem result "response_time_ms"
                (JInt (elapsed_ms start_time now)) ;;
    set_cached_result cache_key result ;;
    ret result.

Definition search_by_dish (request : DishSearchRequest.t) : M body :=
  start_time <- utcnow ;;
  let cache_key :=
    generate_cache_key "dish" (DishSearchRequest.dict request) in
  cached_result <- get_cached_result cache_key ;;
  if truthy cached_result then
    cached_result <- setitem cached_result "cached" (JBool true) ;;
    now <- utcnow ;;
    cached_result <- setitem cached_result "response_time_ms"
                       (JInt (elapsed_ms start_time now)) ;;
    ret cached_result
  else
    let laravel_data :=
      JDict [("dish", JStr (DishSearchRequest.dish request));
             ("limit", JInt (DishSearchRequest.limit request))] in
    result <- proxy_laravel_request "/search/dish" laravel_data ;;
    result <- setitem result "cached" (JBool false) ;;
    now <- utcnow ;;
    result <- setitem result "response_time_ms"
                (JInt (elapsed_ms start_time now)) ;;
    set_cached_result cache_key result ;;
    ret result.

Definition general_search (request : SearchRequest.t) : M body :=
  start_time <- utcnow ;;
  let cache_key :=
    generate_cache_key "general" (SearchRequest.dict request) in
  cached_result <- get_cached_result cache_key ;;
  if truthy cached_result then
    cached_result <- setitem cached_result "cached" (JBool true) ;;
    now <- utcnow ;;
    cached_result <- setitem cached_result "response_time_ms"
                       (JInt (elapsed_ms start_time now)) ;;
    ret cached_result
  else
    let laravel_data :=
      JDict [("q", JStr (SearchRequest.query request));
             ("limit", JInt (SearchRequest.limit request))] in
    result <- proxy_laravel_request "/search/general" laravel_data ;;
    result <- setitem result "cached" (JBool false) ;;
    now <- utcnow ;;
    result <- setitem result "response_time_ms"
                (JInt (elapsed_ms start_time now)) ;;
    set_cached_result cache_key result ;;
    ret result.

Definition hybrid_search (request : SearchRequest.t) : M body :=
  start_time <- utcnow ;;
  let cache_key :=
    generate_cache_key "hybrid" (SearchRequest.dict request) in
  cached_result <- get_cached_result cache_key ;;
  if truthy cached_result then
    cached_result <- setitem cached_result "cached" (JBool true) ;;
    now <- utcnow ;;
    cached_result <- setitem cached_result "response_time_ms"
                       (JInt (elapsed_ms start_time now)) ;;
    ret cached_result
  else
    let laravel_data :=
      JDict [("q", JStr (SearchRequest.query request));
             ("limit", JInt (SearchRequest.limit request))] in
    result <- proxy_laravel_request "/search/hybrid" laravel_data ;;
    result <- setitem result "cached" (JBool false) ;;
    now <- utcnow ;;
    result <- setitem result "response_time_ms"
                (JInt (elapsed_ms start_time now)) ;;
    set_cached_result cache_key result ;;
    ret result.

Definition find_similar_recipes (recipe_id : Z) (limit : Z) : M body :=
  start_time <- utcnow ;;
  let cache_key :=
    generate_cache_key "similar"
      (JDict [("recipe_id", JInt recipe_id); ("limit", JInt limit)]) in
  cached_result <- get_cached_result cache_key ;;
  if truthy cached_result then
    cached_result <- setitem cached_result "cached" (JBool true) ;;
    now <- utcnow ;;
    cached_result <- setitem cached_result "response_time_ms"
                       (JInt (elapsed_ms start_time now)) ;;
    ret cached_result
  else
    let laravel_data := JDict [("limit", JInt limit)] in
    result <- proxy_laravel_request
                ("/search/similar/" +:+ PyStr.of_int recipe_id) laravel_data ;;
    result <- setitem result "cached" (JBool false) ;;
    now <- utcnow ;;
    result <- setitem result "response_time_ms"
                (JInt (elapsed_ms start_time now)) ;;
    set_cached_result cache_key result ;;
    ret result.

End Endpoints.

(** ** Python's operations on the values of a result list

    [enhanced_search] iterates over, subscripts, hashes and orders what the
    upstream API sent, unchecked.  Each operation gives a value or
    raises. *)

Definition and_then {A B} (o : outcome A) (k : A -> outcome B) : outcome B :=
  match o with
  | Ok a => k a
  | Raise e => Raise e
  end.

Notation "x <~ o ;; k" := (and_then o (fun x => k))
  (at level 100, o at next level, k at level 200, right associativity)
  : py_scope.

(** A value computed without the world, inside a handler. *)
Definition lift {A} (o : outcome A) : M A := fun w => (o, w).

Fixpoint fold_outcome {A B} (f : A -> B -> outcome A) (l : list B) (acc : A)
  : outcome A :=
  match l with
  | [] => Ok acc
  | x :: rest => acc' <~ f acc x ;; fold_outcome f rest acc'
  end.

Fixpoint map_outcome {A B} (f : A -> outcome B) (l : list A)
  : outcome (list B) :=
  match l with
  | [] => Ok []
  | x :: rest => y <~ f x ;; ys <~ map_outcome f rest ;; Ok (y :: ys)
  end.

(** What a [for] loop or [list.extend] walks through: the items of a list,
    the characters of a string, the keys of a dict. *)
Definition iterate (v : json) : outcome (list json) :=
  match v with
  | JList items => Ok items
  | JStr s => Ok (List.map (fun c => JStr (String c "")) (list_ascii_of_string s))
  | JDict items => Ok (List.map (fun kv => JStr (fst kv)) items)
  | _ => Raise (NotIterable v)
  end.

(** [v[key]] for a string [key]. *)
Definition getitem (v : json) (key : string) : outcome json :=
  match v with
  | JDict items =>
      match dict_get key items with
      | Some x => Ok x
      | None => Raise (KeyError key)
      end
  | _ => Raise (NotSubscriptable v)
  end.

(** Lists and dicts cannot be members of a set. *)
Definition hashable (v : json) : bool :=
  match v with
  | JList _ | JDict _ => false
  | _ => true
  end.

(** The number a value is, if it is one: [bool] is a subtype of [int]. *)
Definition number (v : json) : option pyfloat :=
  match v with
  | JBool b => Some (Finite (if b then 1 else 0))
  | JInt n => Some (Finite (inject_Z n))
  | JFloat x => Some x
  | _ => None
  end.

Definition Qltb (x y : Q) : bool :=
  match (x ?= y)%Q with
  | Lt => true
  | _ => false
  end.

(** [x < y] on numbers, by value: false as soon as one of them is NaN. *)
Definition float_lt (x y : pyfloat) : bool :=
  match x, y with
  | NaN, _ | _, NaN => false
  | _, NegInf => false
  | NegInf, _ => true
  | PosInf, _ => false
  | Finite _, PosInf => true
  | Finite a, Finite b => Qltb a b
  end.

(** [x is y or x == y] on numbers.  [json.loads] gives one and the same
    object for every NaN it reads, so that two NaN are the same here
    although [==] tells them apart. *)
Definition float_same (x y : pyfloat) : bool :=
  match x, y with
  | NaN, NaN | PosInf, PosInf | NegInf, NegInf => true
  | Finite a, Finite b => Qeq_bool a b
  | _, _ => false
  end.

(** [x is y or x == y], the test a set makes on its members and a list
    comparison on its items: numbers by value whatever their type, strings
    by content, lists item by item, dicts key by key. *)
Fixpoint py_eq (x y : json) {struct x} : bool :=
  match x, y with
  | JNull, JNull => true
  | JStr s, JStr t => (s =? t)%string
  | JList xs, JList ys =>
      (fix items (xs ys : list json) {struct xs} : bool :=
         match xs, ys with
         | [], [] => true
         | a :: xs', b :: ys' => py_eq a b && items xs' ys'
         | _, _ => false
         end) xs ys
  | JDict d, JDict d' =>
      Nat.eqb (List.length d) (List.length d')
      && (fix members (d : list (string * json)) {struct d} : bool :=
            match d with
            | [] => true
            | (k, a) :: rest =>
                match dict_get k d' with
                | Some b => py_eq a b && members rest
                | None => false
                end
            end) d
  | _, _ =>
      match number x, number y with
      | Some a, Some b => float_same a b
      | _, _ => false
      end
  end.

(** [x < y]: numbers by value, strings by code points, lists by their
    first differing item; every other pair of types has no order. *)
Fixpoint py_lt (x y : json) {struct x} : outcome bool :=
  match x, y with
  | JStr s, JStr t => Ok (String.ltb s t)
  | JList xs, JList ys =>
      (fix items (xs ys : list json) {struct xs} : outcome bool :=
         match xs, ys with
         | [], [] => Ok false
         | [], _ :: _ => Ok true
         | _ :: _, [] => Ok false
         | a :: xs', b :: ys' => if py_eq a b then items xs' ys' else py_lt a b
         end) xs ys
  | _, _ =>
      match number x, number y with
      | Some a, Some b => Ok (float_lt a b)
      | _, _ => Raise (NotOrdered x y)
      end
  end.

(** ** [list.sort]

    CPython (3.11) sorts a list of fewer than 64 items in two steps: it
    finds the run the list starts with (ascending, or strictly descending
    and then reversed), and inserts every further item into it by binary
    search.
    Only [<] is used, on the keys, and the first comparison that raises
    ends the sort.  A longer list is cut into such runs, which are then
    merged; where [<] orders the keys totally, the result is the same
    list, the one a stable sort gives. *)

Section ListSort.
Context {A : Type} (lt : A -> A -> outcome bool).

(** The rest of an ascending run after [prev], and what follows it. *)
Fixpoint run_ascending (prev : A) (l : list A) : outcome (list A * list A) :=
  match l with
  | [] => Ok ([], [])
  | x :: rest =>
      smaller <~ lt x prev ;;
      if smaller : bool then Ok ([], l)
      else
        found <~ run_ascending x rest ;;
        Ok (x :: fst found, snd found)
  end.

(** The same for a strictly descending run. *)
Fixpoint run_descending (prev : A) (l : list A) : outcome (list A * list A) :=
  match l with
  | [] => Ok ([], [])
  | x :: rest =>
      smaller <~ lt x prev ;;
      if smaller : bool then
        found <~ run_descending x rest ;;
        Ok (x :: fst found, snd found)
      else Ok ([], l)
  end.

(** [count_run]: the first run, in ascending order, and the other items. *)
Definition count_run (l : list A) : outcome (list A * list A) :=
  match l with
  | [] => Ok ([], [])
  | [x] => Ok ([x], [])
  | x :: y :: rest =>
      smaller <~ lt y x ;;
      if smaller : bool then
        found <~ run_descending y rest ;;
        Ok (rev (x :: y :: fst found), snd found)
      else
        found <~ run_ascending y rest ;;
        Ok (x :: y :: fst found, snd found)
  end.

(** The loop of [binarysort] that looks for the place of [pivot] between
    [l] and [r]. *)
Fixpoint bisect (steps : nat) (sorted : list A) (pivot : A) (l r : nat)
  : outcome nat :=
  match steps with
  | O => Ok l
  | S steps' =>
      let p := (l + (r - l) / 2)%nat in
      match nth_error sorted p with
      | None => Ok l
      | Some x =>
          smaller <~ lt pivot x ;;
          let l' := if smaller : bool then l else Datatypes.S p in
          let r' := if smaller : bool then p else r in
          if (l' <? r')%nat then bisect steps' sorted pivot l' r'
          else Ok l'
      end
  end.

Definition binary_insert (sorted : list A) (pivot : A) : outcome (list A) :=
  place <~ bisect (List.length sorted) sorted pivot 0 (List.length sorted) ;;
  Ok (firstn place sorted ++ pivot :: skipn place sorted)%list.

Definition list_sort (l : list A) : outcome (list A) :=
  if (List.length l <? 2)%nat then Ok l
  else
    found <~ count_run l ;;
    fold_outcome binary_insert (snd found) (fst found).

End ListSort.

(** ** Enhanced search *)

(** The loop over the gathered results: a result counts when it is a dict
    that has a ["results"] key, and what it holds under that key is added
    to the pool item by item. *)
Definition collect_step (acc : list json * Z) (result : outcome body)
  : outcome (list json * Z) :=
  let (combined_results, successful_searches) := acc in
  match result with
  | Ok (Object p) =>
      match results p with
      | Some found =>
          items <~ iterate found ;;
          Ok ((combined_results ++ items)%list, (successful_searches + 1)%Z)
      | None => Ok acc
      end
  | _ => Ok acc
  end.

Definition collect (gathered : list (outcome body)) : outcome (list json * Z) :=
  fold_outcome collect_step gathered ([], 0%Z).

(** The loop that fills [seen_ids] and [unique_results]. *)
Definition dedup_step (acc : list json * list json) (recipe : json)
  : outcome (list json * list json) :=
  let (seen_ids, unique_results) := acc in
  id <~ getitem recipe "recipe_id" ;;
  if hashable id then
    if existsb (py_eq id) seen_ids then Ok acc
    else Ok ((seen_ids ++ [id])%list, (unique_results ++ [recipe])%list)
  else Raise (Unhashable id).

Definition remove_duplicates (combined_results : list json)
  : outcome (list json) :=
  acc <~ fold_outcome dedup_step combined_results ([], []) ;;
  Ok (snd acc).

(** [list.sort(key=lambda x: x["similarity_score"], reverse=True)]: the
    keys are computed first, the list is reversed, sorted in ascending
    order of the keys, and reversed again. *)
Definition sort_desc (unique_results : list json) : outcome (list json) :=
  keyed <~ map_outcome
             (fun x => key <~ getitem x "similarity_score" ;; Ok (key, x))
             unique_results ;;
  sorted <~ list_sort (fun a b => py_lt (fst a) (fst b)) (rev keyed) ;;
  Ok (List.map snd (rev sorted)).

(** [l[:n]] *)
Definition slice_to {A} (n : Z) (l : list A) : list A :=
  if (0 <=? n)%Z then firstn (Z.to_nat n) l
  else firstn (List.length l - Z.to_nat (- n)) l.

Section Enhanced.
Context `{PyLib}.

Definition enhanced_tasks (request : SearchRequest.t) : list (M body) :=
  [ proxy_laravel_request "/search/general"
      (JDict [("q", JStr (SearchRequest.query request));
              ("limit", JInt (SearchRequest.limit request / 2))]);
    proxy_laravel_request "/search/ingredients"
      (JDict [("ingredients", JStr (SearchRequest.query request));
              ("limit", JInt (SearchRequest.limit request / 2))]);
    proxy_laravel_request "/search/dish"
      (JDict [("dish", JStr (SearchRequest.query request));
              ("limit", JInt (SearchRequest.limit request / 2))]) ].

Definition enhanced_search (request : SearchRequest.t)
  : M EnhancedResponse.t :=
  start_time <- utcnow ;;
  try_except
    (let tasks := enhanced_tasks request in
     gathered <- gather tasks ;;
     collected <- lift (collect gathered) ;;
     let (combined_results, successful_searches) :=
       collected : list json * Z in
     unique_results <- lift (remove_duplicates combined_results) ;;
     unique_results <- lift (sort_desc unique_results) ;;
     let final_results := slice_to (SearchRequest.limit request) unique_results in
     now <- utcnow ;;
     let response_time := elapsed_ms start_time now in
     ret (EnhancedResponse.mk
            (SearchRequest.query request)
            "enhanced_parallel"
            final_results
            (Z.of_nat (List.length final_results))
            successful_searches
            (Z.of_nat (List.length tasks))
            false
            response_time))
    (fun e =>
       Some (raise (HTTPException 500
                      ("Enhanced search failed: " +:+ exn_str e)))).

End Enhanced.

(** ** The application: request validation in front of the handlers

    What the framework does with the value a handler returns (its
    serialisation, and on the routes that declare one the [response_model])
    comes after the handler and is not part of this. *)

Section Application.
Context `{PyLib}.

(** A request as the framework decodes it: the text field and the optional
    [limit] of a JSON body, or the path and query parameters of
    [/search/similar/{recipe_id}]. *)
Inductive request :=
| PostSearchIngredients (ingredients : string) (limit : option Z)
| PostSearchCuisine (cuisine : string) (limit : option Z)
| PostSearchDish (dish : string) (limit : option Z)
| PostSearchGeneral (query : string) (limit : option Z)
| PostSearchHybrid (query : string) (limit : option Z)
| PostSearchSimilar (recipe_id : Z) (limit : option Z)
| PostSearchEnhanced (query : string) (limit : option Z).

Inductive reply :=
| ReplyBody (b : body)
| ReplyEnhanced (r : EnhancedResponse.t).

(** The handler runs on a request that passes its model's constraints. *)
Definition validated {A B} (parsed : option A) (handler : A -> M B)
  (wrap : B -> reply) : M reply :=
  match parsed with
  | None => raise RequestValidationError
  | Some request => r <- handler request ;; ret (wrap r)
  end.

Definition app (req : request) : M reply :=
  match req with
  | PostSearchIngredients ingredients limit =>
      validated (IngredientSearchRequest.parse ingredients limit)
        search_by_ingredients ReplyBody
  | PostSearchCuisine cuisine limit =>
      validated (CuisineSearchRequest.parse cuisine limit)
        search_by_cuisine ReplyBody
  | PostSearchDish dish limit =>
      validated (DishSearchRequest.parse dish limit) search_by_dish ReplyBody
  | PostSearchGeneral query limit =>
      validated (SearchRequest.parse query limit) general_search ReplyBody
  | PostSearchHybrid query limit =>
      validated (SearchRequest.parse query limit) hybrid_search ReplyBody
  | PostSearchSimilar recipe_id limit =>
      r <- find_similar_recipes recipe_id (default 5%Z limit) ;;
      ret (ReplyBody r)
  | PostSearchEnhanced query limit =>
      validated (SearchRequest.parse query limit) enhanced_search ReplyEnhanced
  end.

(** The [limit] a request carries, when it carries one. *)
Definition request_limit (req : request) : option Z :=
  match req with
  | PostSearchIngredients _ limit | PostSearchCuisine _ limit
  | PostSearchDish _ limit | PostSearchGeneral _ limit
  | PostSearchHybrid _ limit | PostSearchSimilar _ limit
  | PostSearchEnhanced _ limit => limit
  end.

(** ** The six cached handlers, uniformly *)

Inductive cached_call :=
| CallIngredients (request : IngredientSearchRequest.t)
| CallCuisine (request : CuisineSearchRequest.t)
| CallDish (request : DishSearchRequest.t)
| CallGeneral (request : SearchRequest.t)
| CallHybrid (request : SearchRequest.t)
| CallSimilar (recipe_id : Z) (limit : Z).

Definition run (c : cached_call) : M body :=
  match c with
  | CallIngredients request => search_by_ingredients request
  | CallCuisine request => search_by_cuisine request
  | CallDish request => search_by_dish request
  | CallGeneral request => general_search request
  | CallHybrid request => hybrid_search request
  | CallSimilar recipe_id limit => find_similar_recipes recipe_id limit
  end.

Definition cache_key_of (c : cached_call) : string :=
  match c with
  | CallIngredients request =>
      generate_cache_key "ingredients" (IngredientSearchRequest.dict request)
  | CallCuisine request =>
      generate_cache_key "cuisine" (CuisineSearchRequest.dict request)
  | CallDish request =>
      generate_cache_key "dish" (DishSearchRequest.dict request)
  | CallGeneral request =>
      generate_cache_key "general" (SearchRequest.dict request)
  | CallHybrid request =>
      generate_cache_key "hybrid" (SearchRequest.dict request)
  | CallSimilar recipe_id limit =>
      generate_cache_key "similar"
        (JDict [("recipe_id", JInt recipe_id); ("limit", JInt limit)])
  end.

Definition upstream_endpoint (c : cached_call) : string :=
  match c with
  | CallIngredients _ => "/search/ingredients"
  | CallCuisine _ => "/search/cuisine"
  | CallDish _ => "/search/dish"
  | CallGeneral _ => "/search/general"
  | CallHybrid _ => "/search/hybrid"
  | CallSimilar recipe_id _ => "/search/similar/" +:+ PyStr.of_int recipe_id
  end.

Definition laravel_data_of (c : cached_call) : json :=
  match c with
  | CallIngredients request =>
      JDict [("ingredients", JStr (IngredientSearchRequest.ingredients request));
             ("limit", JInt (IngredientSearchRequest.limit request))]
  | CallCuisine request =>
      JDict [("cuisine", JStr (CuisineSearchRequest.cuisine request));
             ("limit", JInt (CuisineSearchRequest.limit request))]
  | CallDish request =>
      JDict [("dish", JStr (DishSearchRequest.dish request));
             ("limit", JInt (DishSearchRequest.limit request))]
  | CallGeneral request | CallHybrid request =>
      JDict [("q", JStr (SearchRequest.query request));
             ("limit", JInt (SearchRequest.limit request))]
  | CallSimilar _ limit => JDict [("limit", JInt limit)]
  end.

(** The body the six handlers share, with the three things they differ in
    as arguments. *)
Definition cached_search (cache_key endpoint : string) (laravel_data : json)
  : M body :=
  start_time <- utcnow ;;
  cached_result <- get_cached_result cache_key ;;
  if truthy cached_result then
    cached_result <- setitem cached_result "cached" (JBool true) ;;
    now <- utcnow ;;
    cached_result <- setitem cached_result "response_time_ms"
                       (JInt (elapsed_ms start_time now)) ;;
    ret cached_result
  else
    result <- proxy_laravel_request endpoint laravel_data ;;
    result <- setitem result "cached" (JBool false) ;;
    now <- utcnow ;;
    result <- setitem result "response_time_ms"
                (JInt (elapsed_ms start_time now)) ;;
    set_cached_result cache_key result ;;
    ret result.

End Application.

(** ** What the handlers observe of the world

    Closed forms of the three accessors, used to state and prove the
    properties below. *)

Section Observations.
Context `{PyLib}.

(** The value [get_cached_result] returns for a key. *)
Definition cache_lookup (client : option Redis) (key : string) : body :=
  match client with
  | Some r =>
      if reachable r then
        match db r !! key with
        | Some (_, text) =>
            if negb (text =? "")%string then default None_ (json_loads text)
            else None_
        | None => None_
        end
      else None_
  | None => None_
  end.

(** The outcome of [proxy_laravel_request] for an endpoint and a payload. *)
Definition upstream_result (client : option AsyncClient)
  (endpoint : string) (data : json) : outcome body :=
  match client with
  | None => Raise (HTTPException 500 "HTTP client not initialized")
  | Some c =>
      match c endpoint data with
      | PostJson b => Ok b
      | PostBadJson => Raise JSONDecodeError
      | PostStatusError status_code message =>
          Raise (HTTPException status_code ("Laravel API error: " +:+ message))
      | PostRequestError message =>
          Raise (HTTPException 500 ("Request failed: " +:+ message))
      end
  end.

(** The world after a call that goes through a client, when there is one. *)
Definition log_if {A} (client : option A) (ev : event) (w : World) : World :=
  match client with
  | Some _ => log ev w
  | None => w
  end.

(** The world after [set_cached_result]. *)
Definition cache_store (key : string) (data : body) (w : World) : World :=
  match redis_client w with
  | Some r =>
      let w' := log (RedisSetex key CACHE_TTL (json_dumps data)) w in
      if reachable r then
        with_redis (mkRedis true (<[key := (CACHE_TTL, json_dumps data)]> (db r))) w'
      else w'
  | None => w
  end.

(** The endpoint and payload of the three sub-searches of
    [enhanced_search], in task order. *)
Definition sub_search_calls (request : SearchRequest.t) : list (string * json) :=
  [ ("/search/general",
     JDict [("q", JStr (SearchRequest.query request));
            ("limit", JInt (SearchRequest.limit request / 2))]);
    ("/search/ingredients",
     JDict [("ingredients", JStr (SearchRequest.query request));
            ("limit", JInt (SearchRequest.limit request / 2))]);
    ("/search/dish",
     JDict [("dish", JStr (SearchRequest.query request));
            ("limit", JInt (SearchRequest.limit request / 2))]) ].

(** Their outcomes. *)
Definition sub_searches (request : SearchRequest.t) (w : World)
  : list (outcome body) :=
  List.map (fun call => upstream_result (http_client w) (fst call) (snd call))
    (sub_search_calls request).

(** The world after the calls have been made. *)
Definition after_calls (calls : list (string * json)) (w : World) : World :=
  fold_left
    (fun w' call => log_if (http_client w') (HttpPost (fst call) (snd call)) w')
    calls w.

End Observations.

(** A sub-search succeeds, for the loop of [enhanced_search], when it
    yields a dict with a ["results"] key. *)
Definition succeeded (o : outcome body) : bool :=
  match o with
  | Ok (Object p) => bool_decide (is_Some (results p))
  | _ => false
  end.

Definition failed (o : outcome body) : bool := negb (succeeded o).

(** What a sub-search contributes to the combined pool. *)
Definition strategy_results (o : outcome body) : outcome (list json) :=
  match o with
  | Ok (Object p) =>
      match results p with
      | Some found => iterate found
      | None => Ok []
      end
  | _ => Ok []
  end.

Definition combined_pool (gathered : list (outcome body))
  : outcome (list json) :=
  pools <~ map_outcome strategy_results gathered ;;
  Ok (concat pools).

(** Deduplication as a recursion over the pool. *)
Fixpoint dedup_from (seen_ids : list json) (l : list json)
  : outcome (list json) :=
  match l with
  | [] => Ok []
  | recipe :: rest =>
      id <~ getitem recipe "recipe_id" ;;
      if hashable id then
        if existsb (py_eq id) seen_ids then dedup_from seen_ids rest
        else
          kept <~ dedup_from (seen_ids ++ [id])%list rest ;;
          Ok (recipe :: kept)
      else Raise (Unhashable id)
  end.

(** The pool after deduplication, and after the sort. *)
Definition unique_pool (gathered : list (outcome body)) : outcome (list json) :=
  pool <~ combined_pool gathered ;;
  remove_duplicates pool.

Definition ranked_pool (gathered : list (outcome body)) : outcome (list json) :=
  unique <~ unique_pool gathered ;;
  sort_desc unique.

(** The [recipe_id] and the [similarity_score] of an entry that has one. *)
Definition entry_id (recipe : json) : option json :=
  match recipe with
  | JDict members => dict_get "recipe_id" members
  | _ => None
  end.

Definition entry_score (recipe : json) : option json :=
  match recipe with
  | JDict members => dict_get "similarity_score" members
  | _ => None
  end.

(** Two entries carry the same [recipe_id], as a set sees it. *)
Definition same_id (r x : json) : bool :=
  match entry_id x, entry_id r with
  | Some a, Some b => py_eq a b
  | _, _ => false
  end.

(** No two entries of a list carry the same [recipe_id]. *)
Definition distinct_ids (l : list json) : Prop :=
  StronglySorted (fun a b => same_id a b = false) l.

(** An entry with a [recipe_id] that a set accepts. *)
Definition has_id (recipe : json) : bool :=
  match entry_id recipe with
  | Some id => hashable id
  | None => false
  end.

(** The score of an entry, when it is a number; whether it is a number,
    and whether it is a number other than NaN. *)
Definition score_value (recipe : json) : option pyfloat :=
  match entry_score recipe with
  | Some score => number score
  | None => None
  end.


Definition ordered_score (recipe : json) : bool :=
  match score_value recipe with
  | Some NaN | None => false
  | Some _ => true
  end.



(** The score of [a] is below the score of [b]: [a < b] on the scores. *)
Definition score_below (a b : json) : bool :=
  match score_value a, score_value b with
  | Some x, Some y => float_lt x y
  | _, _ => false
  end.

(** The score of [a] is at least the score of [b]: [a >= b] on the
    scores, which no NaN satisfies. *)
Definition score_at_least (a b : json) : bool :=
  ordered_score a && ordered_score b && negb (score_below a b).

Definition same_score (q : pyfloat) (x : json) : bool :=
  match score_value x with
  | Some y => float_same y q
  | None => false
  end.

(** Scores do not increase along a list. *)
Definition non_increasing (l : list json) : Prop :=
  StronglySorted (fun a b => score_at_least a b = true) l.

Definition is_setex (ev : event) : bool :=
  match ev with
  | RedisSetex _ _ _ => true
  | _ => false
  end.

(** The typed failure [proxy_laravel_request] raises for a response. *)
Definition typed_failure (o : post_outcome) : option exn :=
  match o with
  | PostStatusError status_code message =>
      Some (HTTPException status_code ("Laravel API error: " +:+ message))
  | PostRequestError message =>
      Some (HTTPException 500 ("Request failed: " +:+ message))
  | _ => None
  end.

(** The two assignments every cached handler makes on a payload. *)
Definition annotate (flag : bool) (ms : Z) (p : payload) : payload :=
  mkPayload (results p)
    (dict_set "response_time_ms" (JInt ms)
       (dict_set "cached" (JBool flag) (fields p))).

(** ** Vocabulary for the sort *)

(** A list in ascending order for a strict order [ltb]: no item is below an
    earlier one. *)
Definition ascending {A} (ltb : A -> A -> bool) (l : list A) : Prop :=
  StronglySorted (fun a b => ltb b a = false) l.

(** A set of items none of which is below another: a class of ties. *)
Definition ties {A} (ltb : A -> A -> bool) (c : A -> bool) : Prop :=
  forall a b, c a = true -> c b = true -> ltb a b = false.

(** The place of a key among the numbers, where it is a number other than
    NaN. *)
Definition key_rank (key : json) : pyfloat :=
  match number key with
  | Some NaN | None => NegInf
  | Some x => x
  end.

Definition ordered_key (key : json) : bool :=
  match number key with
  | Some NaN | None => false
  | Some _ => true
  end.

Definition key_ltb (a b : json * json) : bool :=
  float_lt (key_rank (fst a)) (key_rank (fst b)).

(** The keys of one value: a class of ties. *)
Definition key_class (q : pyfloat) (p : json * json) : bool :=
  match number (fst p) with
  | Some y => float_same y q
  | None => false
  end.

(** An entry beside its key. *)
Definition keyed (recipe : json) : json * json :=
  (default JNull (entry_score recipe), recipe).

(** ** A small instance to run the model on

    Stand-ins for the library parameters, and a world with an upstream API
    that answers the general and ingredient searches, rejects the dish
    search and knows recipe 1. *)

Module Demo.

(** The characters U+0000 to U+00FF, in order. *)
Definition all_chars : string :=
  string_of_list_ascii (List.map (fun n => PyStr.chr (Z.of_nat n)) (seq 0 256)).

Definition float_text (x : pyfloat) : string :=
  match x with
  | Finite q => PyStr.of_int (Qnum q) +:+ "/" +:+ PyStr.of_int (Z.pos (Qden q))
  | PosInf => "Infinity"
  | NegInf => "-Infinity"
  | NaN => "NaN"
  end.

Definition body_json (b : body) : json :=
  match b with
  | Object p =>
      JDict (match results p with
             | Some found => [("results", found)]
             | None => []
             end ++ fields p)
  | Other v => v
  end.

Definition dumps (b : body) : string :=
  Json.dumps float_text false (body_json b).

(** A parser that recognises the texts of the documents in [known]. *)
Definition loads (known : list body) (text : string) : option body :=
  List.find (fun b => (dumps b =? text)%string) known.

(** The double nearest to a rational, ties to even, below the overflow
    threshold. *)
Definition round_half_even (x : Q) : Z :=
  let below := (Qnum x / Z.pos (Qden x))%Z in
  match (x - inject_Z below ?= 1 # 2)%Q with
  | Lt => below
  | Gt => (below + 1)%Z
  | Eq => if Z.even below then below else (below + 1)%Z
  end.

Definition pow2 (e : Z) : Q :=
  if (0 <=? e)%Z then inject_Z (2 ^ e) else (1 / inject_Z (2 ^ (- e)))%Q.

Definition to_double (x : Q) : Q :=
  if Qeq_bool x 0 then 0%Q
  else
    let a := if Qltb 0 x then x else (- x)%Q in
    let e0 := (Z.log2 (Qnum a) - Z.log2 (Z.pos (Qden a)))%Z in
    let e := if Qltb a (pow2 e0) then (e0 - 1)%Z else e0 in
    let ulp := pow2 (Z.max (e - 52) (-1074)) in
    let rounded := (inject_Z (round_half_even (a / ulp)) * ulp)%Q in
    if Qltb 0 x then rounded else (- rounded)%Q.

(** [int((now - start).total_seconds() * 1000)] for two times in
    microseconds: a division and a product in double precision, then a
    truncation towards zero. *)
Definition elapsed (start now : Z) : Z :=
  let seconds := to_double (inject_Z (now - start) / inject_Z 1000000) in
  let ms := Qred (to_double (seconds * inject_Z 1000)) in
  Z.quot (Qnum ms) (Z.pos (Qden ms)).

(** [type(v).__name__], and the text CPython 3.11 gives the exceptions it
    raises on a value. *)
Definition type_name (v : json) : string :=
  match v with
  | JNull => "NoneType"
  | JBool _ => "bool"
  | JInt _ => "int"
  | JFloat _ => "float"
  | JStr _ => "str"
  | JList _ => "list"
  | JDict _ => "dict"
  end.

Definition exn_text (e : exn) : string :=
  match e with
  | KeyError key => "'" +:+ key +:+ "'"
  | NotIterable v => "'" +:+ type_name v +:+ "' object is not iterable"
  | NotSubscriptable (JStr _) => "string indices must be integers, not 'str'"
  | NotSubscriptable (JList _) =>
      "list indices must be integers or slices, not str"
  | NotSubscriptable v => "'" +:+ type_name v +:+ "' object is not subscriptable"
  | Unhashable v => "unhashable type: '" +:+ type_name v +:+ "'"
  | NotOrdered x y =>
      "'<' not supported between instances of '" +:+ type_name x
      +:+ "' and '" +:+ type_name y +:+ "'"
  | _ => "error"
  end.

Definition lib (known : list body) : PyLib := {|
  float_repr := float_text;
  elapsed_ms := elapsed;
  json_dumps := dumps;
  json_loads := loads known;
  exn_str := exn_text
|}.

Definition scored (id : Z) (title : string) (score : pyfloat) : RecipeResult :=
  mkRecipe id title "Chicken" "Italian" None None score "chicken" "ingredients".

Definition recipe (id : Z) (title : string) (score : Q) : RecipeResult :=
  scored id title (Finite score).

Definition entries_of (hits : list RecipeResult) : list json :=
  List.map recipe_dict hits.

Definition entries (hits : list RecipeResult) : json :=
  JList (entries_of hits).

Definition general_hits : list RecipeResult :=
  [recipe 2 "Chicken Parmesan" (8 # 10); recipe 1 "Chicken Alfredo" (9 # 10)].

Definition ingredient_hits : list RecipeResult :=
  [recipe 1 "Chicken Alfredo" (5 # 10); recipe 3 "Chicken Marsala" (8 # 10)].

Definition similar_hits : list RecipeResult :=
  [recipe 2 "Chicken Parmesan" (7 # 10)].

Definition answer (hits : list RecipeResult) : body :=
  Object (mkPayload (Some (entries hits))
            [("count", JInt (Z.of_nat (List.length hits)))]).

Definition upstream : AsyncClient :=
  fun endpoint data =>
    if (endpoint =? "/search/general")%string then PostJson (answer general_hits)
    else if (endpoint =? "/search/ingredients")%string
    then PostJson (answer ingredient_hits)
    else if (endpoint =? "/search/similar/1")%string
    then PostJson (answer similar_hits)
    else if (endpoint =? "/search/dish")%string
    then PostStatusError 503 "Service Unavailable"
    else PostRequestError "All connection attempts failed".

(** An upstream API whose general search scores one recipe with NaN, the
    other searches being rejected. *)
Definition nan_hits : list RecipeResult :=
  [recipe 1 "Chicken Alfredo" (1 # 10);
   scored 2 "Chicken Parmesan" NaN;
   recipe 3 "Chicken Marsala" (9 # 10)].

Definition nan_upstream : AsyncClient :=
  fun endpoint data =>
    if (endpoint =? "/search/general")%string then PostJson (answer nan_hits)
    else PostStatusError 503 "Service Unavailable".


(** An upstream API that is down. *)
Definition unreachable_upstream : AsyncClient :=
  fun endpoint data => PostRequestError "All connection attempts failed".

Definition clock (n : nat) : Z := (1000000 + 2500 * Z.of_nat n)%Z.

Definition world (redis : option Redis) : World :=
  mkWorld (Some upstream) redis clock 0 [].

Definition nan_world : World := mkWorld (Some nan_upstream) None clock 0 [].


Definition request : SearchRequest.t := SearchRequest.mk "chicken" 6.

Definition empty_redis : Redis := mkRedis true ∅.
Definition down_redis : Redis := mkRedis false ∅.

Definition dark_world : World :=
  mkWorld (Some unreachable_upstream) (Some empty_redis) clock 0 [].

Definition dish_call : cached_call :=
  CallDish (DishSearchRequest.mk "carbonara" 5).

Definition ingredients_call : cached_call :=
  CallIngredients (IngredientSearchRequest.mk "chicken, tomato" 5).

(** The payload the first ingredient search leaves in the cache, and a
    library whose parser recognises its text. *)
Definition first_answer : payload :=
  annotate false 2
    (mkPayload (Some (entries ingredient_hits)) [("count", JInt 2)]).

Definition cached_lib : PyLib := lib [Object first_answer].

Definition warm_redis : Redis :=
  mkRedis true
    (<[cache_key_of (H := cached_lib) ingredients_call
       := (CACHE_TTL, dumps (Object first_answer))]> ∅).

(** The world an ingredient search leaves behind when it starts from an
    empty cache. *)
Definition warm_world : World :=
  snd (run (H := cached_lib) ingredients_call (world (Some empty_redis))).

(** What the enhanced search for ["chicken"] answers in [world None]. *)
Definition enhanced_answer : EnhancedResponse.t :=
  EnhancedResponse.mk "chicken" "enhanced_parallel"
    (List.map recipe_dict
       [recipe 1 "Chicken Alfredo" (9 # 10);
        recipe 2 "Chicken Parmesan" (8 # 10);
        recipe 3 "Chicken Marsala" (8 # 10)])
    3 2 3 false 2.

(** The pool of that search after deduplication. *)
Definition unique_entries : list json :=
  List.map recipe_dict
    [recipe 2 "Chicken Parmesan" (8 # 10);
     recipe 1 "Chicken Alfredo" (9 # 10);
     recipe 3 "Chicken Marsala" (8 # 10)].

Definition service_unavailable : exn :=
  HTTPException 503 "Laravel API error: Service Unavailable".

End Demo.

(** ** Start-up, health, statistics and cache management

    The remaining handlers of the proxy.  Three more things come from
    outside the program: the text of a timestamp, what the upstream API
    answers to a GET, and what the Redis server answers to INFO.  The trace
    of a world records the calls of the search handlers only; the calls
    below leave it as it is. *)

Class Services := {
  (** [datetime.isoformat()] *)
  isoformat : Z -> string;
  (** what [http_client.get(path)] leads to, for a given client *)
  get_outcome : AsyncClient -> string -> post_outcome;
  (** the reply of a server to [redis_client.info()] *)
  server_info : Redis -> list (string * json)
}.

Definition set_http_client (client : option AsyncClient) : M unit :=
  fun w => (Ok tt, mkWorld client (redis_client w) (clock w) (ticks w) (trace w)).

Definition set_redis_client (client : option Redis) : M unit :=
  fun w => (Ok tt, mkWorld (http_client w) client (clock w) (ticks w) (trace w)).

(** [redis_client.ping()] *)
Definition redis_ping : M unit :=
  r <- get_redis_client ;;
  match r with
  | None => raise AttributeError
  | Some r => if reachable r then ret tt else raise ConnectionError
  end.

(** [redis_client.flushdb()] *)
Definition redis_flushdb : M unit :=
  r <- get_redis_client ;;
  match r with
  | None => raise AttributeError
  | Some r =>
      if reachable r then set_redis_client (Some (mkRedis true ∅))
      else raise ConnectionError
  end.

(** [d.get(key, default)] *)
Definition dict_get_default (d : list (string * json)) (key : string)
  (value : json) : json :=
  default value (dict_get key d).

Section Admin.
Context `{PyLib} `{Services}.

(** [redis_client.info()] *)
Definition redis_info : M (list (string * json)) :=
  r <- get_redis_client ;;
  match r with
  | None => raise AttributeError
  | Some r => if reachable r then ret (server_info r) else raise ConnectionError
  end.

(** [await http_client.get(path)] *)
Definition http_get (path : string) : M post_outcome :=
  c <- get_http_client ;;
  match c with
  | None => raise AttributeError
  | Some client =>
      match get_outcome client path with
      | PostRequestError message => raise (RequestError message)
      | response => ret response
      end
  end.

(** [startup_event], for the upstream API found at [LARAVEL_BASE_URL] and
    the Redis server found at [REDIS_URL]. *)
Definition startup_event (laravel : AsyncClient) (server : Redis) : M unit :=
  set_http_client (Some laravel) ;;
  try_except
    (set_redis_client (Some server) ;;
     redis_ping)
    (fun e => Some (set_redis_client None)).

Definition root : M json :=
  client <- get_redis_client ;;
  now <- utcnow ;;
  ret (JDict [("service", JStr "Recipe Search Proxy API");
              ("status", JStr "healthy");
              ("laravel_api", JStr LARAVEL_BASE_URL);
              ("cache_enabled", JBool (bool_decide (is_Some client)));
              ("timestamp", JStr (isoformat now))]).

Definition get_search_stats : M body :=
  start_time <- utcnow ;;
  try_except
    (client <- get_http_client ;;
     if negb (bool_decide (is_Some client)) then
       raise (HTTPException 500 "HTTP client not initialized")
     else
       response <- http_get "/search/stats" ;;
       raise_for_status response ;;
       result <- response_json response ;;
       redis <- get_redis_client ;;
       now <- utcnow ;;
       result <- setitem result "proxy_info"
                   (JDict [("cache_enabled", JBool (bool_decide (is_Some redis)));
                           ("response_time_ms",
                            JInt (elapsed_ms start_time now))]) ;;
       ret result)
    (fun e =>
       match e with
       | HTTPStatusError status_code message =>
           Some (raise (HTTPException status_code
                          ("Laravel API error: " +:+ message)))
       | RequestError message =>
           Some (raise (HTTPException 500 ("Request failed: " +:+ message)))
       | _ => None
       end).

Definition cache_stats : M json :=
  client <- get_redis_client ;;
  if negb (bool_decide (is_Some client)) then
    ret (JDict [("cache_enabled", JBool false);
                ("message", JStr "Redis not available")])
  else
    try_except
      (info <- redis_info ;;
       ret (JDict [("cache_enabled", JBool true);
                   ("connected_clients",
                    dict_get_default info "connected_clients" (JInt 0));
                   ("used_memory_human",
                    dict_get_default info "used_memory_human" (JStr "unknown"));
                   ("keyspace_hits",
                    dict_get_default info "keyspace_hits" (JInt 0));
                   ("keyspace_misses",
                    dict_get_default info "keyspace_misses" (JInt 0));
                   ("cache_ttl_seconds", JInt CACHE_TTL)]))
      (fun e =>
         Some (ret (JDict [("cache_enabled", JBool false);
                           ("error", JStr (exn_str e))]))).

Definition clear_cache : M json :=
  client <- get_redis_client ;;
  if negb (bool_decide (is_Some client)) then
    ret (JDict [("cache_enabled", JBool false);
                ("message", JStr "Redis not available")])
  else
    try_except
      (redis_flushdb ;;
       ret (JDict [("success", JBool true);
                   ("message", JStr "Cache cleared successfully")]))
      (fun e =>
         Some (raise (HTTPException 500
                        ("Failed to clear cache: " +:+ exn_str e)))).

End Admin.

(** What [get_search_stats] makes of the answer to [GET /search/stats]. *)
Definition stats_result `{PyLib} (o : post_outcome) (enabled : bool) (ms : Z)
  : outcome body :=
  match o with
  | PostJson (Object p) =>
      Ok (Object
            (mkPayload (results p)
               (dict_set "proxy_info"
                  (JDict [("cache_enabled", JBool enabled);
                          ("response_time_ms", JInt ms)])
                  (fields p))))
  | PostJson (Other _) => Raise TypeError
  | PostBadJson => Raise JSONDecodeError
  | PostStatusError status_code message =>
      Raise (HTTPException status_code ("Laravel API error: " +:+ message))
  | PostRequestError message =>
      Raise (HTTPException 500 ("Request failed: " +:+ message))
  end.

(** What a cached handler answers on the miss path. *)
Definition fresh_answer (o : outcome body) (ms : Z) : outcome body :=
  match o with
  | Ok (Object p) => Ok (Object (annotate false ms p))
  | Ok (Other _) => Raise TypeError
  | Raise e => Raise e
  end.

(** Whether a handler finds a Redis client, and whether its server answers. *)
Definition cache_enabled (w : World) : bool :=
  bool_decide (is_Some (redis_client w)).

Definition cache_answering (w : World) : bool :=
  match redis_client w with
  | Some r => reachable r
  | None => false
  end.

(** A second small instance: an upstream API with statistics, a Redis
    server that reports one client, and worlds around them. *)
Module DemoAdmin.

Definition stats_answer : payload :=
  mkPayload None [("total_recipes", JInt 302); ("total_embeddings", JInt 906)].

Definition services : Services := {|
  isoformat := fun t => PyStr.of_int t;
  get_outcome := fun client path =>
    if (path =? "/search/stats")%string then PostJson (Object stats_answer)
    else PostStatusError 404 "Not Found";
  server_info := fun r =>
    [("connected_clients", JInt 1);
     ("keyspace_hits", JInt (Z.of_nat (size (db r))))]
|}.

(** A server that holds one entry that is not JSON. *)
Definition garbled_redis : Redis :=
  mkRedis true
    (<[cache_key_of (H := Demo.lib []) Demo.ingredients_call
       := (CACHE_TTL, "{not json")]> ∅).

(** A world before [startup_event]. *)
Definition cold_world : World := mkWorld None None Demo.clock 0 [].

(** An upstream API that answers with a JSON array. *)
Definition array_upstream : AsyncClient :=
  fun endpoint data => PostJson (Other (JList [JInt 1])).

Definition array_world : World :=
  mkWorld (Some array_upstream) (Some Demo.empty_redis) Demo.clock 0 [].

End DemoAdmin.

(** ** Vocabulary for further properties *)

Definition is_hex_char (c : ascii) : bool :=
  existsb (Ascii.eqb c) (list_ascii_of_string "0123456789abcdef").

(** The text field of a request and the longest text its model accepts. *)
Definition request_text (req : request) : option string :=
  match req with
  | PostSearchIngredients text _ | PostSearchCuisine text _
  | PostSearchDish text _ | PostSearchGeneral text _
  | PostSearchHybrid text _ | PostSearchEnhanced text _ => Some text
  | PostSearchSimilar _ _ => None
  end.

Definition request_max_length (req : request) : Z :=
  match req with
  | PostSearchCuisine _ _ | PostSearchDish _ _ => 200
  | _ => 500
  end.

(** The limit a handler works with: the one given, or the default of the
    route. *)
Definition effective_limit (req : request) : Z :=
  match req with
  | PostSearchSimilar _ limit => default 5%Z limit
  | _ => default 10%Z (request_limit req)
  end.

(** The text that [generate_cache_key] hashes, and the one a cached handler
    hashes for its request. *)
Definition cache_string `{PyLib} (endpoint : string) (data : json) : string :=
  endpoint +:+ ":" +:+ Json.dumps float_repr true data.

Definition cache_string_of `{PyLib} (c : cached_call) : string :=
  match c with
  | CallIngredients request =>
      cache_string "ingredients" (IngredientSearchRequest.dict request)
  | CallCuisine request =>
      cache_string "cuisine" (CuisineSearchRequest.dict request)
  | CallDish request =>
      cache_string "dish" (DishSearchRequest.dict request)
  | CallGeneral request =>
      cache_string "general" (SearchRequest.dict request)
  | CallHybrid request =>
      cache_string "hybrid" (SearchRequest.dict request)
  | CallSimilar recipe_id limit =>
      cache_string "similar"
        (JDict [("recipe_id", JInt recipe_id); ("limit", JInt limit)])
  end.

(** Reading back: the characters of the text of an [int], the first
    character of an escaped text, and the first character of a UTF-8 byte
    sequence.  They serve to show that the cache string loses nothing. *)
Definition is_number_char (c : ascii) : bool :=
  existsb (Ascii.eqb c) (list_ascii_of_string "-0123456789").

Definition hex_value (c : ascii) : Z :=
  let n := PyStr.ord c in
  if (n <? 58)%Z then (n - 48)%Z else (n - 87)%Z.

Definition unescape_first (s : string) : option (ascii * string) :=
  match s with
  | EmptyString => None
  | String c rest =>
      if (PyStr.ord c =? 34)%Z then None
      else if (PyStr.ord c =? 92)%Z then
        match rest with
        | EmptyString => None
        | String e rest' =>
            if (PyStr.ord e =? 117)%Z then
              match rest' with
              | String _ (String _ (String h (String l rest''))) =>
                  Some (PyStr.chr (16 * hex_value h + hex_value l), rest'')
              | _ => None
              end
            else if (PyStr.ord e =? 110)%Z then Some (PyStr.chr 10, rest')
            else if (PyStr.ord e =? 114)%Z then Some (PyStr.chr 13, rest')
            else if (PyStr.ord e =? 116)%Z then Some (PyStr.chr 9, rest')
            else if (PyStr.ord e =? 98)%Z then Some (PyStr.chr 8, rest')
            else if (PyStr.ord e =? 102)%Z then Some (PyStr.chr 12, rest')
            else Some (e, rest')
        end
      else Some (c, rest)
  end.

Definition decode_first (l : list Z) : option (ascii * list Z) :=
  match l with
  | [] => None
  | b :: rest =>
      if (b <? 128)%Z then Some (PyStr.chr b, rest)
      else
        match rest with
        | [] => None
        | b' :: rest' =>
            Some (PyStr.chr (Z.lor (Z.shiftl (Z.land b 31) 6) (Z.land b' 63)),
                  rest')
        end
  end.

Module DemoMore.

(** A mapping with a dict inside a list, and the same mapping with both
    dicts filled in another order. *)
Definition nested : json :=
  JDict [("filters", JList [JDict [("area", JStr "Italian");
                                   ("category", JStr "Pasta")]]);
         ("limit", JInt 5)].

Definition nested_reordered : json :=
  JDict [("limit", JInt 5);
         ("filters", JList [JDict [("category", JStr "Pasta");
                                   ("area", JStr "Italian")]])].

Definition garbled_world : World :=
  mkWorld (Some Demo.upstream) (Some DemoAdmin.garbled_redis) Demo.clock 0 [].

Definition ingredient_payload : payload :=
  mkPayload (Some (Demo.entries Demo.ingredient_hits)) [("count", JInt 2)].

(** A search by cuisine for the text and the limit of [Demo.dish_call]. *)
Definition cuisine_call : cached_call :=
  CallCuisine (CuisineSearchRequest.mk "carbonara" 5).

End DemoMore.

(** * Properties *)

(** ** Sanity checks of the executable model *)

Example md5_empty :
  MD5.hexdigest (PyStr.encode "") = "d41d8cd98f00b204e9800998ecf8427e".
Proof. vm_compute. reflexivity. Qed.

Example md5_abc :
  MD5.hexdigest (PyStr.encode "abc") = "900150983cd24fb0d6963f7d28e17f72".
Proof. vm_compute. reflexivity. Qed.

Example md5_fox :
  MD5.hexdigest (PyStr.encode "The quick brown fox jumps over the lazy dog")
  = "9e107d9d372bb6826bd81d3542a419d6".
Proof. vm_compute. reflexivity. Qed.

Example md5_two_blocks :
  MD5.hexdigest (repeat 97%Z 64) = "014842d480b571495a4a0363793f7367"
  /\ MD5.hexdigest (repeat 97%Z 56) = "3b0c8ac703f828b04c6c197006d17218".
Proof. vm_compute. split; reflexivity. Qed.

Example dumps_sample :
  Json.dumps (fun _ => "") true
    (JDict [("d", JInt (-12)); ("c", JDict []);
            ("b", JList [JInt 1; JBool true; JNull;
                         JDict [("z", JInt 1); ("y", JList [])]]);
            ("a", JStr (String (PyStr.chr 127) (String (PyStr.chr 255)
                     (String (PyStr.chr 92) (String (PyStr.chr 10) "/ ")))))])
  = "{" +:+ PyStr.dq +:+ "a" +:+ PyStr.dq +:+ ": " +:+ PyStr.dq
    +:+ "\u007f\u00ff\\\n/ " +:+ PyStr.dq +:+ ", "
    +:+ PyStr.dq +:+ "b" +:+ PyStr.dq +:+ ": [1, true, null, {"
    +:+ PyStr.dq +:+ "y" +:+ PyStr.dq +:+ ": [], "
    +:+ PyStr.dq +:+ "z" +:+ PyStr.dq +:+ ": 1}], "
    +:+ PyStr.dq +:+ "c" +:+ PyStr.dq +:+ ": {}, "
    +:+ PyStr.dq +:+ "d" +:+ PyStr.dq +:+ ": -12}".
Proof. vm_compute. reflexivity. Qed.

(** The 256 characters, escaped by [json.dumps] and encoded by
    [str.encode]: the digests [hashlib] gives for the same bytes. *)
Example escape_and_encode_all_chars :
  MD5.hexdigest (PyStr.encode (Json.dumps (fun _ => "") true (JStr Demo.all_chars)))
  = "0dffbb192d07c3b2f6140eb52e1eccd9"
  /\ MD5.hexdigest (PyStr.encode Demo.all_chars) = "e1cb1402564d3f0d07fc946196789c81".
Proof. vm_compute. split; reflexivity. Qed.

Example of_int_examples :
  List.map PyStr.of_int [0; -1; 10; 100200300400500600700800900]%Z
  = ["0"; "-1"; "10"; "100200300400500600700800900"].
Proof. reflexivity. Qed.

(** ** Ordering of strings and of dict members *)

Lemma ascii_compare_lt_trans (a b c : ascii) :
  Ascii.compare a b = Lt -> Ascii.compare b c = Lt -> Ascii.compare a c = Lt.
Proof.
  unfold Ascii.compare. rewrite !N.compare_lt_iff. lia.
Qed.

Lemma string_compare_lt_trans (s1 s2 s3 : string) :
  String.compare s1 s2 = Lt -> String.compare s2 s3 = Lt ->
  String.compare s1 s3 = Lt.
Proof.
  revert s2 s3.
  induction s1 as [|a s1 IH]; intros [|b s2] [|c s3]; simpl; try congruence.
  destruct (Ascii.compare a b) eqn:Hab; try discriminate.
  - apply Ascii.compare_eq_iff in Hab. subst b.
    destruct (Ascii.compare a c); try congruence. apply IH.
  - intros _.
    destruct (Ascii.compare b c) eqn:Hbc; try discriminate.
    + apply Ascii.compare_eq_iff in Hbc. subst c. now rewrite Hab.
    + intros _. now rewrite (ascii_compare_lt_trans a b c).
Qed.

Lemma ltb_trans (s1 s2 s3 : string) :
  String.ltb s1 s2 = true -> String.ltb s2 s3 = true -> String.ltb s1 s3 = true.
Proof.
  unfold String.ltb. intros H12 H23.
  destruct (String.compare s1 s2) eqn:E12; try discriminate.
  destruct (String.compare s2 s3) eqn:E23; try discriminate.
  now rewrite (string_compare_lt_trans s1 s2 s3).
Qed.

Lemma ltb_irrefl (s : string) : String.ltb s s = false.
Proof.
  unfold String.ltb.
  pose proof (String.compare_antisym s s) as Ha.
  destruct (String.compare s s); simpl in Ha; congruence.
Qed.

Lemma ltb_total (s1 s2 : string) :
  String.ltb s1 s2 = false -> s1 <> s2 -> String.ltb s2 s1 = true.
Proof.
  unfold String.ltb. intros Hlt Hne.
  rewrite (String.compare_antisym s2 s1).
  destruct (String.compare s1 s2) eqn:E; simpl; try congruence.
  apply String.compare_eq_iff in E. contradiction.
Qed.

Section SortItems.
Context {V : Type}.
Implicit Types (kv : string * V) (l : list (string * V)).

Lemma insert_item_perm kv l : Permutation (Json.insert_item kv l) (kv :: l).
Proof.
  induction l as [|kv' l IH]; simpl; [reflexivity|].
  destruct (String.ltb (fst kv') (fst kv)); [|reflexivity].
  rewrite IH. apply perm_swap.
Qed.

Lemma sort_items_perm l : Permutation (Json.sort_items l) l.
Proof.
  induction l as [|kv l IH]; simpl; [reflexivity|].
  rewrite insert_item_perm. now rewrite IH.
Qed.

Lemma insert_item_sorted kv l :
  ~ In (fst kv) (List.map fst l) ->
  StronglySorted Json.key_lt l -> StronglySorted Json.key_lt (Json.insert_item kv l).
Proof.
  induction l as [|kv' l IH]; simpl; intros Hnin Hs.
  - repeat constructor.
  - apply StronglySorted_inv in Hs as [Hs Hall].
    destruct (String.ltb (fst kv') (fst kv)) eqn:Hlt.
    + constructor; [apply IH; tauto|].
      rewrite List.Forall_forall. intros x Hx.
      apply (Permutation_in _ (insert_item_perm kv l)) in Hx.
      destruct Hx as [<-|Hx]; [exact Hlt|].
      rewrite List.Forall_forall in Hall. now apply Hall.
    + assert (Hkv : Json.key_lt kv kv').
      { apply ltb_total; [exact Hlt|]. intros Heq. apply Hnin. now left. }
      constructor; [now constructor|].
      constructor; [exact Hkv|].
      rewrite List.Forall_forall in *. intros x Hx.
      unfold Json.key_lt in *. eapply ltb_trans; [exact Hkv|]. now apply Hall.
Qed.

Lemma sort_items_sorted l :
  List.NoDup (List.map fst l) -> StronglySorted Json.key_lt (Json.sort_items l).
Proof.
  induction l as [|kv l IH]; simpl; intros Hnd; [constructor|].
  apply List.NoDup_cons_iff in Hnd as [Hnin Hnd].
  apply insert_item_sorted; [|now apply IH].
  intros Hin. apply Hnin.
  eapply Permutation_in; [|exact Hin].
  apply Permutation_map, sort_items_perm.
Qed.

(** Two strictly sorted lists with the same members are the same list. *)
Lemma sorted_perm_eq l1 l2 :
  StronglySorted Json.key_lt l1 -> StronglySorted Json.key_lt l2 ->
  Permutation l1 l2 -> l1 = l2.
Proof.
  revert l2. induction l1 as [|a l1 IH]; intros l2 H1 H2 Hp.
  - now apply Permutation_nil in Hp.
  - destruct l2 as [|b l2].
    { symmetry in Hp. now apply Permutation_nil in Hp. }
    apply StronglySorted_inv in H1 as [H1 Ha].
    apply StronglySorted_inv in H2 as [H2 Hb].
    rewrite List.Forall_forall in Ha, Hb.
    assert (Hab : a = b).
    { assert (Hina : In a (b :: l2)) by (eapply Permutation_in; [exact Hp|now left]).
      assert (Hinb : In b (a :: l1)).
      { eapply Permutation_in; [symmetry; exact Hp|now left]. }
      destruct Hina as [->|Hina]; [reflexivity|].
      destruct Hinb as [->|Hinb]; [reflexivity|].
      specialize (Ha _ Hinb). specialize (Hb _ Hina).
      unfold Json.key_lt in *.
      pose proof (ltb_trans _ _ _ Ha Hb) as Hc.
      rewrite ltb_irrefl in Hc. discriminate. }
    subst b. f_equal. apply IH; [assumption..|].
    now apply Permutation_cons_inv in Hp.
Qed.

Lemma sort_items_order_independent l1 l2 :
  List.NoDup (List.map fst l1) -> Permutation l1 l2 ->
  Json.sort_items l1 = Json.sort_items l2.
Proof.
  intros Hnd Hp.
  apply sorted_perm_eq.
  - now apply sort_items_sorted.
  - apply sort_items_sorted.
    eapply Permutation_NoDup; [|exact Hnd]. now apply Permutation_map.
  - rewrite !sort_items_perm. exact Hp.
Qed.

End SortItems.

(** ** Cache keys *)

Example cache_key_similar :
  generate_cache_key (H := Demo.lib []) "similar"
    (JDict [("recipe_id", JInt 1); ("limit", JInt 5)])
  = "a4fdfd9b24de92eb96c369128d001a7c".
Proof. vm_compute. reflexivity. Qed.

Example cache_key_ingredients :
  generate_cache_key (H := Demo.lib []) "ingredients"
    (JDict [("ingredients", JStr "chicken, tomato"); ("limit", JInt 5)])
  = "ad734e6671c126a00c89fe72d15842c6".
Proof. vm_compute. reflexivity. Qed.

Lemma json_nested_ind (P : json -> Prop) :
  P JNull ->
  (forall b, P (JBool b)) ->
  (forall n, P (JInt n)) ->
  (forall x, P (JFloat x)) ->
  (forall s, P (JStr s)) ->
  (forall items, List.Forall P items -> P (JList items)) ->
  (forall items, List.Forall (fun kv => P (snd kv)) items -> P (JDict items)) ->
  forall v, P v.
Proof.
  intros Hnull Hbool Hint Hfloat Hstr Hlist Hdict.
  fix IH 1. intros [| b | n | x | s | items | items].
  - exact Hnull.
  - apply Hbool.
  - apply Hint.
  - apply Hfloat.
  - apply Hstr.
  - apply Hlist. induction items as [|v items IHitems]; constructor.
    + apply IH.
    + exact IHitems.
  - apply Hdict. induction items as [|[k v] items IHitems]; constructor.
    + apply IH.
    + exact IHitems.
Qed.

(** Insertion order does not show in the sorted text, at any depth. *)
Lemma dumps_same_mapping (float_repr : pyfloat -> string) (v1 v2 : json) :
  same_mapping v1 v2 ->
  Json.dumps float_repr true v1 = Json.dumps float_repr true v2.
Proof.
  revert v2. induction v1 as [| b | n | x | s | l1 IH | d1 IH]
    using json_nested_ind; intros v2 Hsame;
    inversion Hsame as [v | l1' l2 Hall | d1' d d2 Hnd Hp Hall]; subst;
    try reflexivity.
  - simpl. do 3 f_equal.
    induction Hall as [|a b l1 l2 Hab Hall IHall]; [reflexivity|].
    apply List.Forall_cons_iff in IH as [IHa IHl].
    simpl. f_equal; [now apply IHa|].
    apply IHall; [exact IHl|]. now constructor.
  - cbn [Json.dumps]. do 4 f_equal.
    set (render := fun kv : string * json =>
                     let (k, v') := kv in (k, Json.dumps float_repr true v')).
    transitivity (Json.sort_items (List.map render d)).
    + apply sort_items_order_independent.
      * rewrite List.map_map.
        erewrite List.map_ext; [exact Hnd|]. now intros [k v].
      * now apply Permutation_map.
    + f_equal.
      assert (IHd : List.Forall
                      (fun kv => forall v2, same_mapping (snd kv) v2 ->
                         Json.dumps float_repr true (snd kv)
                         = Json.dumps float_repr true v2) d).
      { rewrite List.Forall_forall in *. intros kv Hkv. apply IH.
        eapply Permutation_in; [symmetry; exact Hp|exact Hkv]. }
      clear IH Hp Hnd Hsame.
      induction Hall as [|[k1 w1] [k2 w2] d d2 [Hk Hw] Hall IHall];
        [reflexivity|].
      apply List.Forall_cons_iff in IHd as [IHa IHd].
      simpl in *. subst k2. f_equal; [f_equal; now apply IHa|].
      now apply IHall.
Qed.

Lemma same_mapping_permutation (d1 d2 : list (string * json)) :
  List.NoDup (List.map fst d1) -> Permutation d1 d2 ->
  same_mapping (JDict d1) (JDict d2).
Proof.
  intros Hnd Hp. apply (same_dict d1 d2 d2 Hnd Hp).
  clear. induction d2 as [|kv d2 IH]; constructor; [|exact IH].
  split; [reflexivity|constructor].
Qed.

(** X2.  The cache key does not depend on insertion order inside the data
    either, for instance in a dict held by a list held by the mapping. *)
Lemma generate_cache_key_same_mapping `{PyLib}
  (endpoint : string) (data1 data2 : json) :
  same_mapping data1 data2 ->
  generate_cache_key endpoint data1 = generate_cache_key endpoint data2.
Proof.
  intros Hsame. unfold generate_cache_key.
  now rewrite (dumps_same_mapping float_repr data1 data2 Hsame).
Qed.

(** C3.  [generate_cache_key] is a function of the operation name and of
    the key/value pairs of the mapping: two dicts that hold the same pairs
    in different insertion orders get the same cache key. *)
Theorem generate_cache_key_insertion_order `{PyLib}
  (endpoint : string) (d1 d2 : list (string * json)) :
  List.NoDup (List.map fst d1) ->
  Permutation d1 d2 ->
  generate_cache_key endpoint (JDict d1) = generate_cache_key endpoint (JDict d2).
Proof.
  intros Hnd Hp. unfold generate_cache_key.
  now rewrite (dumps_same_mapping float_repr (JDict d1) (JDict d2)
                 (same_mapping_permutation d1 d2 Hnd Hp)).
Qed.

Lemma generate_cache_key_insertion_order_witness :
  generate_cache_key (H := Demo.lib []) "similar"
    (JDict [("recipe_id", JInt 1); ("limit", JInt 5)])
  = generate_cache_key (H := Demo.lib []) "similar"
      (JDict [("limit", JInt 5); ("recipe_id", JInt 1)]).
Proof.
  apply (generate_cache_key_insertion_order (H := Demo.lib []) "similar"
           [("recipe_id", JInt 1); ("limit", JInt 5)]
           [("limit", JInt 5); ("recipe_id", JInt 1)]).
  - simpl. repeat constructor; simpl; intuition discriminate.
  - apply perm_swap.
Defined.

(** C9.  A number and its string form are different literals to
    [generate_cache_key]: replacing the integer limit 5 of a mapping by the
    string "5" changes the cache key. *)
Theorem generate_cache_key_number_vs_string `{PyLib} :
  exists (endpoint key : string) (n : Z) (d : list (string * json)),
    dict_get key d = Some (JInt n) /\
    generate_cache_key endpoint (JDict d)
    <> generate_cache_key endpoint
         (JDict (dict_set key (JStr (PyStr.of_int n)) d)).
Proof.
  exists "similar", "limit", 5%Z, [("recipe_id", JInt 1); ("limit", JInt 5)].
  split; [reflexivity|].
  vm_compute. discriminate.
Qed.

Example cache_key_string_limit :
  generate_cache_key (H := Demo.lib []) "similar"
    (JDict [("recipe_id", JInt 1); ("limit", JStr "5")])
  = "9dacc0876767896114ce3bdc63adac73".
Proof. vm_compute. reflexivity. Qed.

(** ** The accessors in closed form *)

Section Access.
Context `{PyLib}.

Lemma get_cached_result_run (key : string) (w : World) :
  get_cached_result key w
  = (Ok (cache_lookup (redis_client w) key),
     log_if (redis_client w) (RedisGet key) w).
Proof.
  unfold get_cached_result, redis_get, try_except, bind, get_redis_client,
    emit, ret, raise, cache_lookup, log_if.
  destruct (redis_client w) as [r|] eqn:Hr; simpl; [|reflexivity].
  rewrite Hr. simpl.
  destruct (reachable r); simpl; [|reflexivity].
  destruct (db r !! key) as [[ttl text]|]; simpl; [|reflexivity].
  destruct (text =? "")%string; simpl; [reflexivity|].
  destruct (json_loads text); reflexivity.
Qed.

Lemma set_cached_result_run (key : string) (data : body) (w : World) :
  set_cached_result key data w = (Ok tt, cache_store key data w).
Proof.
  unfold set_cached_result, redis_setex, try_except, bind, get_redis_client,
    emit, ret, raise, cache_store.
  destruct (redis_client w) as [r|] eqn:Hr; simpl; [|reflexivity].
  rewrite Hr. simpl.
  destruct (reachable r); reflexivity.
Qed.

Lemma proxy_laravel_request_run (endpoint : string) (data : json) (w : World) :
  proxy_laravel_request endpoint data w
  = (upstream_result (http_client w) endpoint data,
     log_if (http_client w) (HttpPost endpoint data) w).
Proof.
  unfold proxy_laravel_request, http_post, raise_for_status, response_json,
    try_except, bind, get_http_client, emit, ret, raise, upstream_result,
    log_if.
  destruct (http_client w) as [c|] eqn:Hc; simpl; [|reflexivity].
  rewrite Hc. simpl.
  destruct (c endpoint data); reflexivity.
Qed.

Lemma run_cached_search (c : cached_call) :
  run c = cached_search (cache_key_of c) (upstream_endpoint c) (laravel_data_of c).
Proof. destruct c; reflexivity. Qed.

End Access.

(** ** The cached handlers in closed form *)

Section CachedSearch.
Context `{PyLib}.

Lemma log_if_redis_client {A} (c : option A) ev w :
  redis_client (log_if c ev w) = redis_client w.
Proof. now destruct c. Qed.

Lemma log_if_http_client {A} (c : option A) ev w :
  http_client (log_if c ev w) = http_client w.
Proof. now destruct c. Qed.

Lemma log_if_ticks {A} (c : option A) ev w :
  ticks (log_if c ev w) = ticks w.
Proof. now destruct c. Qed.

Lemma log_if_clock {A} (c : option A) ev w :
  clock (log_if c ev w) = clock w.
Proof. now destruct c. Qed.

Lemma log_if_trace {A} (c : option A) ev w :
  trace (log_if c ev w) = (trace w ++ match c with Some _ => [ev] | None => [] end)%list.
Proof. destruct c; simpl; [reflexivity|now rewrite List.app_nil_r]. Qed.

(** A hit: the stored dict comes back with the two members reassigned; the
    upstream API is not called and the cache is not written. *)
Lemma cached_search_hit key endpoint data w p :
  cache_lookup (redis_client w) key = Object p ->
  truthy (Object p) = true ->
  cached_search key endpoint data w
  = (Ok (Object (annotate true
                   (elapsed_ms (clock w (ticks w)) (clock w (Datatypes.S (ticks w))))
                   p)),
     tick (log_if (redis_client w) (RedisGet key) (tick w))).
Proof.
  intros Hlook Htrue.
  unfold cached_search, bind at 1. unfold utcnow at 1.
  unfold bind at 1. rewrite get_cached_result_run.
  change (redis_client (tick w)) with (redis_client w).
  rewrite Hlook, Htrue.
  unfold bind, setitem, ret, utcnow. simpl.
  now rewrite log_if_ticks, log_if_clock.
Qed.

(** A hit on something that is not a dict. *)
Lemma cached_search_hit_other key endpoint data w v :
  cache_lookup (redis_client w) key = Other v ->
  truthy (Other v) = true ->
  cached_search key endpoint data w
  = (Raise TypeError, log_if (redis_client w) (RedisGet key) (tick w)).
Proof.
  intros Hlook Htrue.
  unfold cached_search, bind at 1. unfold utcnow at 1.
  unfold bind at 1. rewrite get_cached_result_run.
  change (redis_client (tick w)) with (redis_client w).
  rewrite Hlook, Htrue. reflexivity.
Qed.

(** A miss followed by a failing upstream call. *)
Lemma cached_search_miss_raise key endpoint data w e :
  truthy (cache_lookup (redis_client w) key) = false ->
  upstream_result (http_client w) endpoint data = Raise e ->
  cached_search key endpoint data w
  = (Raise e,
     log_if (http_client w) (HttpPost endpoint data)
       (log_if (redis_client w) (RedisGet key) (tick w))).
Proof.
  intros Hmiss Hup.
  unfold cached_search, bind at 1. unfold utcnow at 1.
  unfold bind at 1. rewrite get_cached_result_run.
  change (redis_client (tick w)) with (redis_client w).
  rewrite Hmiss.
  unfold bind at 1. rewrite proxy_laravel_request_run.
  rewrite log_if_http_client.
  change (http_client (tick w)) with (http_client w). now rewrite Hup.
Qed.

(** A miss followed by an upstream answer that is a dict. *)
Lemma cached_search_miss_ok key endpoint data w p :
  truthy (cache_lookup (redis_client w) key) = false ->
  upstream_result (http_client w) endpoint data = Ok (Object p) ->
  let result :=
    Object (annotate false
              (elapsed_ms (clock w (ticks w)) (clock w (Datatypes.S (ticks w)))) p) in
  cached_search key endpoint data w
  = (Ok result,
     cache_store key result
       (tick (log_if (http_client w) (HttpPost endpoint data)
                (log_if (redis_client w) (RedisGet key) (tick w))))).
Proof.
  intros Hmiss Hup result.
  unfold cached_search, bind at 1. unfold utcnow at 1.
  unfold bind at 1. rewrite get_cached_result_run.
  change (redis_client (tick w)) with (redis_client w).
  rewrite Hmiss.
  unfold bind at 1. rewrite proxy_laravel_request_run.
  rewrite log_if_http_client.
  change (http_client (tick w)) with (http_client w). rewrite Hup.
  unfold bind at 1. unfold setitem at 1. unfold ret at 1.
  unfold bind at 1. unfold utcnow at 1.
  unfold bind at 1. unfold setitem at 1. unfold ret at 1.
  unfold bind at 1. rewrite set_cached_result_run.
  rewrite !log_if_ticks, !log_if_clock. reflexivity.
Qed.

(** A miss followed by an upstream answer that is not a dict. *)
Lemma cached_search_miss_other key endpoint data w v :
  truthy (cache_lookup (redis_client w) key) = false ->
  upstream_result (http_client w) endpoint data = Ok (Other v) ->
  cached_search key endpoint data w
  = (Raise TypeError,
     log_if (http_client w) (HttpPost endpoint data)
       (log_if (redis_client w) (RedisGet key) (tick w))).
Proof.
  intros Hmiss Hup.
  unfold cached_search, bind at 1. unfold utcnow at 1.
  unfold bind at 1. rewrite get_cached_result_run.
  change (redis_client (tick w)) with (redis_client w).
  rewrite Hmiss.
  unfold bind at 1. rewrite proxy_laravel_request_run.
  rewrite log_if_http_client.
  change (http_client (tick w)) with (http_client w). now rewrite Hup.
Qed.

End CachedSearch.

(** ** Properties of the cached handlers *)

Lemma dict_get_set_eq key value d :
  dict_get key (dict_set key value d) = Some value.
Proof.
  induction d as [|[k v] d IH]; simpl.
  - now rewrite String.eqb_refl.
  - destruct (k =? key)%string eqn:E; simpl; now rewrite E.
Qed.

Lemma dict_get_set_ne key key' value d :
  key <> key' -> dict_get key (dict_set key' value d) = dict_get key d.
Proof.
  intros Hne. induction d as [|[k v] d IH]; simpl.
  - apply String.eqb_neq in Hne. rewrite String.eqb_sym in Hne. now rewrite Hne.
  - destruct (k =? key')%string eqn:E; simpl.
    + apply String.eqb_eq in E. subst k.
      destruct (key' =? key)%string eqn:E'; [|reflexivity].
      apply String.eqb_eq in E'. congruence.
    + now rewrite IH.
Qed.

Lemma annotate_cached flag ms p :
  dict_get "cached" (fields (annotate flag ms p)) = Some (JBool flag).
Proof.
  unfold annotate. simpl.
  rewrite dict_get_set_ne by discriminate. apply dict_get_set_eq.
Qed.

Lemma annotate_response_time flag ms p :
  dict_get "response_time_ms" (fields (annotate flag ms p)) = Some (JInt ms).
Proof. unfold annotate. simpl. apply dict_get_set_eq. Qed.

Lemma annotate_other flag ms p key :
  key <> "cached" -> key <> "response_time_ms" ->
  dict_get key (fields (annotate flag ms p)) = dict_get key (fields p).
Proof.
  intros H1 H2. unfold annotate. simpl.
  now rewrite !dict_get_set_ne.
Qed.

Lemma annotate_truthy flag ms p : truthy (Object (annotate flag ms p)) = true.
Proof.
  unfold truthy, annotate. simpl.
  destruct (results p); [reflexivity|].
  destruct (dict_set "cached" (JBool flag) (fields p)) as [|[k v] d]; simpl;
    [reflexivity|].
  now destruct (k =? "response_time_ms")%string.
Qed.

Section CacheClaims.
Context `{PyLib}.

Lemma typed_failure_raises (w : World) client endpoint data e :
  http_client w = Some client ->
  typed_failure (client endpoint data) = Some e ->
  upstream_result (http_client w) endpoint data = Raise e.
Proof.
  intros -> Hf. unfold upstream_result.
  destruct (client endpoint data); simpl in Hf; congruence.
Qed.

(** C6.  When the cache lookup of a cached handler misses and the upstream
    call fails with a status error or a request error, the handler raises
    the matching [HTTPException] (the upstream status, or 500), leaves the
    Redis store as it was and issues no [setex]. *)
Theorem upstream_failure_not_cached (c : cached_call) (w : World)
  (client : AsyncClient) (e : exn) :
  truthy (cache_lookup (redis_client w) (cache_key_of c)) = false ->
  http_client w = Some client ->
  typed_failure (client (upstream_endpoint c) (laravel_data_of c)) = Some e ->
  exists w' evs,
    run c w = (Raise e, w')
    /\ (exists status_code detail, e = HTTPException status_code detail)
    /\ redis_client w' = redis_client w
    /\ trace w' = (trace w ++ evs)%list
    /\ forallb (fun ev => negb (is_setex ev)) evs = true.
Proof.
  intros Hmiss Hc Hf.
  pose proof (typed_failure_raises w client _ _ e Hc Hf) as Hup.
  rewrite run_cached_search.
  rewrite (cached_search_miss_raise _ _ _ _ e Hmiss Hup).
  eexists. eexists. split; [reflexivity|]. split.
  { destruct (client (upstream_endpoint c) (laravel_data_of c));
      simpl in Hf; inversion Hf; eauto. }
  split; [now rewrite !log_if_redis_client|].
  split.
  - rewrite !log_if_trace. simpl trace. rewrite <- List.app_assoc. reflexivity.
  - rewrite Hc. now destruct (redis_client w).
Qed.

(** C7.  With Redis disabled or unreachable, [get_cached_result] returns
    [None], [set_cached_result] returns normally, a cached handler returns
    the annotated upstream answer, and no handler raises a Redis error. *)
Theorem cache_degrades_to_miss (w : World) :
  (redis_client w = None
   \/ exists r, redis_client w = Some r /\ reachable r = false) ->
  (forall key, exists w',
      get_cached_result key w = (Ok None_, w')
      /\ redis_client w' = redis_client w)
  /\ (forall key data, exists w',
         set_cached_result key data w = (Ok tt, w')
         /\ redis_client w' = redis_client w)
  /\ (forall c p,
         upstream_result (http_client w) (upstream_endpoint c) (laravel_data_of c)
         = Ok (Object p) ->
         exists w',
           run c w
           = (Ok (Object (annotate false
                            (elapsed_ms (clock w (ticks w))
                                        (clock w (Datatypes.S (ticks w)))) p)),
              w')
           /\ redis_client w' = redis_client w)
  /\ (forall c, fst (run c w) <> Raise ConnectionError
                /\ fst (run c w) <> Raise AttributeError).
Proof.
  intros Hdown.
  assert (Hlook : forall key, cache_lookup (redis_client w) key = None_).
  { intros key. destruct Hdown as [->|(r & -> & Hr)]; simpl; [reflexivity|].
    now rewrite Hr. }
  assert (Hstore : forall key data w0,
             redis_client w0 = redis_client w ->
             redis_client (cache_store key data w0) = redis_client w).
  { intros key data w0 Hw0. unfold cache_store. rewrite Hw0.
    destruct Hdown as [Hw|(r & Hw & Hr)]; rewrite Hw in *; [exact Hw0|].
    rewrite Hr. exact Hw0. }
  repeat split.
  - intros key. rewrite get_cached_result_run, Hlook.
    eexists. split; [reflexivity|apply log_if_redis_client].
  - intros key data. rewrite set_cached_result_run.
    eexists. split; [reflexivity|now apply Hstore].
  - intros c p Hup. rewrite run_cached_search.
    assert (Hmiss : truthy (cache_lookup (redis_client w) (cache_key_of c)) = false)
      by now rewrite Hlook.
    pose proof (cached_search_miss_ok _ _ _ _ p Hmiss Hup) as Hrun.
    simpl in Hrun. rewrite Hrun.
    eexists. split; [reflexivity|].
    apply Hstore. simpl. now rewrite !log_if_redis_client.
  - rewrite run_cached_search.
    assert (Hmiss : truthy (cache_lookup (redis_client w) (cache_key_of c)) = false)
      by now rewrite Hlook.
    destruct (upstream_result (http_client w) (upstream_endpoint c)
                (laravel_data_of c)) as [[p|v]|e] eqn:Hup.
    + pose proof (cached_search_miss_ok _ _ _ _ p Hmiss Hup) as Hrun.
      simpl in Hrun. rewrite Hrun. discriminate.
    + rewrite (cached_search_miss_other _ _ _ _ v Hmiss Hup). discriminate.
    + rewrite (cached_search_miss_raise _ _ _ _ e Hmiss Hup). simpl.
      unfold upstream_result in Hup.
      destruct (http_client w) as [cl|]; [|congruence].
      destruct (cl _ _); congruence.
  - rewrite run_cached_search.
    assert (Hmiss : truthy (cache_lookup (redis_client w) (cache_key_of c)) = false)
      by now rewrite Hlook.
    destruct (upstream_result (http_client w) (upstream_endpoint c)
                (laravel_data_of c)) as [[p|v]|e] eqn:Hup.
    + pose proof (cached_search_miss_ok _ _ _ _ p Hmiss Hup) as Hrun.
      simpl in Hrun. rewrite Hrun. discriminate.
    + rewrite (cached_search_miss_other _ _ _ _ v Hmiss Hup). discriminate.
    + rewrite (cached_search_miss_raise _ _ _ _ e Hmiss Hup). simpl.
      unfold upstream_result in Hup.
      destruct (http_client w) as [cl|]; [|congruence].
      destruct (cl _ _); congruence.
Qed.

Lemma cache_lookup_stored (w : World) (r : Redis) key ttl (stored : body) :
  redis_client w = Some r ->
  reachable r = true ->
  db r !! key = Some (ttl, json_dumps stored) ->
  json_dumps stored <> "" ->
  json_loads (json_dumps stored) = Some stored ->
  cache_lookup (redis_client w) key = stored.
Proof.
  intros -> Hr Hdb Hne Hrt. unfold cache_lookup. rewrite Hr, Hdb.
  apply String.eqb_neq in Hne. rewrite Hne. simpl. now rewrite Hrt.
Qed.

(** The answer to a request whose key holds the text of [stored]. *)
Lemma cache_hit_run (c : cached_call) (w : World) (r : Redis)
  (ttl : Z) (stored : payload) :
  redis_client w = Some r ->
  reachable r = true ->
  db r !! cache_key_of c = Some (ttl, json_dumps (Object stored)) ->
  json_dumps (Object stored) <> "" ->
  json_loads (json_dumps (Object stored)) = Some (Object stored) ->
  truthy (Object stored) = true ->
  run c w
  = (Ok (Object (annotate true
                   (elapsed_ms (clock w (ticks w)) (clock w (Datatypes.S (ticks w))))
                   stored)),
     tick (log (RedisGet (cache_key_of c)) (tick w))).
Proof.
  intros Hc Hr Hdb Hne Hrt Htrue.
  pose proof (cache_lookup_stored w r _ ttl (Object stored) Hc Hr Hdb Hne Hrt)
    as Hlook.
  rewrite run_cached_search.
  rewrite (cached_search_hit _ _ _ _ stored Hlook Htrue).
  now rewrite Hc.
Qed.

(** C8.  When the store holds, under the key of a request, the text of a
    payload that [json.loads] reads back, the handler returns that payload
    with ["cached"] set to [True] and ["response_time_ms"] set to the time
    measured for this request; its result list and every other member are
    those of the stored payload, and neither the store nor the upstream API
    is touched. *)
Theorem cache_hit_returns_stored (c : cached_call) (w : World) (r : Redis)
  (ttl : Z) (stored : payload) :
  redis_client w = Some r ->
  reachable r = true ->
  db r !! cache_key_of c = Some (ttl, json_dumps (Object stored)) ->
  json_dumps (Object stored) <> "" ->
  json_loads (json_dumps (Object stored)) = Some (Object stored) ->
  truthy (Object stored) = true ->
  let ms := elapsed_ms (clock w (ticks w)) (clock w (Datatypes.S (ticks w))) in
  exists returned w',
    run c w = (Ok (Object returned), w')
    /\ returned = annotate true ms stored
    /\ results returned = results stored
    /\ dict_get "cached" (fields returned) = Some (JBool true)
    /\ dict_get "response_time_ms" (fields returned) = Some (JInt ms)
    /\ (forall key, key <> "cached" -> key <> "response_time_ms" ->
        dict_get key (fields returned) = dict_get key (fields stored))
    /\ redis_client w' = redis_client w
    /\ trace w' = (trace w ++ [RedisGet (cache_key_of c)])%list.
Proof.
  intros Hc Hr Hdb Hne Hrt Htrue ms.
  rewrite (cache_hit_run c w r ttl stored Hc Hr Hdb Hne Hrt Htrue).
  exists (annotate true ms stored). eexists.
  split; [reflexivity|]. split; [reflexivity|]. split; [reflexivity|].
  split; [apply annotate_cached|]. split; [apply annotate_response_time|].
  split; [intros; now apply annotate_other|].
  split; reflexivity.
Qed.

(** What a miss leaves in a reachable store: the annotated upstream answer
    under the key of the request, with the configured time-to-live. *)
Lemma miss_writes_annotated (c : cached_call) (w : World) (r : Redis)
  (p : payload) :
  redis_client w = Some r ->
  reachable r = true ->
  truthy (cache_lookup (redis_client w) (cache_key_of c)) = false ->
  upstream_result (http_client w) (upstream_endpoint c) (laravel_data_of c)
  = Ok (Object p) ->
  let stored :=
    annotate false
      (elapsed_ms (clock w (ticks w)) (clock w (Datatypes.S (ticks w)))) p in
  exists w' r',
    run c w = (Ok (Object stored), w')
    /\ redis_client w' = Some r'
    /\ reachable r' = true
    /\ db r' !! cache_key_of c = Some (CACHE_TTL, json_dumps (Object stored)).
Proof.
  intros Hc Hr Hmiss Hup stored.
  rewrite run_cached_search.
  pose proof (cached_search_miss_ok _ _ _ _ p Hmiss Hup) as Hrun.
  simpl in Hrun. rewrite Hrun.
  eexists. eexists. split; [reflexivity|].
  unfold cache_store. simpl redis_client at 1.
  rewrite !log_if_redis_client. simpl redis_client at 1. rewrite Hc, Hr.
  simpl. split; [reflexivity|]. split; [reflexivity|].
  apply lookup_insert_eq.
Qed.

(** X8.  A miss followed by the same request: the second answer is the first
    one, served from the cache.  The second request makes one Redis [get]
    and nothing else: no call to the upstream API, no write, and the store
    is left as the first request filled it. *)
Corollary miss_then_hit (c : cached_call) (w1 w2 : World) (r : Redis)
  (p : payload) :
  redis_client w1 = Some r ->
  reachable r = true ->
  truthy (cache_lookup (redis_client w1) (cache_key_of c)) = false ->
  upstream_result (http_client w1) (upstream_endpoint c) (laravel_data_of c)
  = Ok (Object p) ->
  let first :=
    annotate false
      (elapsed_ms (clock w1 (ticks w1)) (clock w1 (Datatypes.S (ticks w1)))) p in
  json_dumps (Object first) <> "" ->
  json_loads (json_dumps (Object first)) = Some (Object first) ->
  redis_client w2 = redis_client (snd (run c w1)) ->
  exists w2',
    run c w2
    = (Ok (Object (annotate true
                     (elapsed_ms (clock w2 (ticks w2))
                                 (clock w2 (Datatypes.S (ticks w2)))) first)),
       w2')
    /\ trace w2' = (trace w2 ++ [RedisGet (cache_key_of c)])%list
    /\ redis_client w2' = redis_client w2
    /\ http_client w2' = http_client w2.
Proof.
  intros Hc Hr Hmiss Hup first Hne Hrt Hw2.
  destruct (miss_writes_annotated c w1 r p Hc Hr Hmiss Hup)
    as (w1' & r' & Hrun & Hc' & Hr' & Hdb).
  rewrite Hrun in Hw2. simpl in Hw2. rewrite Hc' in Hw2.
  eexists. split.
  - apply (cache_hit_run c w2 r' CACHE_TTL first Hw2 Hr' Hdb Hne Hrt
             (annotate_truthy _ _ _)).
  - repeat split.
Qed.

End CacheClaims.
(** ** The combined pool, deduplication, ranking, truncation *)

Lemma getitem_entry_id (recipe id : json) :
  getitem recipe "recipe_id" = Ok id <-> entry_id recipe = Some id.
Proof.
  unfold getitem, entry_id. destruct recipe; try (split; discriminate).
  destruct (dict_get "recipe_id" items); split; congruence.
Qed.

Lemma getitem_entry_score (recipe score : json) :
  getitem recipe "similarity_score" = Ok score <-> entry_score recipe = Some score.
Proof.
  unfold getitem, entry_score. destruct recipe; try (split; discriminate).
  destruct (dict_get "similarity_score" items); split; congruence.
Qed.

Lemma fold_collect (l : list (outcome body)) (acc : list json * Z) :
  fold_outcome collect_step l acc
  = (pool <~ combined_pool l ;;
     Ok ((fst acc ++ pool)%list,
         (snd acc + Z.of_nat (List.length (List.filter succeeded l)))%Z)).
Proof.
  unfold combined_pool.
  revert acc. induction l as [|o l IH]; intros [pool n]; cbn [fold_outcome].
  - cbn. rewrite List.app_nil_r. do 2 f_equal. lia.
  - cbn [map_outcome List.filter].
    assert (Hstep : collect_step (pool, n) o
                    = (items <~ strategy_results o ;;
                       Ok ((pool ++ items)%list,
                           if succeeded o then (n + 1)%Z else n))).
    { destruct o as [[p|v]|e]; cbn; try now rewrite List.app_nil_r.
      destruct (results p) as [found|]; cbn; [|now rewrite List.app_nil_r].
      now destruct (iterate found). }
    rewrite Hstep.
    destruct (strategy_results o) as [items|e]; cbn [and_then]; [|reflexivity].
    rewrite IH. cbn [fst snd].
    destruct (map_outcome strategy_results l) as [pools|e]; cbn [and_then];
      [|reflexivity].
    cbn [concat]. rewrite List.app_assoc. do 2 f_equal.
    destruct (succeeded o); cbn [List.length]; lia.
Qed.

Lemma collect_spec (l : list (outcome body)) :
  collect l
  = (pool <~ combined_pool l ;;
     Ok (pool, Z.of_nat (List.length (List.filter succeeded l)))).
Proof. unfold collect. now rewrite fold_collect. Qed.

Lemma strategy_results_failed (o : outcome body) :
  succeeded o = false -> strategy_results o = Ok [].
Proof.
  destruct o as [[p|v]|e]; cbn; try reflexivity.
  now destruct (results p).
Qed.


Lemma combined_pool_all_failed (l : list (outcome body)) :
  forallb failed l = true -> combined_pool l = Ok [].
Proof.
  unfold combined_pool, failed. induction l as [|o l IH]; [reflexivity|].
  cbn [forallb map_outcome]. intros [Ho Hl]%andb_true_iff.
  apply negb_true_iff in Ho. rewrite (strategy_results_failed o Ho).
  cbn [and_then]. specialize (IH Hl).
  destruct (map_outcome strategy_results l) as [ps|e]; cbn [and_then] in *;
    [|discriminate].
  injection IH as IH. cbn [concat app]. now rewrite IH.
Qed.


(** *** Equality of identifiers *)

Lemma float_same_refl (x : pyfloat) : float_same x x = true.
Proof. destruct x; cbn; try reflexivity. apply Qeq_bool_iff, Qeq_refl. Qed.

Lemma float_same_sym (x y : pyfloat) : float_same x y = float_same y x.
Proof.
  destruct x, y; cbn; try reflexivity.
  destruct (Qeq_bool x x0) eqn:E1, (Qeq_bool x0 x) eqn:E2; try reflexivity.
  - apply Qeq_bool_iff, Qeq_sym, Qeq_bool_iff in E1. congruence.
  - apply Qeq_bool_iff, Qeq_sym, Qeq_bool_iff in E2. congruence.
Qed.

Lemma float_same_trans (x y z : pyfloat) :
  float_same x y = true -> float_same y z = true -> float_same x z = true.
Proof.
  destruct x, y, z; cbn; try discriminate; try reflexivity.
  rewrite !Qeq_bool_iff. apply Qeq_trans.
Qed.

Lemma py_eq_refl (x : json) : hashable x = true -> py_eq x x = true.
Proof.
  destruct x; cbn [py_eq number hashable]; try discriminate; intros _;
    try reflexivity; try apply float_same_refl.
  apply String.eqb_refl.
Qed.

Lemma py_eq_sym (x y : json) :
  hashable x = true -> py_eq x y = py_eq y x.
Proof.
  destruct x, y; cbn [py_eq number hashable]; try discriminate; intros _;
    try reflexivity; try apply float_same_sym.
  apply String.eqb_sym.
Qed.

Lemma py_eq_hashable (x y : json) :
  hashable x = true -> py_eq x y = true -> hashable y = true.
Proof. destruct x, y; cbn [py_eq number hashable]; congruence. Qed.

Lemma py_eq_trans (x y z : json) :
  hashable x = true ->
  py_eq x y = true -> py_eq y z = true -> py_eq x z = true.
Proof.
  destruct x, y, z; cbn [py_eq number hashable]; try discriminate; intros _;
    try reflexivity; try apply float_same_trans.
  rewrite !String.eqb_eq. congruence.
Qed.

(** *** Deduplication *)

Lemma fold_dedup (l : list json) (seen acc : list json) :
  (a <~ fold_outcome dedup_step l (seen, acc) ;; Ok (snd a))
  = (kept <~ dedup_from seen l ;; Ok (acc ++ kept)%list).
Proof.
  revert seen acc. induction l as [|x l IH]; intros seen acc;
    cbn [fold_outcome dedup_from and_then].
  - cbn. now rewrite List.app_nil_r.
  - unfold dedup_step at 1.
    destruct (getitem x "recipe_id") as [id|e]; cbn [and_then]; [|reflexivity].
    destruct (hashable id); [|reflexivity].
    destruct (existsb (py_eq id) seen); cbn [and_then]; [apply IH|].
    rewrite IH.
    destruct (dedup_from (seen ++ [id]) l) as [kept|e]; cbn [and_then];
      [|reflexivity].
    now rewrite <- List.app_assoc.
Qed.

Lemma remove_duplicates_dedup_from (l : list json) :
  remove_duplicates l = dedup_from [] l.
Proof.
  unfold remove_duplicates. rewrite fold_dedup.
  now destruct (dedup_from [] l).
Qed.

(** One step of [dedup_from] that did not raise. *)
Lemma dedup_from_cons (seen : list json) (x : json) (l u : list json) :
  dedup_from seen (x :: l) = Ok u ->
  exists id,
    entry_id x = Some id /\ hashable id = true
    /\ ((existsb (py_eq id) seen = true /\ dedup_from seen l = Ok u)
        \/ (existsb (py_eq id) seen = false
            /\ exists kept, dedup_from (seen ++ [id]) l = Ok kept
                            /\ u = x :: kept)).
Proof.
  cbn [dedup_from].
  destruct (getitem x "recipe_id") as [id|e] eqn:Hid; cbn [and_then];
    [|discriminate].
  apply getitem_entry_id in Hid.
  destruct (hashable id) eqn:Hh; [|discriminate].
  intros Hrun. exists id. split; [exact Hid|]. split; [exact Hh|].
  destruct (existsb (py_eq id) seen); [left; now split|right].
  split; [reflexivity|].
  destruct (dedup_from (seen ++ [id]) l) as [kept|e]; cbn [and_then] in Hrun;
    [|discriminate].
  exists kept. split; [reflexivity|congruence].
Qed.

Lemma existsb_snoc_false {A} (f : A -> bool) (l : list A) (x : A) :
  existsb f (l ++ [x]) = false -> existsb f l = false /\ f x = false.
Proof.
  rewrite List.existsb_app. cbn. rewrite orb_false_r.
  now intros [-> ->]%orb_false_iff.
Qed.

(** A kept entry is an entry of the pool whose [recipe_id] was not seen. *)
Lemma dedup_from_in (seen : list json) (l u : list json) (r : json) :
  dedup_from seen l = Ok u -> In r u ->
  In r l
  /\ exists id, entry_id r = Some id /\ hashable id = true
                /\ existsb (py_eq id) seen = false.
Proof.
  revert seen u. induction l as [|x l IH]; intros seen u Hrun Hr.
  - injection Hrun as <-. destruct Hr.
  - apply dedup_from_cons in Hrun
      as (id & Hid & Hh & [[Hseen Hrun]|(Hseen & kept & Hrun & ->)]).
    + destruct (IH _ _ Hrun Hr) as [Hin Hrest]. split; [now right|exact Hrest].
    + destruct Hr as [<-|Hr].
      * split; [now left|]. now exists id.
      * destruct (IH _ _ Hrun Hr) as [Hin (id' & Hid' & Hh' & Hf)].
        split; [now right|]. exists id'. split; [exact Hid'|].
        split; [exact Hh'|]. now apply existsb_snoc_false in Hf.
Qed.

Lemma dedup_from_sub (seen : list json) (l u : list json) (r : json) :
  dedup_from seen l = Ok u -> In r u -> In r l.
Proof. intros Hrun Hr. now apply (dedup_from_in _ _ _ _ Hrun) in Hr. Qed.

(** When deduplication does not raise, every entry of the pool is a dict
    with a [recipe_id] that can be hashed. *)
Lemma dedup_from_has_id (seen : list json) (l u : list json) :
  dedup_from seen l = Ok u -> Forall (fun x => has_id x = true) l.
Proof.
  revert seen u. induction l as [|x l IH]; intros seen u Hrun; [constructor|].
  apply dedup_from_cons in Hrun
    as (id & Hid & Hh & [[Hseen Hrun]|(Hseen & kept & Hrun & ->)]);
    (constructor; [unfold has_id; now rewrite Hid|eauto]).
Qed.


Lemma dedup_from_distinct (seen : list json) (l u : list json) :
  dedup_from seen l = Ok u -> distinct_ids u.
Proof.
  unfold distinct_ids.
  revert seen u. induction l as [|x l IH]; intros seen u Hrun.
  - injection Hrun as <-. constructor.
  - apply dedup_from_cons in Hrun
      as (id & Hid & Hh & [[Hseen Hrun]|(Hseen & kept & Hrun & ->)]);
      [now apply IH in Hrun|].
    constructor; [now apply IH in Hrun|].
    apply List.Forall_forall. intros r Hr.
    destruct (dedup_from_in _ _ _ _ Hrun Hr) as [_ (id' & Hid' & _ & Hf)].
    apply existsb_snoc_false in Hf as [_ Hf].
    unfold same_id. now rewrite Hid', Hid.
Qed.

(** A kept entry is the first one of the pool with its [recipe_id]. *)
Lemma dedup_from_first (seen : list json) (l u : list json) (r : json) :
  dedup_from seen l = Ok u -> In r u -> List.find (same_id r) l = Some r.
Proof.
  revert seen u. induction l as [|x l IH]; intros seen u Hrun Hr.
  - injection Hrun as <-. destruct Hr.
  - cbn [List.find].
    apply dedup_from_cons in Hrun
      as (id & Hid & Hh & [[Hseen Hrun]|(Hseen & kept & Hrun & ->)]).
    + destruct (dedup_from_in _ _ _ _ Hrun Hr) as [_ (id' & Hid' & Hh' & Hf)].
      assert (Hdiff : same_id r x = false).
      { unfold same_id. rewrite Hid, Hid'.
        destruct (py_eq id id') eqn:Heq; [exfalso|reflexivity].
        apply List.existsb_exists in Hseen as (s & Hs & Hids).
        assert (Hmem : existsb (py_eq id') seen = true).
        { apply List.existsb_exists. exists s. split; [exact Hs|].
          apply (py_eq_trans id' id s Hh'); [|exact Hids].
          now rewrite py_eq_sym. }
        congruence. }
      rewrite Hdiff. now apply (IH _ _ Hrun).
    + destruct Hr as [<-|Hr].
      * unfold same_id. rewrite Hid. now rewrite py_eq_refl.
      * destruct (dedup_from_in _ _ _ _ Hrun Hr) as [_ (id' & Hid' & Hh' & Hf)].
        apply existsb_snoc_false in Hf as [_ Hf].
        assert (Hdiff : same_id r x = false).
        { unfold same_id. rewrite Hid, Hid'. now rewrite py_eq_sym. }
        rewrite Hdiff. now apply (IH _ _ Hrun).
Qed.

(** Every [recipe_id] of the pool survives deduplication. *)
Lemma dedup_from_complete (seen : list json) (l u : list json) (x : json) :
  dedup_from seen l = Ok u -> In x l ->
  (forall id, entry_id x = Some id -> existsb (py_eq id) seen = false) ->
  exists r, In r u /\ same_id r x = true.
Proof.
  revert seen u. induction l as [|y l IH]; intros seen u Hrun Hx Hfresh;
    [destruct Hx|].
  apply dedup_from_cons in Hrun
    as (id & Hid & Hh & [[Hseen Hrun]|(Hseen & kept & Hrun & ->)]).
  - destruct Hx as [->|Hx]; [|now apply (IH _ _ Hrun)].
    rewrite (Hfresh _ Hid) in Hseen. discriminate.
  - destruct Hx as [->|Hx].
    + exists x. split; [now left|].
      unfold same_id. rewrite Hid. now apply py_eq_refl.
    + pose proof (dedup_from_has_id _ _ _ Hrun) as Hids.
      rewrite List.Forall_forall in Hids. specialize (Hids _ Hx).
      unfold has_id in Hids.
      destruct (entry_id x) as [idx|] eqn:Hidx; [|discriminate].
      destruct (py_eq idx id) eqn:Heq.
      * exists y. split; [now left|].
        unfold same_id. now rewrite Hidx, Hid.
      * destruct (IH _ _ Hrun Hx) as (r & Hr & Hsame).
        { intros id' [= <-]. rewrite List.existsb_app. cbn.
          now rewrite (Hfresh _ eq_refl), Heq. }
        exists r. split; [now right|exact Hsame].
Qed.

(** A pool whose entries have pairwise different [recipe_id]s, none of
    them seen, is left as it is. *)
Lemma dedup_from_fixed (seen : list json) (l : list json) :
  Forall (fun x => has_id x = true) l ->
  distinct_ids l ->
  (forall x id, In x l -> entry_id x = Some id ->
                existsb (py_eq id) seen = false) ->
  dedup_from seen l = Ok l.
Proof.
  unfold distinct_ids.
  revert seen. induction l as [|x l IH]; intros seen Hids Hd Hfresh;
    [reflexivity|].
  apply List.Forall_cons_iff in Hids as [Hx Hids].
  apply StronglySorted_inv in Hd as [Hd Hall].
  unfold has_id in Hx.
  destruct (entry_id x) as [id|] eqn:Hid; [|discriminate].
  cbn [dedup_from]. rewrite (proj2 (getitem_entry_id x id) Hid).
  cbn [and_then]. rewrite Hx, (Hfresh x id (or_introl eq_refl) Hid).
  rewrite IH; [reflexivity|exact Hids|exact Hd|].
  intros y idy Hy Hidy. rewrite List.existsb_app. cbn.
  rewrite (Hfresh y idy (or_intror Hy) Hidy).
  rewrite List.Forall_forall in Hall. specialize (Hall _ Hy).
  unfold same_id in Hall. rewrite Hidy, Hid in Hall. now rewrite Hall.
Qed.

(** *** [list.sort]: the result holds the items it was given *)

Section ListSortPermutation.
Context {A : Type} (lt : A -> A -> outcome bool).

Lemma run_ascending_app (prev : A) (l run rem : list A) :
  run_ascending lt prev l = Ok (run, rem) -> l = (run ++ rem)%list.
Proof.
  revert prev run rem. induction l as [|x l IH]; intros prev run rem;
    cbn [run_ascending].
  - now intros [= <- <-].
  - destruct (lt x prev) as [[|]|e]; cbn [and_then]; try discriminate.
    + now intros [= <- <-].
    + destruct (run_ascending lt x l) as [[run' rem']|e] eqn:Hrest;
        cbn [and_then fst snd]; [|discriminate].
      intros [= <- <-]. cbn. f_equal. now apply (IH x).
Qed.

Lemma run_descending_app (prev : A) (l run rem : list A) :
  run_descending lt prev l = Ok (run, rem) -> l = (run ++ rem)%list.
Proof.
  revert prev run rem. induction l as [|x l IH]; intros prev run rem;
    cbn [run_descending].
  - now intros [= <- <-].
  - destruct (lt x prev) as [[|]|e]; cbn [and_then]; try discriminate.
    + destruct (run_descending lt x l) as [[run' rem']|e] eqn:Hrest;
        cbn [and_then fst snd]; [|discriminate].
      intros [= <- <-]. cbn. f_equal. now apply (IH x).
    + now intros [= <- <-].
Qed.

Lemma count_run_perm (l run rem : list A) :
  count_run lt l = Ok (run, rem) -> Permutation (run ++ rem) l.
Proof.
  destruct l as [|x [|y l]]; cbn [count_run].
  - now intros [= <- <-].
  - now intros [= <- <-].
  - destruct (lt y x) as [[|]|e]; cbn [and_then]; try discriminate.
    + destruct (run_descending lt y l) as [[run' rem']|e] eqn:Hrest;
        cbn [and_then fst snd]; [|discriminate].
      intros [= <- <-]. apply run_descending_app in Hrest as ->.
      exact (Permutation_app_tail rem'
               (Permutation_sym (Permutation_rev (x :: y :: run')))).
    + destruct (run_ascending lt y l) as [[run' rem']|e] eqn:Hrest;
        cbn [and_then fst snd]; [|discriminate].
      intros [= <- <-]. apply run_ascending_app in Hrest as ->.
      reflexivity.
Qed.

Lemma binary_insert_perm (sorted : list A) (pivot : A) (out : list A) :
  binary_insert lt sorted pivot = Ok out -> Permutation out (pivot :: sorted).
Proof.
  unfold binary_insert.
  destruct (bisect lt _ sorted pivot 0 _) as [place|e]; cbn [and_then];
    [|discriminate].
  intros [= <-]. rewrite <- Permutation_middle.
  now rewrite List.firstn_skipn.
Qed.

Lemma fold_insert_perm (rem run out : list A) :
  fold_outcome (binary_insert lt) rem run = Ok out ->
  Permutation out (run ++ rem).
Proof.
  revert run out. induction rem as [|x rem IH]; intros run out;
    cbn [fold_outcome].
  - intros [= <-]. now rewrite List.app_nil_r.
  - destruct (binary_insert lt run x) as [run'|e] eqn:Hins;
      cbn [and_then]; [|discriminate].
    intros Hrest%IH. rewrite Hrest.
    apply binary_insert_perm in Hins. rewrite Hins.
    now rewrite <- Permutation_middle.
Qed.

Lemma list_sort_perm (l out : list A) :
  list_sort lt l = Ok out -> Permutation out l.
Proof.
  unfold list_sort. destruct (List.length l <? 2)%nat.
  - now intros [= <-].
  - destruct (count_run lt l) as [[run rem]|e] eqn:Hrun; cbn [and_then fst snd];
      [|discriminate].
    intros Hout%fold_insert_perm. rewrite Hout.
    now apply count_run_perm.
Qed.

End ListSortPermutation.

(** *** [list.sort]: it returns when no comparison raises *)

Section ListSortReturns.
Context {A : Type} (lt : A -> A -> outcome bool) (P : A -> Prop).
Hypothesis lt_returns : forall a b, P a -> P b -> exists c, lt a b = Ok c.








End ListSortReturns.

(** *** [list.sort]: on keys that [<] orders, the result is in order and
    ties keep their places *)

Section ListSortOrder.
Context {A : Type} (lt : A -> A -> outcome bool).
Context (P : A -> Prop) (ltb : A -> A -> bool).
Hypothesis lt_ltb : forall a b, P a -> P b -> lt a b = Ok (ltb a b).
Hypothesis ltb_irrefl : forall a, ltb a a = false.
Hypothesis ltb_trans :
  forall a b c, ltb a b = true -> ltb b c = true -> ltb a c = true.
Hypothesis ltb_between :
  forall a b c, ltb a c = true -> ltb a b = true \/ ltb b c = true.

Lemma ltb_asym (a b : A) : ltb a b = true -> ltb b a = false.
Proof.
  intros Hab. destruct (ltb b a) eqn:Hba; [|reflexivity].
  now rewrite <- (ltb_irrefl a), (ltb_trans a b a Hab Hba).
Qed.

Lemma not_below_trans (a b c : A) :
  ltb b a = false -> ltb c b = false -> ltb c a = false.
Proof.
  intros Hba Hcb. destruct (ltb c a) eqn:Hca; [|reflexivity].
  destruct (ltb_between c b a Hca); congruence.
Qed.

Lemma ascending_cons (a : A) (l : list A) :
  ascending ltb l -> Forall (fun b => ltb b a = false) l ->
  ascending ltb (a :: l).
Proof. intros Hl Ha. now constructor. Qed.

Lemma ascending_head (a b : A) (l : list A) :
  ltb b a = false -> ascending ltb (b :: l) -> ascending ltb (a :: b :: l).
Proof.
  intros Hab Hl. constructor; [exact Hl|].
  apply StronglySorted_inv in Hl as [_ Hall].
  constructor; [exact Hab|].
  rewrite List.Forall_forall in *. intros c Hc.
  apply (not_below_trans _ b); [exact Hab|now apply Hall].
Qed.

Lemma ascending_snoc (l : list A) (a : A) :
  ascending ltb l -> Forall (fun b => ltb a b = false) l ->
  ascending ltb (l ++ [a]).
Proof.
  unfold ascending. induction l as [|b l IH]; intros Hl Ha; cbn.
  - repeat constructor.
  - apply StronglySorted_inv in Hl as [Hl Hall].
    apply List.Forall_cons_iff in Ha as [Hb Ha].
    constructor; [now apply IH|].
    apply List.Forall_app. split; [exact Hall|]. now constructor.
Qed.

Lemma ascending_nth (l : list A) (i j : nat) (a b : A) :
  ascending ltb l -> (i <= j)%nat ->
  nth_error l i = Some a -> nth_error l j = Some b -> ltb b a = false.
Proof.
  unfold ascending. revert i j.
  induction l as [|x l IH]; intros i j Hl Hij Ha Hb.
  - now destruct i.
  - apply StronglySorted_inv in Hl as [Hl Hall].
    destruct i as [|i], j as [|j]; cbn in Ha, Hb; try lia.
    + injection Ha as <-. injection Hb as <-. apply ltb_irrefl.
    + injection Ha as <-. rewrite List.Forall_forall in Hall.
      apply Hall. now apply nth_error_In in Hb.
    + apply (IH i j); [exact Hl|lia|exact Ha|exact Hb].
Qed.

Lemma ascending_insert (before after : list A) (pivot : A) :
  ascending ltb (before ++ after) ->
  Forall (fun x => ltb pivot x = false) before ->
  Forall (fun x => ltb x pivot = false) after ->
  ascending ltb (before ++ pivot :: after).
Proof.
  unfold ascending. induction before as [|b before IH]; intros Hl Hb Ha; cbn in *.
  - now constructor.
  - apply StronglySorted_inv in Hl as [Hl Hall].
    apply List.Forall_cons_iff in Hb as [Hpb Hb].
    constructor; [now apply IH|].
    apply List.Forall_app in Hall as [Hall1 Hall2].
    apply List.Forall_app. split; [exact Hall1|]. now constructor.
Qed.

(** The first run, when it goes up. *)
Lemma run_ascending_spec (prev : A) (l : list A) :
  P prev -> Forall P l ->
  exists run rem,
    run_ascending lt prev l = Ok (run, rem)
    /\ l = (run ++ rem)%list
    /\ ascending ltb (prev :: run).
Proof.
  revert prev. induction l as [|x l IH]; intros prev Hp Hl.
  - exists [], []. repeat split. repeat constructor.
  - apply List.Forall_cons_iff in Hl as [Hx Hl].
    cbn [run_ascending]. rewrite (lt_ltb x prev Hx Hp). cbn [and_then].
    destruct (ltb x prev) eqn:Hlt.
    + exists [], (x :: l). repeat split. repeat constructor.
    + destruct (IH x Hx Hl) as (run & rem & -> & -> & Hasc).
      exists (x :: run), rem. cbn [and_then fst snd].
      repeat split. now apply ascending_head.
Qed.

(** The first run, when it goes strictly down. *)
Lemma run_descending_spec (prev : A) (l : list A) :
  P prev -> Forall P l ->
  exists run rem,
    run_descending lt prev l = Ok (run, rem)
    /\ l = (run ++ rem)%list
    /\ StronglySorted (fun a b => ltb b a = true) (prev :: run).
Proof.
  revert prev. induction l as [|x l IH]; intros prev Hp Hl.
  - exists [], []. repeat split. repeat constructor.
  - apply List.Forall_cons_iff in Hl as [Hx Hl].
    cbn [run_descending]. rewrite (lt_ltb x prev Hx Hp). cbn [and_then].
    destruct (ltb x prev) eqn:Hlt.
    + destruct (IH x Hx Hl) as (run & rem & -> & -> & Hdesc).
      exists (x :: run), rem. cbn [and_then fst snd].
      repeat split. constructor; [exact Hdesc|].
      apply StronglySorted_inv in Hdesc as [_ Hall].
      constructor; [exact Hlt|].
      rewrite List.Forall_forall in *. intros c Hc.
      apply (ltb_trans c x prev); [now apply Hall|exact Hlt].
    + exists [], (x :: l). repeat split. repeat constructor.
Qed.

Lemma descending_rev (l : list A) :
  StronglySorted (fun a b => ltb b a = true) l -> ascending ltb (rev l).
Proof.
  induction l as [|a l IH]; intros Hl; cbn [rev]; [constructor|].
  apply StronglySorted_inv in Hl as [Hl Hall].
  apply ascending_snoc; [now apply IH|].
  rewrite List.Forall_forall in *. intros b Hb%List.in_rev.
  now apply ltb_asym, Hall.
Qed.

(** A strictly descending run holds at most one item of a class of ties,
    so that reversing it moves none past another. *)
Lemma descending_ties (c : A -> bool) (l : list A) :
  ties ltb c ->
  StronglySorted (fun a b => ltb b a = true) l ->
  List.filter c (rev l) = List.filter c l.
Proof.
  intros Hc. induction l as [|a l IH]; intros Hl; [reflexivity|].
  apply StronglySorted_inv in Hl as [Hl Hall].
  cbn [rev List.filter]. rewrite List.filter_app, (IH Hl). cbn [List.filter].
  destruct (c a) eqn:Ha; [|now rewrite List.app_nil_r].
  assert (Hnone : List.filter c l = []).
  { rewrite List.Forall_forall in Hall.
    destruct (List.filter c l) as [|b t] eqn:Hf; [reflexivity|].
    assert (Hb : In b (List.filter c l)) by (rewrite Hf; now left).
    apply List.filter_In in Hb as [Hb Hcb].
    specialize (Hall _ Hb). now rewrite (Hc b a Hcb Ha) in Hall. }
  now rewrite Hnone.
Qed.

Lemma count_run_spec (l : list A) :
  Forall P l ->
  exists run rem,
    count_run lt l = Ok (run, rem)
    /\ ascending ltb run
    /\ forall c, ties ltb c ->
         List.filter c (run ++ rem) = List.filter c l.
Proof.
  intros Hl. destruct l as [|x [|y l]].
  - exists [], []. repeat split. constructor.
  - exists [x], []. repeat split. repeat constructor.
  - apply List.Forall_cons_iff in Hl as [Hx Hl].
    apply List.Forall_cons_iff in Hl as [Hy Hl].
    cbn [count_run]. rewrite (lt_ltb y x Hy Hx). cbn [and_then].
    destruct (ltb y x) eqn:Hlt.
    + destruct (run_descending_spec y l Hy Hl) as (run & rem & -> & -> & Hd).
      cbn [and_then fst snd].
      assert (Hdesc : StronglySorted (fun a b => ltb b a = true)
                        (x :: y :: run)).
      { constructor; [exact Hd|].
        apply StronglySorted_inv in Hd as [_ Hall].
        constructor; [exact Hlt|].
        rewrite List.Forall_forall in *. intros c Hc.
        apply (ltb_trans c y x); [now apply Hall|exact Hlt]. }
      exists (rev (x :: y :: run)), rem. split; [reflexivity|].
      split; [now apply descending_rev|].
      intros c Hc. rewrite List.filter_app, (descending_ties c _ Hc Hdesc).
      now rewrite <- List.filter_app.
    + destruct (run_ascending_spec y l Hy Hl) as (run & rem & -> & -> & Ha).
      cbn [and_then fst snd].
      exists (x :: y :: run), rem. split; [reflexivity|].
      split; [now apply ascending_head|]. reflexivity.
Qed.

Lemma Forall_firstn_nth (Q : A -> Prop) (p : nat) (l : list A) :
  (forall i x, (i < p)%nat -> nth_error l i = Some x -> Q x) ->
  Forall Q (firstn p l).
Proof.
  revert p. induction l as [|a l IH]; intros p Hq.
  - rewrite List.firstn_nil. constructor.
  - destruct p as [|p]; [constructor|].
    cbn [firstn]. constructor.
    + apply (Hq 0%nat); [lia|reflexivity].
    + apply IH. intros i x Hi Hx. apply (Hq (Datatypes.S i)); [lia|exact Hx].
Qed.

Lemma Forall_skipn_nth (Q : A -> Prop) (p : nat) (l : list A) :
  (forall i x, (p <= i)%nat -> nth_error l i = Some x -> Q x) ->
  Forall Q (skipn p l).
Proof.
  revert p. induction l as [|a l IH]; intros p Hq.
  - rewrite List.skipn_nil. constructor.
  - destruct p as [|p].
    + cbn [skipn]. apply List.Forall_forall. intros x Hx.
      apply List.In_nth_error in Hx as [i Hi]. apply (Hq i); [lia|exact Hi].
    + cbn [skipn]. apply IH. intros i x Hi Hx.
      apply (Hq (Datatypes.S i)); [lia|exact Hx].
Qed.

(** The binary search ends on the place after the last item that is not
    above the pivot. *)
Lemma bisect_spec (sorted : list A) (pivot : A) :
  Forall P sorted -> P pivot -> ascending ltb sorted ->
  forall steps l r,
    (l < r <= List.length sorted)%nat -> (r - l <= steps)%nat ->
    (forall i x, (i < l)%nat -> nth_error sorted i = Some x ->
                 ltb pivot x = false) ->
    (forall i x, (r <= i)%nat -> nth_error sorted i = Some x ->
                 ltb pivot x = true) ->
    exists place,
      bisect lt steps sorted pivot l r = Ok place
      /\ (forall i x, (i < place)%nat -> nth_error sorted i = Some x ->
                      ltb pivot x = false)
      /\ (forall i x, (place <= i)%nat -> nth_error sorted i = Some x ->
                      ltb pivot x = true).
Proof.
  intros Hs Hp Hasc steps.
  induction steps as [|steps IH]; intros l r Hlr Hsteps Hlow Hhigh; [lia|].
  cbn [bisect].
  set (p := (l + (r - l) / 2)%nat).
  assert (Hp_range : (l <= p < r)%nat).
  { unfold p. pose proof (Nat.div_mod_eq (r - l) 2) as Hdiv.
    pose proof (Nat.mod_upper_bound (r - l) 2 ltac:(lia)). lia. }
  destruct (nth_error sorted p) as [x|] eqn:Hx.
  2:{ apply nth_error_None in Hx. lia. }
  assert (Px : P x).
  { rewrite List.Forall_forall in Hs. apply Hs. now apply nth_error_In in Hx. }
  rewrite (lt_ltb pivot x Hp Px). cbn [and_then].
  destruct (ltb pivot x) eqn:Hlt.
  - assert (Hhigh' : forall i y, (p <= i)%nat -> nth_error sorted i = Some y ->
                                 ltb pivot y = true).
    { intros i y Hi Hy.
      destruct (ltb_between pivot y x Hlt) as [Hgo|Hyx]; [exact Hgo|].
      now rewrite (ascending_nth sorted p i x y Hasc Hi Hx Hy) in Hyx. }
    destruct (Nat.ltb_spec l p) as [Hl|Hl].
    + apply IH; [lia|lia|exact Hlow|exact Hhigh'].
    + exists l. split; [reflexivity|]. split; [exact Hlow|].
      intros i y Hi. apply Hhigh'. lia.
  - assert (Hlow' : forall i y, (i < Datatypes.S p)%nat ->
                                nth_error sorted i = Some y ->
                                ltb pivot y = false).
    { intros i y Hi Hy. destruct (ltb pivot y) eqn:Hpy; [|reflexivity].
      destruct (ltb_between pivot x y Hpy) as [Hgo|Hxy]; [congruence|].
      rewrite (ascending_nth sorted i p y x Hasc ltac:(lia) Hy Hx) in Hxy.
      discriminate. }
    destruct (Nat.ltb_spec (Datatypes.S p) r) as [Hr|Hr].
    + apply IH; [lia|lia|exact Hlow'|exact Hhigh].
    + exists (Datatypes.S p). split; [reflexivity|]. split; [exact Hlow'|].
      intros i y Hi. apply Hhigh. lia.
Qed.

Lemma binary_insert_spec (sorted : list A) (pivot : A) :
  Forall P sorted -> P pivot -> ascending ltb sorted ->
  exists out,
    binary_insert lt sorted pivot = Ok out
    /\ ascending ltb out
    /\ forall c, ties ltb c ->
         List.filter c out = List.filter c (sorted ++ [pivot]).
Proof.
  intros Hs Hp Hasc. unfold binary_insert.
  assert (Hplace : exists place,
             bisect lt (List.length sorted) sorted pivot 0 (List.length sorted)
             = Ok place
             /\ (forall i x, (i < place)%nat -> nth_error sorted i = Some x ->
                             ltb pivot x = false)
             /\ (forall i x, (place <= i)%nat -> nth_error sorted i = Some x ->
                             ltb pivot x = true)).
  { destruct sorted as [|a sorted'] eqn:Hsorted.
    - exists 0%nat. split; [reflexivity|].
      split; intros i x _ Hx; now destruct i.
    - rewrite <- Hsorted in *.
      apply bisect_spec; try assumption.
      + rewrite Hsorted. cbn. lia.
      + lia.
      + intros i x Hi. lia.
      + intros i x Hi Hx.
        assert (i < List.length sorted)%nat
          by (apply nth_error_Some; congruence).
        lia. }
  destruct Hplace as (place & -> & Hlow & Hhigh). cbn [and_then].
  eexists. split; [reflexivity|].
  pose proof (Forall_firstn_nth _ place sorted Hlow) as Hbefore.
  pose proof (Forall_skipn_nth _ place sorted Hhigh) as Hafter.
  split.
  - apply ascending_insert.
    + now rewrite List.firstn_skipn.
    + exact Hbefore.
    + eapply List.Forall_impl; [|exact Hafter].
      intros x Hx. now apply ltb_asym.
  - intros c Hc.
    rewrite <- (List.firstn_skipn place sorted) at 3.
    rewrite !List.filter_app. cbn [List.filter].
    destruct (c pivot) eqn:Hcp; [|now rewrite !List.app_nil_r].
    assert (Hnone : List.filter c (skipn place sorted) = []).
    { rewrite List.Forall_forall in Hafter.
      destruct (List.filter c (skipn place sorted)) as [|b t] eqn:Hf;
        [reflexivity|].
      assert (Hb : In b (List.filter c (skipn place sorted)))
        by (rewrite Hf; now left).
      apply List.filter_In in Hb as [Hb Hcb].
      specialize (Hafter _ Hb). now rewrite (Hc pivot b Hcp Hcb) in Hafter. }
    now rewrite Hnone, List.app_nil_r.
Qed.

Lemma fold_insert_spec (rem run : list A) :
  Forall P run -> Forall P rem -> ascending ltb run ->
  exists out,
    fold_outcome (binary_insert lt) rem run = Ok out
    /\ ascending ltb out
    /\ forall c, ties ltb c ->
         List.filter c out = List.filter c (run ++ rem).
Proof.
  revert run. induction rem as [|x rem IH]; intros run Hrun Hrem Hasc.
  - exists run. split; [reflexivity|]. split; [exact Hasc|].
    intros c _. now rewrite List.app_nil_r.
  - apply List.Forall_cons_iff in Hrem as [Hx Hrem].
    destruct (binary_insert_spec run x Hrun Hx Hasc) as (run' & Hins & Hasc' & Hf).
    cbn [fold_outcome]. rewrite Hins. cbn [and_then].
    assert (Hrun' : Forall P run').
    { apply binary_insert_perm in Hins.
      eapply Permutation_Forall; [symmetry; exact Hins|]. now constructor. }
    destruct (IH run' Hrun' Hrem Hasc') as (out & Hout & Hascout & Hfout).
    exists out. split; [exact Hout|]. split; [exact Hascout|].
    intros c Hc. rewrite (Hfout c Hc), !List.filter_app, (Hf c Hc).
    rewrite List.filter_app. cbn [List.filter].
    destruct (c x); now rewrite <- ?List.app_assoc.
Qed.

(** On items that [<] orders, [list_sort] returns the stable sort. *)
Lemma list_sort_spec (l : list A) :
  Forall P l ->
  exists out,
    list_sort lt l = Ok out
    /\ Permutation out l
    /\ ascending ltb out
    /\ forall c, ties ltb c -> List.filter c out = List.filter c l.
Proof.
  intros Hl. unfold list_sort.
  destruct (Nat.ltb_spec (List.length l) 2) as [Hshort|Hlong].
  - exists l. split; [reflexivity|]. split; [reflexivity|].
    split; [|reflexivity].
    destruct l as [|a [|b l]]; [constructor|repeat constructor|cbn in Hshort; lia].
  - destruct (count_run_spec l Hl) as (run & rem & Hrun & Hasc & Hf).
    rewrite Hrun. cbn [and_then fst snd].
    pose proof (count_run_perm lt l run rem Hrun) as Hperm.
    assert (Hall : Forall P (run ++ rem)).
    { eapply Permutation_Forall; [symmetry; exact Hperm|exact Hl]. }
    apply List.Forall_app in Hall as [Hprun Hprem].
    destruct (fold_insert_spec rem run Hprun Hprem Hasc) as (out & Hout & Ho & Hfo).
    exists out. split; [exact Hout|].
    split; [|split; [exact Ho|]].
    + apply fold_insert_perm in Hout. now rewrite Hout.
    + intros c Hc. now rewrite (Hfo c Hc), (Hf c Hc).
Qed.

End ListSortOrder.

(** *** The order of the numbers *)

Lemma Qltb_spec (x y : Q) : Qltb x y = true <-> (x < y)%Q.
Proof.
  unfold Qltb. rewrite Qlt_alt.
  destruct (x ?= y)%Q; split; congruence.
Qed.

Lemma Qltb_false (x y : Q) : Qltb x y = false <-> (y <= x)%Q.
Proof.
  rewrite <- Bool.not_true_iff_false, Qltb_spec.
  split; [apply Qnot_lt_le|apply Qle_not_lt].
Qed.

Lemma float_lt_irrefl (x : pyfloat) : float_lt x x = false.
Proof.
  destruct x; cbn; try reflexivity. apply Qltb_false, Qle_refl.
Qed.

Lemma float_lt_trans (x y z : pyfloat) :
  float_lt x y = true -> float_lt y z = true -> float_lt x z = true.
Proof.
  destruct x, y, z; cbn; try discriminate; try reflexivity.
  rewrite !Qltb_spec. apply Qlt_trans.
Qed.

Lemma float_lt_between (x y z : pyfloat) :
  y <> NaN -> float_lt x z = true ->
  float_lt x y = true \/ float_lt y z = true.
Proof.
  destruct x, y, z; cbn; try discriminate; try tauto; intros _.
  rewrite !Qltb_spec. intros Hxz.
  destruct (Qlt_le_dec x x0) as [Hlt|Hle]; [now left|right].
  eapply Qle_lt_trans; [exact Hle|exact Hxz].
Qed.

(** Two numbers other than NaN neither of which is below the other are
    equal. *)
Lemma float_lt_total (x y : pyfloat) :
  x <> NaN -> y <> NaN ->
  float_lt x y = false -> float_lt y x = false -> float_same x y = true.
Proof.
  destruct x, y; cbn; try discriminate; try reflexivity; try tauto;
    intros _ _.
  rewrite !Qltb_false, Qeq_bool_iff. intros H1 H2. now apply Qle_antisym.
Qed.

Lemma float_same_not_lt (x y q : pyfloat) :
  float_same x q = true -> float_same y q = true -> float_lt x y = false.
Proof.
  destruct x, y, q; cbn; try discriminate; try reflexivity.
  rewrite !Qeq_bool_iff, Qltb_false. intros -> ->. apply Qle_refl.
Qed.

Lemma key_rank_not_nan (key : json) : key_rank key <> NaN.
Proof.
  unfold key_rank. destruct (number key) as [[]|]; discriminate.
Qed.

Lemma key_rank_ordered (key : json) :
  ordered_key key = true -> number key = Some (key_rank key).
Proof.
  unfold ordered_key, key_rank.
  destruct (number key) as [[]|]; try discriminate; reflexivity.
Qed.

Lemma py_lt_ordered (x y : json) :
  ordered_key x = true -> ordered_key y = true ->
  py_lt x y = Ok (float_lt (key_rank x) (key_rank y)).
Proof.
  unfold ordered_key, key_rank.
  destruct x as [| | |[]| | |], y as [| | |[]| | |];
    cbn [py_lt number]; try discriminate; reflexivity.
Qed.

Lemma key_ltb_irrefl (a : json * json) : key_ltb a a = false.
Proof. apply float_lt_irrefl. Qed.

Lemma key_ltb_trans (a b c : json * json) :
  key_ltb a b = true -> key_ltb b c = true -> key_ltb a c = true.
Proof. apply float_lt_trans. Qed.

Lemma key_ltb_between (a b c : json * json) :
  key_ltb a c = true -> key_ltb a b = true \/ key_ltb b c = true.
Proof. apply float_lt_between, key_rank_not_nan. Qed.

Lemma key_class_ties (q : pyfloat) : ties key_ltb (key_class q).
Proof.
  intros [ka a] [kb b]. unfold key_class, key_ltb, key_rank. cbn [fst].
  destruct (number ka) as [x|]; [|discriminate].
  destruct (number kb) as [y|]; [|discriminate].
  intros Hx Hy.
  destruct x, y, q; cbn in Hx, Hy; try discriminate;
    try apply float_lt_irrefl.
  now apply (float_same_not_lt (Finite x) (Finite x0) (Finite x1)).
Qed.

(** *** The ranking *)

Lemma keys_keyed (u : list json) (pairs : list (json * json)) :
  map_outcome
    (fun x => key <~ getitem x "similarity_score" ;; Ok (key, x)) u
  = Ok pairs ->
  pairs = List.map keyed u.
Proof.
  revert pairs. induction u as [|x u IH]; intros pairs; cbn [map_outcome].
  - now intros [= <-].
  - destruct (getitem x "similarity_score") as [key|e] eqn:Hkey;
      cbn [and_then]; [|discriminate].
    destruct (map_outcome _ u) as [rest|e]; cbn [and_then]; [|discriminate].
    intros [= <-]. cbn [List.map]. rewrite (IH rest eq_refl).
    apply getitem_entry_score in Hkey. unfold keyed. now rewrite Hkey.
Qed.

Lemma keys_total (u : list json) :
  Forall (fun x => ordered_score x = true) u ->
  map_outcome
    (fun x => key <~ getitem x "similarity_score" ;; Ok (key, x)) u
  = Ok (List.map keyed u).
Proof.
  induction u as [|x u IH]; intros Hu; [reflexivity|].
  apply List.Forall_cons_iff in Hu as [Hx Hu].
  cbn [map_outcome List.map]. rewrite (IH Hu).
  unfold ordered_score, score_value in Hx.
  destruct (entry_score x) as [key|] eqn:Hkey; [|discriminate].
  rewrite (proj2 (getitem_entry_score x key) Hkey). cbn [and_then].
  unfold keyed. now rewrite Hkey.
Qed.

Lemma map_snd_keyed (u : list json) : List.map snd (List.map keyed u) = u.
Proof.
  rewrite List.map_map. cbn. apply List.map_id.
Qed.

(** The sort returns the entries it was given, in some order. *)
Lemma sort_desc_perm (u ranked : list json) :
  sort_desc u = Ok ranked -> Permutation ranked u.
Proof.
  unfold sort_desc.
  destruct (map_outcome _ u) as [pairs|e] eqn:Hkeys; cbn [and_then];
    [|discriminate].
  apply keys_keyed in Hkeys as ->.
  destruct (list_sort _ (rev (List.map keyed u))) as [sorted|e] eqn:Hsort;
    cbn [and_then]; [|discriminate].
  intros [= <-]. apply list_sort_perm in Hsort.
  assert (Hp : Permutation (List.map snd (rev sorted))
                 (List.map snd (List.map keyed u))).
  { apply Permutation_map.
    rewrite <- Permutation_rev, Hsort. symmetry. apply Permutation_rev. }
  now rewrite map_snd_keyed in Hp.
Qed.

Lemma StronglySorted_rev {A} (R : A -> A -> Prop) (l : list A) :
  StronglySorted R l -> StronglySorted (fun a b => R b a) (rev l).
Proof.
  induction l as [|a l IH]; intros Hl; cbn [rev]; [constructor|].
  apply StronglySorted_inv in Hl as [Hl Hall].
  specialize (IH Hl). revert IH.
  assert (Hall' : Forall (fun b => R a b) (rev l)).
  { rewrite List.Forall_forall in *. intros b Hb%List.in_rev. now apply Hall. }
  revert Hall'. generalize (rev l). intros m Hm.
  induction m as [|b m IHm]; intros Hs; cbn.
  - repeat constructor.
  - apply StronglySorted_inv in Hs as [Hs Hb].
    apply List.Forall_cons_iff in Hm as [Hab Hm].
    constructor; [now apply IHm|].
    apply List.Forall_app. split; [exact Hb|]. now constructor.
Qed.

Lemma StronglySorted_map_in {A B} (R : A -> A -> Prop) (R' : B -> B -> Prop)
  (f : A -> B) (l : list A) :
  (forall a b, In a l -> In b l -> R a b -> R' (f a) (f b)) ->
  StronglySorted R l -> StronglySorted R' (List.map f l).
Proof.
  induction l as [|a l IH]; intros Hf Hl; cbn [List.map]; [constructor|].
  apply StronglySorted_inv in Hl as [Hl Hall].
  constructor.
  - apply IH; [|exact Hl]. intros x y Hx Hy. apply Hf; now right.
  - rewrite List.Forall_forall in *. intros b (x & <- & Hx)%List.in_map_iff.
    apply Hf; [now left|now right|now apply Hall].
Qed.

Lemma keyed_ordered (x : json) :
  ordered_score x = true -> ordered_key (fst (keyed x)) = true.
Proof.
  unfold ordered_score, score_value, keyed, ordered_key. cbn [fst].
  now destruct (entry_score x).
Qed.

Lemma keyed_class (q : pyfloat) (x : json) :
  ordered_score x = true -> key_class q (keyed x) = same_score q x.
Proof.
  unfold ordered_score, same_score, score_value, keyed, key_class.
  destruct (entry_score x); cbn; [reflexivity|discriminate].
Qed.

Lemma keyed_at_least (a b : json) :
  ordered_score a = true -> ordered_score b = true ->
  key_ltb (keyed a) (keyed b) = false -> score_at_least a b = true.
Proof.
  intros Ha Hb. unfold score_at_least. rewrite Ha, Hb. cbn [andb].
  unfold key_ltb, score_below, score_value, keyed, key_rank.
  unfold ordered_score, score_value in Ha, Hb.
  destruct (entry_score a) as [ka|]; [|discriminate].
  destruct (entry_score b) as [kb|]; [|discriminate].
  cbn.
  destruct (number ka) as [[]|]; try discriminate;
    destruct (number kb) as [[]|]; try discriminate;
    now intros ->.
Qed.

(** On entries whose scores are numbers other than NaN the sort returns,
    and returns the entries by non-increasing score, those of equal score
    in the order they had. *)
Lemma sort_desc_spec (u : list json) :
  Forall (fun x => ordered_score x = true) u ->
  exists ranked,
    sort_desc u = Ok ranked
    /\ Permutation ranked u
    /\ non_increasing ranked
    /\ forall q, List.filter (same_score q) ranked
                 = List.filter (same_score q) u.
Proof.
  intros Hu. unfold sort_desc. rewrite (keys_total u Hu). cbn [and_then].
  set (P := fun p : json * json =>
              p = keyed (snd p) /\ ordered_score (snd p) = true).
  assert (Hp : Forall P (rev (List.map keyed u))).
  { apply List.Forall_forall. intros p Hin%List.in_rev.
    apply List.in_map_iff in Hin as (x & <- & Hx).
    rewrite List.Forall_forall in Hu. split; [reflexivity|now apply Hu]. }
  destruct (list_sort_spec (fun a b => py_lt (fst a) (fst b)) P key_ltb)
    with (l := rev (List.map keyed u))
    as (sorted & Hsort & Hperm & Hasc & Hties).
  - intros a b [Ha Hoa] [Hb Hob]. apply py_lt_ordered.
    + rewrite Ha. now apply keyed_ordered.
    + rewrite Hb. now apply keyed_ordered.
  - apply key_ltb_irrefl.
  - apply key_ltb_trans.
  - apply key_ltb_between.
  - exact Hp.
  - rewrite Hsort. cbn [and_then].
    assert (Hps : Forall P sorted).
    { eapply Permutation_Forall; [symmetry; exact Hperm|exact Hp]. }
    rewrite List.Forall_forall in Hps.
    eexists. split; [reflexivity|].
    split; [|split].
    + assert (Hq : Permutation (List.map snd (rev sorted))
                     (List.map snd (List.map keyed u))).
      { apply Permutation_map.
        rewrite <- Permutation_rev, Hperm. symmetry. apply Permutation_rev. }
      now rewrite map_snd_keyed in Hq.
    + unfold non_increasing.
      apply (StronglySorted_map_in (fun a b => key_ltb a b = false)).
      * intros a b Ha%List.in_rev Hb%List.in_rev Hab.
        destruct (Hps a Ha) as [Hka Hoa], (Hps b Hb) as [Hkb Hob].
        apply keyed_at_least; [exact Hoa|exact Hob|].
        now rewrite <- Hka, <- Hkb.
      * apply (StronglySorted_rev (fun a b => key_ltb b a = false)), Hasc.
    + intros q.
      assert (Hclass : forall l : list (json * json),
                 (forall p, In p l -> P p) ->
                 List.filter (same_score q) (List.map snd l)
                 = List.map snd (List.filter (key_class q) l)).
      { induction l as [|p l IH]; intros Hl; [reflexivity|].
        cbn [List.map List.filter].
        destruct (Hl p (or_introl eq_refl)) as [Hk Ho].
        assert (Hc : key_class q p = same_score q (snd p)).
        { rewrite Hk at 1. now apply keyed_class. }
        rewrite Hc, IH by (intros p' Hp'; apply Hl; now right).
        now destruct (same_score q (snd p)). }
      rewrite Hclass by (intros p Hin%List.in_rev; now apply Hps).
      rewrite List.filter_rev, (Hties _ (key_class_ties q)).
      rewrite List.filter_rev, List.rev_involutive.
      rewrite <- Hclass.
      * now rewrite map_snd_keyed.
      * intros p (x & <- & Hx)%List.in_map_iff.
        rewrite List.Forall_forall in Hu. split; [reflexivity|now apply Hu].
Qed.

(** A stable descending sort has one possible result. *)
Lemma stable_sorted_unique (l1 l2 : list json) :
  non_increasing l1 -> non_increasing l2 -> Permutation l1 l2 ->
  (forall q, List.filter (same_score q) l1 = List.filter (same_score q) l2) ->
  l1 = l2.
Proof.
  unfold non_increasing. revert l2.
  induction l1 as [|a1 t1 IH]; intros l2 Hs1 Hs2 Hp Hf.
  - now apply Permutation_nil in Hp.
  - destruct l2 as [|a2 t2].
    { symmetry in Hp. now apply Permutation_nil in Hp. }
    apply StronglySorted_inv in Hs1 as [Hs1 Ha1].
    apply StronglySorted_inv in Hs2 as [Hs2 Ha2].
    rewrite List.Forall_forall in Ha1, Ha2.
    assert (Heq : a1 = a2).
    { assert (Hin2 : In a2 (a1 :: t1)).
      { eapply Permutation_in; [symmetry; exact Hp|now left]. }
      assert (Hin1 : In a1 (a2 :: t2)).
      { eapply Permutation_in; [exact Hp|now left]. }
      destruct Hin2 as [Heq|Hin2]; [exact Heq|].
      destruct Hin1 as [Heq|Hin1]; [now symmetry|].
      specialize (Ha1 _ Hin2). specialize (Ha2 _ Hin1).
      unfold score_at_least, score_below, ordered_score in Ha1, Ha2.
      destruct (score_value a1) as [x|] eqn:Hx; [|discriminate].
      destruct (score_value a2) as [y|] eqn:Hy; [|now destruct x].
      assert (Hsame : float_same y x = true).
      { apply float_lt_total.
        - intros ->. now destruct x.
        - intros ->. discriminate.
        - destruct x, y; try discriminate;
            now apply andb_true_iff in Ha2 as [_ ->%negb_true_iff].
        - destruct x, y; try discriminate;
            now apply andb_true_iff in Ha1 as [_ ->%negb_true_iff]. }
      specialize (Hf x). cbn [List.filter] in Hf.
      assert (E1 : same_score x a1 = true)
        by (unfold same_score; rewrite Hx; apply float_same_refl).
      assert (E2 : same_score x a2 = true)
        by (unfold same_score; now rewrite Hy).
      rewrite E1, E2 in Hf. congruence. }
    subst a2. f_equal.
    apply IH; [assumption..| |].
    + now apply Permutation_cons_inv in Hp.
    + intros q. specialize (Hf q). cbn [List.filter] in Hf.
      destruct (same_score q a1); congruence.
Qed.

Lemma non_increasing_ordered (l : list json) :
  non_increasing l -> (2 <= List.length l)%nat ->
  Forall (fun x => ordered_score x = true) l.
Proof.
  unfold non_increasing. intros Hl Hlen.
  apply List.Forall_forall. intros x Hx.
  destruct l as [|a [|b l]]; cbn in Hlen; try lia.
  apply StronglySorted_inv in Hl as [Hl Hall].
  rewrite List.Forall_forall in Hall.
  destruct Hx as [<-|Hx].
  - specialize (Hall b (or_introl eq_refl)).
    unfold score_at_least in Hall.
    now apply andb_true_iff in Hall as [[Ha _]%andb_true_iff _].
  - specialize (Hall x Hx). unfold score_at_least in Hall.
    now apply andb_true_iff in Hall as [[_ Hb]%andb_true_iff _].
Qed.

Lemma slice_to_prefix {A} (n : Z) (l : list A) :
  exists k, slice_to n l = firstn k l.
Proof. unfold slice_to. destruct (0 <=? n)%Z; eauto. Qed.


Lemma firstn_in {A} (k : nat) (l : list A) (x : A) :
  In x (firstn k l) -> In x l.
Proof.
  intros Hx. rewrite <- (List.firstn_skipn k l).
  apply List.in_or_app. now left.
Qed.

Lemma firstn_StronglySorted {A} (R : A -> A -> Prop) (k : nat) (l : list A) :
  StronglySorted R l -> StronglySorted R (firstn k l).
Proof.
  revert k. induction l as [|x l IH]; intros [|k] Hs; cbn; try constructor.
  - apply IH. now apply StronglySorted_inv in Hs.
  - apply StronglySorted_inv in Hs as [_ Hall].
    rewrite List.Forall_forall in *. intros b Hb.
    apply Hall. now apply firstn_in in Hb.
Qed.

Lemma same_id_sym (a b : json) :
  has_id a = true -> same_id a b = same_id b a.
Proof.
  unfold has_id, same_id. destruct (entry_id a) as [ia|]; [|discriminate].
  intros Ha. destruct (entry_id b) as [ib|]; [|reflexivity].
  symmetry. now apply py_eq_sym.
Qed.

(** Entries with pairwise different ids stay so in any order. *)
Lemma distinct_ids_perm (l l' : list json) :
  Forall (fun x => has_id x = true) l ->
  Permutation l l' -> distinct_ids l -> distinct_ids l'.
Proof.
  unfold distinct_ids. intros Hids Hp. revert Hids.
  induction Hp as [|x l l' Hp IH|x y l|l l' l'' Hp1 IH1 Hp2 IH2];
    intros Hids Hd.
  - constructor.
  - apply StronglySorted_inv in Hd as [Hd Hall].
    apply List.Forall_cons_iff in Hids as [Hx Hids].
    constructor; [now apply IH|].
    eapply Permutation_Forall; [exact Hp|exact Hall].
  - apply StronglySorted_inv in Hd as [Hd Hy].
    apply StronglySorted_inv in Hd as [Hd Hx].
    apply List.Forall_cons_iff in Hy as [Hyx Hy].
    apply List.Forall_cons_iff in Hids as [Hidy Hids].
    constructor; [now constructor|].
    constructor; [|exact Hx].
    rewrite same_id_sym in Hyx; [exact Hyx|exact Hidy].
  - apply IH2; [|now apply IH1].
    eapply Permutation_Forall; [exact Hp1|exact Hids].
Qed.

(** *** Well-formed result lists are processed without an exception *)








(** ** Enhanced search in closed form *)

Section EnhancedRun.
Context `{PyLib}.

Lemma after_calls_http_client calls w :
  http_client (after_calls calls w) = http_client w.
Proof.
  revert w. induction calls as [|call calls IH]; intros w; [reflexivity|].
  simpl. now rewrite IH, log_if_http_client.
Qed.

Lemma after_calls_redis_client calls w :
  redis_client (after_calls calls w) = redis_client w.
Proof.
  revert w. induction calls as [|call calls IH]; intros w; [reflexivity|].
  simpl. now rewrite IH, log_if_redis_client.
Qed.

Lemma after_calls_ticks calls w : ticks (after_calls calls w) = ticks w.
Proof.
  revert w. induction calls as [|call calls IH]; intros w; [reflexivity|].
  simpl. now rewrite IH, log_if_ticks.
Qed.

Lemma after_calls_clock calls w : clock (after_calls calls w) = clock w.
Proof.
  revert w. induction calls as [|call calls IH]; intros w; [reflexivity|].
  simpl. now rewrite IH, log_if_clock.
Qed.

(** Gathering runs every call and keeps every outcome. *)
Lemma gather_calls (calls : list (string * json)) (w : World) :
  gather (List.map (fun call => proxy_laravel_request (fst call) (snd call)) calls) w
  = (Ok (List.map (fun call => upstream_result (http_client w) (fst call) (snd call))
           calls),
     after_calls calls w).
Proof.
  revert w. induction calls as [|[endpoint data] calls IH]; intros w;
    [reflexivity|].
  cbn [List.map gather fst snd].
  rewrite proxy_laravel_request_run, IH, log_if_http_client.
  reflexivity.
Qed.

Lemma enhanced_tasks_calls (request : SearchRequest.t) :
  enhanced_tasks request
  = List.map (fun call => proxy_laravel_request (fst call) (snd call))
      (sub_search_calls request).
Proof. reflexivity. Qed.

(** What [enhanced_search] does: it returns a response when the pool is
    combined, deduplicated and sorted without an exception, and otherwise
    raises [HTTPException] 500 with the text of that exception. *)
Lemma enhanced_search_run (request : SearchRequest.t) (w : World) :
  let gathered := sub_searches request w in
  enhanced_search request w
  = match ranked_pool gathered with
    | Ok ranked =>
        let final_results := slice_to (SearchRequest.limit request) ranked in
        (Ok (EnhancedResponse.mk
               (SearchRequest.query request)
               "enhanced_parallel"
               final_results
               (Z.of_nat (List.length final_results))
               (Z.of_nat (List.length (List.filter succeeded gathered)))
               3
               false
               (elapsed_ms (clock w (ticks w))
                  (clock w (Datatypes.S (ticks w))))),
         tick (after_calls (sub_search_calls request) (tick w)))
    | Raise e =>
        (Raise (HTTPException 500 ("Enhanced search failed: " +:+ exn_str e)),
         after_calls (sub_search_calls request) (tick w))
    end.
Proof.
  intros gathered.
  unfold enhanced_search, bind at 1. unfold utcnow at 1.
  unfold try_except, bind at 1.
  rewrite enhanced_tasks_calls, gather_calls.
  change (http_client (tick w)) with (http_client w).
  fold (sub_searches request w). fold gathered.
  unfold ranked_pool, unique_pool.
  unfold bind at 1, lift at 1. rewrite collect_spec.
  destruct (combined_pool gathered) as [pool|e]; cbn [and_then];
    [|reflexivity].
  unfold bind at 1, lift at 1.
  destruct (remove_duplicates pool) as [unique|e]; cbn [and_then];
    [|reflexivity].
  unfold bind at 1, lift at 1.
  destruct (sort_desc unique) as [ranked|e]; [|reflexivity].
  unfold bind, utcnow, ret.
  rewrite after_calls_ticks, after_calls_clock.
  reflexivity.
Qed.

End EnhancedRun.
(** ** Properties of enhanced search *)

Section EnhancedClaims.
Context `{PyLib}.

(** The three sub-searches, in the order in which their results enter the
    pool: general, then ingredients, then dish. *)
Lemma combined_pool_strategy_order (request : SearchRequest.t) (w : World) :
  exists general ingredients dish,
    sub_searches request w = [general; ingredients; dish]
    /\ general = upstream_result (http_client w) "/search/general"
                   (JDict [("q", JStr (SearchRequest.query request));
                           ("limit", JInt (SearchRequest.limit request / 2))])
    /\ combined_pool (sub_searches request w)
       = (a <~ strategy_results general ;;
          b <~ strategy_results ingredients ;;
          c <~ strategy_results dish ;;
          Ok (a ++ b ++ c)%list).
Proof.
  do 3 eexists. split; [reflexivity|]. split; [reflexivity|].
  unfold combined_pool. cbn [sub_searches sub_search_calls List.map map_outcome].
  repeat match goal with
         | |- context [strategy_results ?o] =>
             destruct (strategy_results o); cbn [and_then]; try reflexivity
         end.
  cbn [concat]. now rewrite List.app_nil_r.
Qed.

(** What a response tells about the pool it was made from. *)
Lemma enhanced_search_response (request : SearchRequest.t) (w : World)
  (resp : EnhancedResponse.t) :
  fst (enhanced_search request w) = Ok resp ->
  exists pool unique ranked,
    combined_pool (sub_searches request w) = Ok pool
    /\ dedup_from [] pool = Ok unique
    /\ sort_desc unique = Ok ranked
    /\ resp
       = EnhancedResponse.mk
           (SearchRequest.query request) "enhanced_parallel"
           (slice_to (SearchRequest.limit request) ranked)
           (Z.of_nat (List.length
                        (slice_to (SearchRequest.limit request) ranked)))
           (Z.of_nat (List.length
                        (List.filter succeeded (sub_searches request w))))
           3 false
           (elapsed_ms (clock w (ticks w)) (clock w (Datatypes.S (ticks w)))).
Proof.
  rewrite enhanced_search_run. cbv zeta.
  unfold ranked_pool, unique_pool.
  destruct (combined_pool (sub_searches request w)) as [pool|e];
    cbn [and_then]; [|discriminate].
  rewrite remove_duplicates_dedup_from.
  destruct (dedup_from [] pool) as [unique|e] eqn:Hunique; cbn [and_then];
    [|discriminate].
  destruct (sort_desc unique) as [ranked|e] eqn:Hranked; [|discriminate].
  intros [= <-]. exists pool, unique, ranked. repeat split; assumption.
Qed.


(** C1.  The results of an enhanced search carry pairwise distinct
    [recipe_id]s, and each of them is the first entry with its [recipe_id]
    in the combined pool (general, then ingredients, then dish): a later
    entry with the same id is dropped whatever its score.  Two ids are the
    same when Python's set finds them equal. *)
Theorem enhanced_search_unique_ids (request : SearchRequest.t) (w : World)
  (resp : EnhancedResponse.t) :
  fst (enhanced_search request w) = Ok resp ->
  exists pool,
    combined_pool (sub_searches request w) = Ok pool
    /\ Forall (fun r => has_id r = true) (EnhancedResponse.results resp)
    /\ distinct_ids (EnhancedResponse.results resp)
    /\ forall r, In r (EnhancedResponse.results resp) ->
         List.find (same_id r) pool = Some r.
Proof.
  intros (pool & unique & ranked & Hpool & Hunique & Hranked & ->)
    %enhanced_search_response.
  exists pool. split; [exact Hpool|].
  cbn [EnhancedResponse.results].
  destruct (slice_to_prefix (SearchRequest.limit request) ranked) as [k ->].
  pose proof (sort_desc_perm _ _ Hranked) as Hperm.
  pose proof (dedup_from_has_id _ _ _ Hunique) as Hids.
  assert (Hsub : forall r, In r (firstn k ranked) -> In r unique).
  { intros r Hr%firstn_in. now apply (Permutation_in _ Hperm). }
  split; [|split].
  - apply List.Forall_forall. intros r Hr%Hsub.
    rewrite List.Forall_forall in Hids. apply Hids.
    now apply (dedup_from_sub _ _ _ _ Hunique).
  - apply firstn_StronglySorted.
    apply (distinct_ids_perm unique); [|now symmetry|].
    + apply List.Forall_forall. intros r Hr.
      rewrite List.Forall_forall in Hids. apply Hids.
      now apply (dedup_from_sub _ _ _ _ Hunique).
    + now apply (dedup_from_distinct _ _ _ Hunique).
  - intros r Hr%Hsub. now apply (dedup_from_first _ _ _ _ Hunique).
Qed.

(** C2, as amended.  When the scores of the deduplicated pool are numbers
    and none of them is NaN, the enhanced search returns a response whose
    results are in non-increasing score order: they are the first [limit]
    entries of the deduplicated pool after a stable descending sort, in
    which entries of equal score keep the order they had in the pool. *)
Theorem enhanced_search_ranked (request : SearchRequest.t) (w : World)
  (unique : list json) :
  unique_pool (sub_searches request w) = Ok unique ->
  Forall (fun x => ordered_score x = true) unique ->
  exists resp w' ranked,
    enhanced_search request w = (Ok resp, w')
    /\ non_increasing (EnhancedResponse.results resp)
    /\ EnhancedResponse.results resp
       = slice_to (SearchRequest.limit request) ranked
    /\ non_increasing ranked
    /\ Permutation ranked unique
    /\ forall q, List.filter (same_score q) ranked
                 = List.filter (same_score q) unique.
Proof.
  intros Hunique Hordered.
  destruct (sort_desc_spec unique Hordered)
    as (ranked & Hranked & Hperm & Hsorted & Hstable).
  rewrite enhanced_search_run. cbv zeta.
  unfold ranked_pool. rewrite Hunique. cbn [and_then]. rewrite Hranked.
  do 3 eexists. split; [reflexivity|]. cbn [EnhancedResponse.results].
  split; [|now repeat split].
  destruct (slice_to_prefix (SearchRequest.limit request) ranked) as [k ->].
  now apply firstn_StronglySorted.
Qed.




(** C10.  When the three sub-searches all fail, the enhanced search still
    returns normally: no successful search out of 3, no result, count 0. *)
Theorem enhanced_search_all_failed (request : SearchRequest.t) (w : World) :
  forallb failed (sub_searches request w) = true ->
  exists w',
    enhanced_search request w
    = (Ok (EnhancedResponse.mk
             (SearchRequest.query request) "enhanced_parallel" [] 0 0 3 false
             (elapsed_ms (clock w (ticks w)) (clock w (Datatypes.S (ticks w))))),
       w').
Proof.
  intros Hall. rewrite enhanced_search_run. cbv zeta. eexists.
  assert (Hpool : ranked_pool (sub_searches request w) = Ok []).
  { unfold ranked_pool, unique_pool.
    now rewrite (combined_pool_all_failed _ Hall). }
  assert (Hnone : List.filter succeeded (sub_searches request w) = []).
  { destruct (List.filter succeeded (sub_searches request w)) eqn:E;
      [reflexivity|].
    exfalso.
    assert (Hin : In o (List.filter succeeded (sub_searches request w)))
      by (rewrite E; now left).
    apply List.filter_In in Hin as [Hin Hs].
    rewrite List.forallb_forall in Hall. specialize (Hall _ Hin).
    unfold failed in Hall. rewrite Hs in Hall. discriminate. }
  rewrite Hpool, Hnone.
  unfold slice_to. rewrite !List.firstn_nil.
  now destruct (0 <=? SearchRequest.limit request)%Z.
Qed.

End EnhancedClaims.

(** ** Request validation *)

Section Validation.
Context `{PyLib}.

Lemma validated_none {A B} (handler : A -> M B) (wrap : B -> reply) (w : World) :
  validated None handler wrap w = (Raise RequestValidationError, w).
Proof. reflexivity. Qed.

(** X20.  On every route whose request model bounds [limit], a limit outside
    [1, 50] is rejected before the handler runs: the world is untouched. *)
Lemma limit_validated (req : request) (n : Z) (w : World) :
  request_limit req = Some n ->
  in_bounds 1 50 n = false ->
  (forall recipe_id, req <> PostSearchSimilar recipe_id (Some n)) ->
  app req w = (Raise RequestValidationError, w).
Proof.
  intros Hlim Hout Hsim.
  destruct req as [s l|s l|s l|s l|s l|rid l|s l]; simpl in Hlim; subst l;
    try (exfalso; now apply (Hsim rid));
    unfold app;
    unfold IngredientSearchRequest.parse, CuisineSearchRequest.parse,
      DishSearchRequest.parse, SearchRequest.parse;
    simpl default; rewrite Hout, Bool.andb_false_r; reflexivity.
Qed.

(** What a cached handler can raise. *)
Lemma cached_search_raises key endpoint data (w : World) (e : exn) :
  fst (cached_search key endpoint data w) = Raise e ->
  e = TypeError \/ e = JSONDecodeError
  \/ exists status_code detail, e = HTTPException status_code detail.
Proof.
  destruct (truthy (cache_lookup (redis_client w) key)) eqn:Ht.
  - destruct (cache_lookup (redis_client w) key) as [p|v] eqn:Hlook.
    + rewrite (cached_search_hit _ _ _ _ p Hlook Ht). discriminate.
    + rewrite (cached_search_hit_other _ _ _ _ v Hlook Ht).
      intros [= <-]. now left.
  - destruct (upstream_result (http_client w) endpoint data)
      as [[p|v]|e'] eqn:Hup.
    + pose proof (cached_search_miss_ok _ _ _ _ p Ht Hup) as Hrun.
      cbv zeta in Hrun. rewrite Hrun. discriminate.
    + rewrite (cached_search_miss_other _ _ _ _ v Ht Hup).
      intros [= <-]. now left.
    + rewrite (cached_search_miss_raise _ _ _ _ e' Ht Hup).
      intros [= <-]. unfold upstream_result in Hup.
      destruct (http_client w) as [c|].
      * destruct (c endpoint data); inversion Hup; eauto.
      * inversion Hup; eauto.
Qed.

(** The route of [find_similar_recipes] rejects no limit. *)
Lemma similar_never_rejected (recipe_id : Z) (limit : option Z) (w : World) :
  fst (app (PostSearchSimilar recipe_id limit) w) <> Raise RequestValidationError.
Proof.
  unfold app, bind.
  change (find_similar_recipes recipe_id (default 5%Z limit))
    with (run (CallSimilar recipe_id (default 5%Z limit))).
  rewrite run_cached_search.
  destruct (cached_search _ _ _ w) as [[b|e] w'] eqn:Hrun; [discriminate|].
  apply (f_equal fst) in Hrun. cbn [fst] in Hrun.
  apply cached_search_raises in Hrun.
  destruct Hrun as [->|[->|(code & detail & ->)]]; discriminate.
Qed.

End Validation.

(** C5.  [POST /search/similar/1?limit=100]: the limit lies outside
    [1, 50], yet the request is not rejected; the handler looks the key up
    in the cache, forwards the limit to the upstream API and caches the
    answer. *)
Theorem similar_limit_not_validated :
  let answer :=
    Object (annotate false 2
              (mkPayload (Some (Demo.entries Demo.similar_hits)) [("count", JInt 1)])) in
  let key :=
    generate_cache_key (H := Demo.lib []) "similar"
      (JDict [("recipe_id", JInt 1); ("limit", JInt 100)]) in
  let r :=
    app (H := Demo.lib []) (PostSearchSimilar 1 (Some 100%Z))
      (Demo.world (Some Demo.empty_redis)) in
  in_bounds 1 50 100 = false
  /\ fst r = Ok (ReplyBody answer)
  /\ trace (snd r)
     = [RedisGet key;
        HttpPost "/search/similar/1" (JDict [("limit", JInt 100)]);
        RedisSetex key CACHE_TTL (Demo.dumps answer)].
Proof. vm_compute. repeat split; reflexivity. Qed.

(** ** The model at work *)

Example slice_to_examples :
  slice_to 2 [1; 2; 3]%Z = [1; 2]%Z
  /\ slice_to 5 [1; 2; 3]%Z = [1; 2; 3]%Z
  /\ slice_to (-1) [1; 2; 3]%Z = [1; 2]%Z
  /\ slice_to (-7) [1; 2; 3]%Z = @nil Z.
Proof. repeat split. Qed.

(** The general and ingredient searches answer, the dish search is
    rejected: recipe 1 is kept with the score of its first occurrence, and
    the two recipes of score 0.8 stay in pool order. *)
Example enhanced_search_demo :
  fst (enhanced_search (H := Demo.lib []) Demo.request (Demo.world None))
  = Ok Demo.enhanced_answer.
Proof. vm_compute. reflexivity. Qed.

(** The scenario of two identical ingredient searches: the first answer is
    computed and cached, the second is served from the cache. *)
Example ingredients_twice :
  let first := run (H := Demo.cached_lib) Demo.ingredients_call
                 (Demo.world (Some Demo.empty_redis)) in
  let second := run (H := Demo.cached_lib) Demo.ingredients_call (snd first) in
  fst first = Ok (Object Demo.first_answer)
  /\ fst second = Ok (Object (annotate true 2 Demo.first_answer))
  /\ List.length (trace (snd second)) = 4%nat.
Proof. vm_compute. repeat split; reflexivity. Qed.

Lemma enhanced_search_unique_ids_witness :
  fst (enhanced_search (H := Demo.lib []) Demo.request (Demo.world None))
  = Ok Demo.enhanced_answer
  /\ exists pool,
       combined_pool (sub_searches Demo.request (Demo.world None)) = Ok pool
       /\ Forall (fun r => has_id r = true)
            (EnhancedResponse.results Demo.enhanced_answer)
       /\ distinct_ids (EnhancedResponse.results Demo.enhanced_answer)
       /\ forall r, In r (EnhancedResponse.results Demo.enhanced_answer) ->
            List.find (same_id r) pool = Some r.
Proof.
  assert (Hrun : fst (enhanced_search (H := Demo.lib []) Demo.request
                        (Demo.world None))
                 = Ok Demo.enhanced_answer)
    by (vm_compute; reflexivity).
  split; [exact Hrun|].
  exact (enhanced_search_unique_ids (H := Demo.lib []) Demo.request
           (Demo.world None) Demo.enhanced_answer Hrun).
Defined.

Lemma enhanced_search_ranked_witness :
  exists resp w' ranked,
    enhanced_search (H := Demo.lib []) Demo.request (Demo.world None)
    = (Ok resp, w')
    /\ non_increasing (EnhancedResponse.results resp)
    /\ EnhancedResponse.results resp = slice_to 6 ranked
    /\ Permutation ranked Demo.unique_entries.
Proof.
  assert (Hunique : unique_pool (sub_searches Demo.request (Demo.world None))
                    = Ok Demo.unique_entries)
    by (vm_compute; reflexivity).
  assert (Hordered : Forall (fun x => ordered_score x = true)
                       Demo.unique_entries)
    by (repeat constructor).
  destruct (enhanced_search_ranked (H := Demo.lib []) Demo.request
              (Demo.world None) Demo.unique_entries Hunique Hordered)
    as (resp & w' & ranked & Hrun & Hsorted & Hresults & _ & Hperm & _).
  exists resp, w', ranked. split; [exact Hrun|].
  split; [exact Hsorted|]. split; [exact Hresults|exact Hperm].
Defined.

(** A score that is NaN: the general search answers with the scores 0.1,
    NaN and 0.9, in this order, and the enhanced search returns the three
    recipes in the same order, 0.1 before 0.9. *)
Lemma enhanced_search_ranked_counterexample :
  exists resp first second third,
    fst (enhanced_search (H := Demo.lib []) Demo.request Demo.nan_world)
    = Ok resp
    /\ EnhancedResponse.results resp = [first; second; third]
    /\ List.map score_value (EnhancedResponse.results resp)
       = [Some (Finite (1 # 10)); Some NaN; Some (Finite (9 # 10))]
    /\ score_below first third = true
    /\ ~ non_increasing (EnhancedResponse.results resp).
Proof.
  do 4 eexists. split; [vm_compute; reflexivity|].
  split; [reflexivity|]. split; [reflexivity|].
  split; [reflexivity|].
  cbn [EnhancedResponse.results]. unfold non_increasing.
  intros [_ Hall]%StronglySorted_inv.
  apply List.Forall_cons_iff in Hall as [Hnan _].
  vm_compute in Hnan. discriminate.
Qed.



Lemma enhanced_search_all_failed_witness :
  forallb failed
    (sub_searches Demo.request Demo.dark_world) = true
  /\ exists w',
       enhanced_search (H := Demo.lib []) Demo.request Demo.dark_world
       = (Ok (EnhancedResponse.mk "chicken" "enhanced_parallel" [] 0 0 3 false 2),
          w').
Proof.
  assert (Hall : forallb failed
                   (sub_searches Demo.request Demo.dark_world)
                 = true)
    by (vm_compute; reflexivity).
  split; [exact Hall|].
  exact (enhanced_search_all_failed (H := Demo.lib []) Demo.request
           Demo.dark_world Hall).
Defined.

Lemma upstream_failure_not_cached_witness :
  exists w' evs,
    run (H := Demo.lib []) Demo.dish_call (Demo.world (Some Demo.empty_redis))
    = (Raise Demo.service_unavailable, w')
    /\ (exists status_code detail,
          Demo.service_unavailable = HTTPException status_code detail)
    /\ redis_client w' = Some Demo.empty_redis
    /\ trace w' = evs
    /\ forallb (fun ev => negb (is_setex ev)) evs = true.
Proof.
  apply (upstream_failure_not_cached (H := Demo.lib []) Demo.dish_call
           (Demo.world (Some Demo.empty_redis)) Demo.upstream
           Demo.service_unavailable).
  - vm_compute. reflexivity.
  - reflexivity.
  - vm_compute. reflexivity.
Defined.

Lemma cache_degrades_to_miss_witness :
  exists w',
    get_cached_result (H := Demo.lib []) "ad734e6671c126a00c89fe72d15842c6"
      (Demo.world (Some Demo.down_redis))
    = (Ok None_, w')
    /\ redis_client w' = Some Demo.down_redis.
Proof.
  refine (proj1 (cache_degrades_to_miss (H := Demo.lib [])
                   (Demo.world (Some Demo.down_redis)) _) _).
  right. exists Demo.down_redis. split; reflexivity.
Defined.

Lemma cache_hit_returns_stored_witness :
  redis_client Demo.warm_world = Some Demo.warm_redis
  /\ exists returned w',
       run (H := Demo.cached_lib) Demo.ingredients_call Demo.warm_world
       = (Ok (Object returned), w')
       /\ returned = annotate true 2 Demo.first_answer.
Proof.
  assert (Hc : redis_client Demo.warm_world = Some Demo.warm_redis)
    by (vm_compute; reflexivity).
  split; [exact Hc|].
  assert (Hdb : db Demo.warm_redis
                  !! cache_key_of (H := Demo.cached_lib) Demo.ingredients_call
                = Some (CACHE_TTL,
                        json_dumps (PyLib := Demo.cached_lib)
                          (Object Demo.first_answer)))
    by (vm_compute; reflexivity).
  assert (Hne : json_dumps (PyLib := Demo.cached_lib) (Object Demo.first_answer)
                <> "")
    by (vm_compute; discriminate).
  assert (Hrt : json_loads (PyLib := Demo.cached_lib)
                  (json_dumps (PyLib := Demo.cached_lib)
                     (Object Demo.first_answer))
                = Some (Object Demo.first_answer))
    by (vm_compute; reflexivity).
  destruct (cache_hit_returns_stored (H := Demo.cached_lib)
              Demo.ingredients_call Demo.warm_world Demo.warm_redis CACHE_TTL
              Demo.first_answer Hc eq_refl Hdb Hne Hrt eq_refl)
    as (returned & w' & Hrun & Hret & _).
  exists returned, w'. split; [exact Hrun|].
  rewrite Hret. vm_compute. reflexivity.
Defined.

(** ** Start-up, health, statistics and cache management *)

Section AdminRun.
Context `{PyLib} `{Services}.

Lemma startup_event_run (laravel : AsyncClient) (server : Redis) (w : World) :
  startup_event laravel server w
  = (Ok tt,
     mkWorld (Some laravel) (if reachable server then Some server else None)
       (clock w) (ticks w) (trace w)).
Proof.
  destruct server as [[|] entries]; reflexivity.
Qed.

Lemma root_run (w : World) :
  root w
  = (Ok (JDict [("service", JStr "Recipe Search Proxy API");
                ("status", JStr "healthy");
                ("laravel_api", JStr LARAVEL_BASE_URL);
                ("cache_enabled", JBool (cache_enabled w));
                ("timestamp", JStr (isoformat (clock w (ticks w))))]),
     tick w).
Proof. reflexivity. Qed.

Lemma get_search_stats_run (w : World) :
  get_search_stats w
  = match http_client w with
    | None => (Raise (HTTPException 500 "HTTP client not initialized"), tick w)
    | Some client =>
        let o := get_outcome client "/search/stats" in
        (stats_result o (cache_enabled w)
           (elapsed_ms (clock w (ticks w)) (clock w (Datatypes.S (ticks w)))),
         match o with
         | PostJson _ => tick (tick w)
         | _ => tick w
         end)
    end.
Proof.
  destruct w as [[client|] redis clk n tr]; [|reflexivity].
  cbn [http_client]. cbv zeta.
  destruct (get_outcome client "/search/stats") as [[p|v]| | |] eqn:Hget;
    unfold get_search_stats, http_get, try_except, bind, get_http_client,
      utcnow, tick; simpl; rewrite Hget; reflexivity.
Qed.

Lemma cache_stats_run (w : World) :
  cache_stats w
  = (Ok (match redis_client w with
         | None => JDict [("cache_enabled", JBool false);
                          ("message", JStr "Redis not available")]
         | Some r =>
             if reachable r then
               JDict [("cache_enabled", JBool true);
                      ("connected_clients",
                       dict_get_default (server_info r) "connected_clients" (JInt 0));
                      ("used_memory_human",
                       dict_get_default (server_info r) "used_memory_human"
                         (JStr "unknown"));
                      ("keyspace_hits",
                       dict_get_default (server_info r) "keyspace_hits" (JInt 0));
                      ("keyspace_misses",
                       dict_get_default (server_info r) "keyspace_misses" (JInt 0));
                      ("cache_ttl_seconds", JInt CACHE_TTL)]
             else JDict [("cache_enabled", JBool false);
                         ("error", JStr (exn_str ConnectionError))]
         end),
     w).
Proof.
  destruct w as [client [[[|] entries]|] clk n tr]; reflexivity.
Qed.

Lemma clear_cache_run (w : World) :
  clear_cache w
  = match redis_client w with
    | None => (Ok (JDict [("cache_enabled", JBool false);
                          ("message", JStr "Redis not available")]), w)
    | Some r =>
        if reachable r then
          (Ok (JDict [("success", JBool true);
                      ("message", JStr "Cache cleared successfully")]),
           with_redis (mkRedis true ∅) w)
        else
          (Raise (HTTPException 500
                    ("Failed to clear cache: " +:+ exn_str ConnectionError)), w)
    end.
Proof.
  destruct w as [client [[[|] entries]|] clk n tr]; reflexivity.
Qed.

End AdminRun.

Section AdminProperties.
Context `{PyLib} `{Services}.

Lemma run_miss (c : cached_call) (w : World) :
  truthy (cache_lookup (redis_client w) (cache_key_of c)) = false ->
  fst (run c w)
  = fresh_answer
      (upstream_result (http_client w) (upstream_endpoint c) (laravel_data_of c))
      (elapsed_ms (clock w (ticks w)) (clock w (Datatypes.S (ticks w)))).
Proof.
  intros Hmiss. rewrite run_cached_search.
  destruct (upstream_result (http_client w) (upstream_endpoint c)
              (laravel_data_of c)) as [[p|v]|e] eqn:Hup.
  - pose proof (cached_search_miss_ok _ _ _ _ p Hmiss Hup) as Hrun.
    cbv zeta in Hrun. now rewrite Hrun.
  - now rewrite (cached_search_miss_other _ _ _ _ v Hmiss Hup).
  - now rewrite (cached_search_miss_raise _ _ _ _ e Hmiss Hup).
Qed.

Lemma cache_store_disabled (key : string) (data : body) (w : World) :
  redis_client w = None -> cache_store key data w = w.
Proof. intros Hnone. unfold cache_store. now rewrite Hnone. Qed.

Lemma run_disabled (c : cached_call) (w : World) :
  redis_client w = None ->
  redis_client (snd (run c w)) = None
  /\ trace (snd (run c w))
     = (trace w ++ match http_client w with
                   | Some _ => [HttpPost (upstream_endpoint c) (laravel_data_of c)]
                   | None => []
                   end)%list.
Proof.
  intros Hnone.
  assert (Hmiss : truthy (cache_lookup (redis_client w) (cache_key_of c)) = false)
    by now rewrite Hnone.
  rewrite run_cached_search.
  destruct (upstream_result (http_client w) (upstream_endpoint c)
              (laravel_data_of c)) as [[p|v]|e] eqn:Hup.
  - pose proof (cached_search_miss_ok _ _ _ _ p Hmiss Hup) as Hrun.
    cbv zeta in Hrun. rewrite Hrun. cbn [snd]. rewrite Hnone. cbn [log_if].
    rewrite cache_store_disabled.
    + cbn [tick redis_client trace].
      rewrite log_if_redis_client, log_if_trace. now cbn [tick redis_client trace].
    + cbn [tick redis_client]. now rewrite log_if_redis_client.
  - rewrite (cached_search_miss_other _ _ _ _ v Hmiss Hup). cbn [snd].
    rewrite Hnone. cbn [log_if].
    rewrite log_if_redis_client, log_if_trace. now cbn [tick redis_client trace].
  - rewrite (cached_search_miss_raise _ _ _ _ e Hmiss Hup). cbn [snd].
    rewrite Hnone. cbn [log_if].
    rewrite log_if_redis_client, log_if_trace. now cbn [tick redis_client trace].
Qed.

(** X21.  [startup_event] never raises.  It installs the HTTP client, and
    the Redis client only when the server answers the ping; otherwise the
    Redis client is [None]. *)
Theorem startup_event_sets_clients (laravel : AsyncClient) (server : Redis)
  (w : World) :
  exists w',
    startup_event laravel server w = (Ok tt, w')
    /\ http_client w' = Some laravel
    /\ redis_client w' = (if reachable server then Some server else None)
    /\ clock w' = clock w /\ ticks w' = ticks w /\ trace w' = trace w.
Proof.
  rewrite startup_event_run. eexists. repeat split; reflexivity.
Qed.

(** X22.  When the Redis server does not answer at start-up, caching is off
    for good: every cached handler answers from the upstream API, with
    ["cached"] false on success, makes no Redis call and leaves the Redis
    client [None], so that the next request finds it off as well. *)
Theorem startup_without_redis_serves_uncached (laravel : AsyncClient)
  (server : Redis) (w : World) (c : cached_call) :
  reachable server = false ->
  let w1 := snd (startup_event laravel server w) in
  fst (run c w1)
  = fresh_answer
      (upstream_result (Some laravel) (upstream_endpoint c) (laravel_data_of c))
      (elapsed_ms (clock w (ticks w)) (clock w (Datatypes.S (ticks w))))
  /\ redis_client (snd (run c w1)) = None
  /\ trace (snd (run c w1))
     = (trace w ++ [HttpPost (upstream_endpoint c) (laravel_data_of c)])%list.
Proof.
  intros Hdown w1. subst w1. rewrite startup_event_run, Hdown. cbn [snd].
  set (w1 := mkWorld (Some laravel) None (clock w) (ticks w) (trace w)).
  split.
  - apply (run_miss c w1). reflexivity.
  - apply (run_disabled c w1). reflexivity.
Qed.

(** X23.  When a Redis client exists but its server no longer answers, the
    health check still reports ["healthy"] with ["cache_enabled"] true,
    while [cache_stats] reports ["cache_enabled"] false: the two read
    different things. Neither raises. *)
Theorem cache_enabled_reports_disagree (w : World) (r : Redis) :
  redis_client w = Some r ->
  reachable r = false ->
  (exists d w',
      root w = (Ok (JDict d), w')
      /\ dict_get "status" d = Some (JStr "healthy")
      /\ dict_get "cache_enabled" d = Some (JBool true)
      /\ redis_client w' = redis_client w /\ trace w' = trace w)
  /\ (exists d,
         cache_stats w = (Ok (JDict d), w)
         /\ dict_get "cache_enabled" d = Some (JBool false)
         /\ dict_get "error" d = Some (JStr (exn_str ConnectionError))).
Proof.
  intros Hc Hr. split.
  - rewrite root_run. do 2 eexists. split; [reflexivity|].
    split; [reflexivity|].
    split; [cbn; unfold cache_enabled; now rewrite Hc|].
    split; reflexivity.
  - rewrite cache_stats_run, Hc, Hr. eexists. repeat split; reflexivity.
Qed.

(** X24.  When the upstream API answers [GET /search/stats] with a dict,
    [get_search_stats] returns that dict with a ["proxy_info"] member
    added: whether a Redis client exists, and the time measured.  Every
    other member is as the upstream sent it; Redis is not touched. *)
Theorem get_search_stats_adds_proxy_info (w : World) (client : AsyncClient)
  (p : payload) :
  http_client w = Some client ->
  get_outcome client "/search/stats" = PostJson (Object p) ->
  exists q w',
    get_search_stats w = (Ok (Object q), w')
    /\ results q = results p
    /\ dict_get "proxy_info" (fields q)
       = Some (JDict [("cache_enabled", JBool (cache_enabled w));
                      ("response_time_ms",
                       JInt (elapsed_ms (clock w (ticks w))
                               (clock w (Datatypes.S (ticks w)))))])
    /\ (forall key, key <> "proxy_info" ->
        dict_get key (fields q) = dict_get key (fields p))
    /\ redis_client w' = redis_client w
    /\ trace w' = trace w.
Proof.
  intros Hc Hget. rewrite get_search_stats_run, Hc. cbv zeta. rewrite Hget.
  cbn [stats_result]. do 2 eexists. split; [reflexivity|].
  cbn [results fields]. split; [reflexivity|].
  split; [apply dict_get_set_eq|].
  split; [intros key Hkey; now apply dict_get_set_ne|].
  split; reflexivity.
Qed.

(** X25.  The failures of [get_search_stats]: without an HTTP client it
    raises [HTTPException] 500; an upstream status error keeps its status
    code; a request error becomes 500.  In every world the Redis client and
    the trace are left as they were. *)
Theorem get_search_stats_failures (w : World) :
  (http_client w = None ->
   fst (get_search_stats w)
   = Raise (HTTPException 500 "HTTP client not initialized"))
  /\ (forall client status_code message,
         http_client w = Some client ->
         get_outcome client "/search/stats"
         = PostStatusError status_code message ->
         fst (get_search_stats w)
         = Raise (HTTPException status_code ("Laravel API error: " +:+ message)))
  /\ (forall client message,
         http_client w = Some client ->
         get_outcome client "/search/stats" = PostRequestError message ->
         fst (get_search_stats w)
         = Raise (HTTPException 500 ("Request failed: " +:+ message)))
  /\ redis_client (snd (get_search_stats w)) = redis_client w
  /\ trace (snd (get_search_stats w)) = trace w.
Proof.
  rewrite get_search_stats_run. repeat split.
  - now intros ->.
  - intros client code message -> Hget. cbv zeta. now rewrite Hget.
  - intros client message -> Hget. cbv zeta. now rewrite Hget.
  - destruct (http_client w) as [client|]; [|reflexivity].
    cbv zeta. now destruct (get_outcome client "/search/stats").
  - destruct (http_client w) as [client|]; [|reflexivity].
    cbv zeta. now destruct (get_outcome client "/search/stats").
Qed.

(** X26.  [cache_stats] never raises and changes nothing.  It reports
    ["cache_enabled"] true exactly when a Redis client exists and its
    server answers; it then gives the configured time-to-live, and 0 for a
    hit counter the server does not report. *)
Theorem cache_stats_never_raises (w : World) :
  exists d,
    cache_stats w = (Ok (JDict d), w)
    /\ dict_get "cache_enabled" d = Some (JBool (cache_answering w))
    /\ (cache_answering w = true ->
        dict_get "cache_ttl_seconds" d = Some (JInt 3600)
        /\ forall r, redis_client w = Some r ->
             dict_get "keyspace_hits" d
             = Some (default (JInt 0) (dict_get "keyspace_hits" (server_info r)))).
Proof.
  rewrite cache_stats_run. unfold cache_answering.
  destruct (redis_client w) as [r|]; [destruct (reachable r)|];
    eexists; (split; [reflexivity|]); (split; [reflexivity|]);
    try discriminate.
  intros _. split; [reflexivity|]. now intros r' [= <-].
Qed.

(** X27.  After [clear_cache] on a server that answers, no key is found any
    more: [get_cached_result] returns [None] for every key, and a cached
    handler answers from the upstream API again. *)
Theorem clear_cache_empties (w : World) (r : Redis) :
  redis_client w = Some r ->
  reachable r = true ->
  exists d w',
    clear_cache w = (Ok (JDict d), w')
    /\ dict_get "success" d = Some (JBool true)
    /\ http_client w' = http_client w
    /\ (forall key, fst (get_cached_result key w') = Ok None_)
    /\ (forall c,
           fst (run c w')
           = fresh_answer
               (upstream_result (http_client w) (upstream_endpoint c)
                  (laravel_data_of c))
               (elapsed_ms (clock w (ticks w)) (clock w (Datatypes.S (ticks w))))).
Proof.
  intros Hc Hr. rewrite clear_cache_run, Hc, Hr.
  do 2 eexists. split; [reflexivity|]. split; [reflexivity|].
  split; [reflexivity|].
  assert (Hlook : forall key,
             cache_lookup (redis_client (with_redis (mkRedis true ∅) w)) key
             = None_).
  { intros key. cbn [with_redis redis_client cache_lookup reachable db].
    now rewrite lookup_empty. }
  split.
  - intros key. now rewrite get_cached_result_run, Hlook.
  - intros c. apply (run_miss c (with_redis (mkRedis true ∅) w)).
    now rewrite Hlook.
Qed.

(** X28.  [clear_cache] is the one cache operation that fails loudly: when
    the server does not answer it raises [HTTPException] 500 and the world
    is unchanged.  Without a Redis client it returns a message instead. *)
Theorem clear_cache_unreachable_raises (w : World) :
  (forall r, redis_client w = Some r -> reachable r = false ->
     clear_cache w
     = (Raise (HTTPException 500
                 ("Failed to clear cache: " +:+ exn_str ConnectionError)), w))
  /\ (redis_client w = None ->
      clear_cache w
      = (Ok (JDict [("cache_enabled", JBool false);
                    ("message", JStr "Redis not available")]), w)).
Proof.
  rewrite clear_cache_run. split.
  - now intros r -> ->.
  - now intros ->.
Qed.

End AdminProperties.

(** ** Further properties of cache keys and cache access *)

Lemma le_bytes_length (n : nat) (x : Z) : List.length (MD5.le_bytes n x) = n.
Proof. unfold MD5.le_bytes. now rewrite List.length_map, List.length_seq. Qed.

Lemma le_bytes_range (n : nat) (x b : Z) :
  In b (MD5.le_bytes n x) -> (0 <= b < 256)%Z.
Proof.
  unfold MD5.le_bytes. intros (i & <- & _)%List.in_map_iff.
  change 255%Z with (Z.ones 8). rewrite Z.land_ones by lia.
  apply Z.mod_pos_bound. lia.
Qed.

Lemma digest_length (msg : list Z) : List.length (MD5.digest msg) = 16%nat.
Proof.
  unfold MD5.digest.
  destruct (fold_left MD5.compress _ MD5.init) as [a b c d].
  now rewrite !List.length_app, !le_bytes_length.
Qed.

Lemma digest_range (msg : list Z) (b : Z) :
  In b (MD5.digest msg) -> (0 <= b < 256)%Z.
Proof.
  unfold MD5.digest.
  destruct (fold_left MD5.compress _ MD5.init) as [x1 x2 x3 x4].
  rewrite !List.in_app_iff.
  intros [Hb|[Hb|[Hb|Hb]]]; now apply le_bytes_range in Hb.
Qed.

Lemma hex2_is_hex (b : Z) :
  (0 <= b < 256)%Z ->
  forallb is_hex_char (list_ascii_of_string (PyStr.hex2 b)) = true.
Proof.
  intros Hb.
  assert (Hall : forallb
                   (fun n => forallb is_hex_char
                               (list_ascii_of_string (PyStr.hex2 (Z.of_nat n))))
                   (seq 0 256) = true) by (vm_compute; reflexivity).
  rewrite List.forallb_forall in Hall.
  specialize (Hall (Z.to_nat b)). rewrite Z2Nat.id in Hall by lia.
  apply Hall, List.in_seq. lia.
Qed.

Lemma hex_fold_length (bytes : list Z) :
  String.length (fold_right (fun b acc => PyStr.hex2 b +:+ acc) "" bytes)
  = (2 * List.length bytes)%nat.
Proof.
  induction bytes as [|b bytes IH]; [reflexivity|].
  cbn [fold_right List.length].
  change (String.length (PyStr.hex2 b +:+ ?acc))
    with (Datatypes.S (Datatypes.S (String.length acc))).
  rewrite IH. lia.
Qed.

Lemma hex_fold_is_hex (bytes : list Z) :
  (forall b, In b bytes -> (0 <= b < 256)%Z) ->
  forallb is_hex_char
    (list_ascii_of_string
       (fold_right (fun b acc => PyStr.hex2 b +:+ acc) "" bytes)) = true.
Proof.
  induction bytes as [|b bytes IH]; intros Hrange; [reflexivity|].
  cbn [fold_right].
  pose proof (hex2_is_hex b (Hrange b (or_introl eq_refl))) as Hb.
  change (list_ascii_of_string (PyStr.hex2 b +:+ ?acc))
    with (list_ascii_of_string (PyStr.hex2 b) ++ list_ascii_of_string acc)%list.
  rewrite List.forallb_app, Hb. cbn [andb].
  apply IH. intros b' Hb'. apply Hrange. now right.
Qed.

Section MoreCache.
Context `{PyLib}.

(** X1.  Whatever the operation name and the data, a cache key is a string
    of 32 characters, each a digit or a letter from [a] to [f]. *)
Theorem cache_key_is_hex (endpoint : string) (data : json) :
  String.length (generate_cache_key endpoint data) = 32%nat
  /\ forallb is_hex_char
       (list_ascii_of_string (generate_cache_key endpoint data)) = true.
Proof.
  unfold generate_cache_key, MD5.hexdigest. split.
  - now rewrite hex_fold_length, digest_length.
  - apply hex_fold_is_hex. intros b. apply digest_range.
Qed.

(** X3.  In every world [get_cached_result] and [set_cached_result] return
    normally.  Neither changes the HTTP client or the clock; the lookup
    leaves the Redis store as it is, and so does a write that finds no
    server answering. *)
Theorem cache_accessors_never_raise (key : string) (data : body) (w : World) :
  (exists value w',
      get_cached_result key w = (Ok value, w')
      /\ redis_client w' = redis_client w
      /\ http_client w' = http_client w /\ ticks w' = ticks w)
  /\ (exists w',
         set_cached_result key data w = (Ok tt, w')
         /\ http_client w' = http_client w /\ ticks w' = ticks w
         /\ (cache_answering w = false -> redis_client w' = redis_client w)).
Proof.
  split.
  - rewrite get_cached_result_run. do 2 eexists. split; [reflexivity|].
    now rewrite log_if_redis_client, log_if_http_client, log_if_ticks.
  - rewrite set_cached_result_run. eexists. split; [reflexivity|].
    unfold cache_store, cache_answering.
    destruct (redis_client w) as [r|] eqn:Hr; [destruct (reachable r)|];
      repeat split; try reflexivity; try discriminate; intros _; exact Hr.
Qed.

Lemma cache_store_lookup (key : string) (data : body) (w : World) (r : Redis) :
  redis_client w = Some r ->
  reachable r = true ->
  redis_client (cache_store key data w)
  = Some (mkRedis true (<[key := (CACHE_TTL, json_dumps data)]> (db r))).
Proof. intros Hc Hr. unfold cache_store. now rewrite Hc, Hr. Qed.

(** X4.  Writing then reading: on a server that answers, what
    [set_cached_result] stores under a key is what [get_cached_result]
    returns for that key, with the configured time-to-live, and the value
    found under any other key is the one found before the write. *)
Theorem set_then_get (key : string) (data : body) (w : World) (r : Redis) :
  redis_client w = Some r ->
  reachable r = true ->
  json_dumps data <> "" ->
  json_loads (json_dumps data) = Some data ->
  let w1 := snd (set_cached_result key data w) in
  fst (get_cached_result key w1) = Ok data
  /\ (exists r1, redis_client w1 = Some r1
                 /\ db r1 !! key = Some (CACHE_TTL, json_dumps data))
  /\ forall key', key' <> key ->
       fst (get_cached_result key' w1) = fst (get_cached_result key' w).
Proof.
  intros Hc Hr Hne Hrt w1. subst w1.
  rewrite set_cached_result_run. cbn [snd].
  pose proof (cache_store_lookup key data w r Hc Hr) as Hstore.
  split; [|split].
  - rewrite get_cached_result_run. cbn [fst]. f_equal.
    eapply cache_lookup_stored; [exact Hstore|reflexivity| |exact Hne|exact Hrt].
    cbn [db]. apply lookup_insert_eq.
  - eexists. split; [exact Hstore|]. cbn [db]. apply lookup_insert_eq.
  - intros key' Hkey. rewrite !get_cached_result_run. cbn [fst]. f_equal.
    rewrite Hstore, Hc. unfold cache_lookup. cbn [reachable db]. rewrite Hr.
    rewrite lookup_insert_ne by congruence. reflexivity.
Qed.

(** X5.  An entry whose text is empty or is not JSON counts as a miss: the
    handler asks the upstream API, answers with ["cached"] false and
    replaces the entry by the text of its answer. *)
Theorem corrupt_entry_is_recomputed (c : cached_call) (w : World) (r : Redis)
  (ttl : Z) (text : string) (p : payload) :
  redis_client w = Some r ->
  reachable r = true ->
  db r !! cache_key_of c = Some (ttl, text) ->
  text = "" \/ json_loads text = None ->
  upstream_result (http_client w) (upstream_endpoint c) (laravel_data_of c)
  = Ok (Object p) ->
  let answer :=
    annotate false
      (elapsed_ms (clock w (ticks w)) (clock w (Datatypes.S (ticks w)))) p in
  exists w' r',
    run c w = (Ok (Object answer), w')
    /\ redis_client w' = Some r'
    /\ db r' !! cache_key_of c = Some (CACHE_TTL, json_dumps (Object answer)).
Proof.
  intros Hc Hr Hdb Hbad Hup answer.
  assert (Hmiss : truthy (cache_lookup (redis_client w) (cache_key_of c)) = false).
  { rewrite Hc. unfold cache_lookup. rewrite Hr, Hdb.
    destruct Hbad as [->|Hbad]; [reflexivity|].
    rewrite Hbad. now destruct (negb (text =? "")%string). }
  destruct (miss_writes_annotated c w r p Hc Hr Hmiss Hup)
    as (w' & r' & Hrun & Hc' & _ & Hdb').
  now exists w', r'.
Qed.

(** X6.  The outcomes of [proxy_laravel_request]: without an HTTP client it
    raises [HTTPException] 500 and does nothing; an upstream status error
    keeps its status code; a request error becomes 500.  It never changes
    the Redis client, and it records one POST when a client exists. *)
Theorem proxy_laravel_request_failures (endpoint : string) (data : json)
  (w : World) :
  (http_client w = None ->
   proxy_laravel_request endpoint data w
   = (Raise (HTTPException 500 "HTTP client not initialized"), w))
  /\ (forall client status_code message,
         http_client w = Some client ->
         client endpoint data = PostStatusError status_code message ->
         fst (proxy_laravel_request endpoint data w)
         = Raise (HTTPException status_code ("Laravel API error: " +:+ message)))
  /\ (forall client message,
         http_client w = Some client ->
         client endpoint data = PostRequestError message ->
         fst (proxy_laravel_request endpoint data w)
         = Raise (HTTPException 500 ("Request failed: " +:+ message)))
  /\ redis_client (snd (proxy_laravel_request endpoint data w)) = redis_client w
  /\ (forall client, http_client w = Some client ->
        trace (snd (proxy_laravel_request endpoint data w))
        = (trace w ++ [HttpPost endpoint data])%list).
Proof.
  rewrite proxy_laravel_request_run. repeat split.
  - now intros ->.
  - intros client code message -> Hpost. cbn. now rewrite Hpost.
  - intros client message -> Hpost. cbn. now rewrite Hpost.
  - cbn [snd]. apply log_if_redis_client.
  - intros client ->. reflexivity.
Qed.

End MoreCache.
(** ** The cache string determines the request *)

Lemma append_cons (c : ascii) (s t : string) :
  String c s +:+ t = String c (s +:+ t).
Proof. reflexivity. Qed.

Lemma append_nil_l (t : string) : "" +:+ t = t.
Proof. reflexivity. Qed.

Lemma append_assoc (s t u : string) : (s +:+ t) +:+ u = s +:+ (t +:+ u).
Proof.
  induction s as [|c s IH]; [reflexivity|].
  rewrite !append_cons. now rewrite IH.
Qed.

(** Escaping can be undone, one character at a time. *)
Lemma unescape_first_escape (c : ascii) (t : string) :
  unescape_first (Json.escape_char c +:+ t) = Some (c, t).
Proof. destruct c as [[] [] [] [] [] [] [] []]; reflexivity. Qed.

(** So can the UTF-8 encoding. *)
Lemma decode_first_utf8 (c : ascii) (l : list Z) :
  decode_first (PyStr.utf8_char c ++ l)%list = Some (c, l).
Proof. destruct c as [[] [] [] [] [] [] [] []]; reflexivity. Qed.

(** An escaped text holds no bare double quote: the first one ends it. *)
Lemma escape_delimited (s1 s2 t1 t2 : string) :
  Json.escape s1 +:+ String (PyStr.chr 34) t1
  = Json.escape s2 +:+ String (PyStr.chr 34) t2 ->
  s1 = s2 /\ t1 = t2.
Proof.
  revert s2. induction s1 as [|c1 s1 IH]; intros [|c2 s2] Heq;
    cbn [Json.escape] in Heq; rewrite ?append_assoc in Heq.
  - rewrite !append_nil_l in Heq. now injection Heq as ->.
  - apply (f_equal unescape_first) in Heq.
    rewrite unescape_first_escape in Heq. discriminate.
  - apply (f_equal unescape_first) in Heq.
    rewrite unescape_first_escape in Heq. discriminate.
  - apply (f_equal unescape_first) in Heq.
    rewrite !unescape_first_escape in Heq.
    injection Heq as -> Heq. destruct (IH _ Heq) as [-> ->]. now split.
Qed.

(** The text of a number ends at the first character that is neither a
    digit nor a sign. *)
Lemma number_delimited (s1 s2 : string) (c : ascii) (t1 t2 : string) :
  forallb is_number_char (list_ascii_of_string s1) = true ->
  forallb is_number_char (list_ascii_of_string s2) = true ->
  is_number_char c = false ->
  s1 +:+ String c t1 = s2 +:+ String c t2 ->
  s1 = s2 /\ t1 = t2.
Proof.
  intros H1 H2 Hc. revert s2 H2.
  induction s1 as [|c1 s1 IH]; intros [|c2 s2] H2 Heq;
    rewrite ?append_cons, ?append_nil_l in Heq.
  - now injection Heq as ->.
  - injection Heq as -> _. cbn [list_ascii_of_string forallb] in H2.
    rewrite Hc in H2. discriminate.
  - injection Heq as -> _. cbn [list_ascii_of_string forallb] in H1.
    rewrite Hc in H1. discriminate.
  - injection Heq as -> Heq.
    cbn [list_ascii_of_string forallb] in H1, H2.
    apply andb_prop in H1 as [_ H1]. apply andb_prop in H2 as [_ H2].
    destruct (IH H1 _ H2 Heq) as [-> ->]. now split.
Qed.

Lemma string_of_uint_number (d : Decimal.uint) :
  forallb is_number_char (list_ascii_of_string (NilEmpty.string_of_uint d))
  = true.
Proof. induction d; cbn; auto. Qed.

Lemma of_int_number (n : Z) :
  forallb is_number_char (list_ascii_of_string (PyStr.of_int n)) = true.
Proof.
  unfold PyStr.of_int, NilZero.string_of_int, NilZero.string_of_uint.
  destruct (Z.to_int n) as [d|d]; destruct d; try reflexivity;
    try apply string_of_uint_number;
    cbn [list_ascii_of_string forallb];
    change (is_number_char "-") with true; cbn [andb];
    apply string_of_uint_number.
Qed.

Lemma to_int_nonnil (n : Z) :
  Z.to_int n <> Decimal.Pos Decimal.Nil /\ Z.to_int n <> Decimal.Neg Decimal.Nil.
Proof.
  destruct n as [|p|p]; cbn; split; try discriminate;
    intros [= Hnil]; now apply (DecimalPos.Unsigned.to_uint_nonnil p).
Qed.

(** [str] of an [int] can be read back. *)
Lemma of_int_inj (n1 n2 : Z) : PyStr.of_int n1 = PyStr.of_int n2 -> n1 = n2.
Proof.
  unfold PyStr.of_int. intros Heq.
  apply (f_equal NilZero.int_of_string) in Heq.
  rewrite !NilZero.isi in Heq by apply to_int_nonnil.
  injection Heq as Heq. now apply DecimalZ.to_int_inj.
Qed.

Lemma encode_inj (s1 s2 : string) :
  PyStr.encode s1 = PyStr.encode s2 -> s1 = s2.
Proof.
  unfold PyStr.encode. revert s2.
  induction s1 as [|c1 s1 IH]; intros [|c2 s2] Heq;
    cbn [list_ascii_of_string flat_map] in Heq.
  - reflexivity.
  - apply (f_equal decode_first) in Heq.
    rewrite decode_first_utf8 in Heq. discriminate.
  - apply (f_equal decode_first) in Heq.
    rewrite decode_first_utf8 in Heq. discriminate.
  - apply (f_equal decode_first) in Heq.
    rewrite !decode_first_utf8 in Heq.
    injection Heq as -> Heq. now rewrite (IH _ Heq).
Qed.

Section CacheString.
Context `{PyLib}.

(** The text of a dict of two members. *)
Lemma dumps_pair (k1 k2 : string) (v1 v2 : json) :
  Json.dumps float_repr true (JDict [(k1, v1); (k2, v2)])
  = if String.ltb k2 k1
    then "{" +:+ Json.quote k2 +:+ ": " +:+ Json.dumps float_repr true v2
         +:+ ", " +:+ Json.quote k1 +:+ ": " +:+ Json.dumps float_repr true v1
         +:+ "}"
    else "{" +:+ Json.quote k1 +:+ ": " +:+ Json.dumps float_repr true v1
         +:+ ", " +:+ Json.quote k2 +:+ ": " +:+ Json.dumps float_repr true v2
         +:+ "}".
Proof.
  cbn [Json.dumps map Json.sort_items Json.insert_item fst].
  destruct (String.ltb k2 k1);
    cbn [map PyStr.join]; unfold Json.render_item; cbn [fst snd];
    now rewrite !append_assoc.
Qed.

Ltac string_norm H :=
  repeat first [rewrite append_assoc in H | rewrite append_cons in H
               | rewrite append_nil_l in H].

(* Write a cache string as its fixed characters around the texts of the
   arguments. *)
Ltac cache_string_text H :=
  unfold cache_string_of, cache_string, IngredientSearchRequest.dict,
    CuisineSearchRequest.dict, DishSearchRequest.dict, SearchRequest.dict in H;
  rewrite !dumps_pair in H;
  repeat match type of H with
         | context [String.ltb ?a ?b] =>
             let v := eval vm_compute in (String.ltb a b) in
             change (String.ltb a b) with v in H
         end;
  cbv iota in H;
  cbn [Json.dumps] in H;
  unfold Json.quote, PyStr.dq in H;
  repeat match type of H with
         | context [Json.escape (String ?c ?s)] =>
             let v := eval vm_compute in (Json.escape (String c s)) in
             change (Json.escape (String c s)) with v in H
         end;
  string_norm H.

Ltac read_number H Hn :=
  apply number_delimited in H as [Hn H];
  [apply of_int_inj in Hn | apply of_int_number | apply of_int_number
  | reflexivity].

(** The cache string of a cached handler can be read back: it gives the
    operation and every argument. *)
Lemma cache_string_of_inj (c1 c2 : cached_call) :
  cache_string_of c1 = cache_string_of c2 -> c1 = c2.
Proof.
  intros Heq.
  destruct c1 as [[s1 n1]|[s1 n1]|[s1 n1]|[s1 n1]|[s1 n1]|m1 n1],
           c2 as [[s2 n2]|[s2 n2]|[s2 n2]|[s2 n2]|[s2 n2]|m2 n2];
    cache_string_text Heq; try discriminate; repeat injection Heq as Heq.
  - apply escape_delimited in Heq as [-> Heq]. repeat injection Heq as Heq.
    read_number Heq Hn. now subst.
  - apply escape_delimited in Heq as [-> Heq]. repeat injection Heq as Heq.
    read_number Heq Hn. now subst.
  - apply escape_delimited in Heq as [-> Heq]. repeat injection Heq as Heq.
    read_number Heq Hn. now subst.
  - read_number Heq Hn. repeat injection Heq as Heq.
    apply escape_delimited in Heq as [-> _]. now subst.
  - read_number Heq Hn. repeat injection Heq as Heq.
    apply escape_delimited in Heq as [-> _]. now subst.
  - read_number Heq Hn. repeat injection Heq as Heq.
    read_number Heq Hm. now subst.
Qed.

(** X29.  For requests whose texts hold only characters up to U+00FF (the
    strings of this development): the key of a cached handler is the MD5
    digest of the bytes of its cache string, and two different requests
    never give the same bytes, since the operation and every argument can
    be read back from them.  Two such requests can share a cache entry only
    through a collision of MD5 itself.  The statement does not reach
    further: [json.dumps] writes a character above U+FFFF as the escapes of
    its two surrogates, the text it also gives for the two surrogates on
    their own. *)
Theorem distinct_requests_distinct_hash_input (c1 c2 : cached_call) :
  c1 <> c2 ->
  cache_key_of c1 = MD5.hexdigest (PyStr.encode (cache_string_of c1))
  /\ cache_key_of c2 = MD5.hexdigest (PyStr.encode (cache_string_of c2))
  /\ PyStr.encode (cache_string_of c1) <> PyStr.encode (cache_string_of c2).
Proof.
  intros Hne. split; [now destruct c1|]. split; [now destruct c2|].
  intros Heq. apply Hne, cache_string_of_inj, encode_inj, Heq.
Qed.

End CacheString.

(** ** Further properties of the cached handlers *)

Section MoreHandlers.
Context `{PyLib}.

(** X7.  A miss followed by an upstream answer that is a dict: the handler
    returns the answer with ["cached"] false and the time measured, and
    writes its text under the key of the request with a time-to-live of
    3600 seconds.  No other entry changes, and the calls are one [get], one
    POST and one [setex], in this order. *)
Theorem miss_populates_cache (c : cached_call) (w : World) (r : Redis)
  (p : payload) :
  redis_client w = Some r ->
  reachable r = true ->
  truthy (cache_lookup (redis_client w) (cache_key_of c)) = false ->
  upstream_result (http_client w) (upstream_endpoint c) (laravel_data_of c)
  = Ok (Object p) ->
  let answer :=
    annotate false
      (elapsed_ms (clock w (ticks w)) (clock w (Datatypes.S (ticks w)))) p in
  let text := json_dumps (Object answer) in
  exists w',
    run c w = (Ok (Object answer), w')
    /\ dict_get "cached" (fields answer) = Some (JBool false)
    /\ redis_client w'
       = Some (mkRedis true (<[cache_key_of c := (3600%Z, text)]> (db r)))
    /\ trace w'
       = (trace w ++ [RedisGet (cache_key_of c);
                      HttpPost (upstream_endpoint c) (laravel_data_of c);
                      RedisSetex (cache_key_of c) 3600 text])%list.
Proof.
  intros Hc Hr Hmiss Hup answer text.
  rewrite run_cached_search.
  pose proof (cached_search_miss_ok _ _ _ _ p Hmiss Hup) as Hrun.
  cbv zeta in Hrun. rewrite Hrun. clear Hrun.
  assert (Hhttp : exists client, http_client w = Some client).
  { unfold upstream_result in Hup. destruct (http_client w); [eauto|discriminate]. }
  destruct Hhttp as [client Hh].
  eexists. split; [reflexivity|]. split; [apply annotate_cached|].
  rewrite Hc, Hh. cbn [log_if].
  unfold cache_store. cbn [redis_client tick log]. rewrite Hc, Hr.
  split; [reflexivity|].
  cbn [with_redis trace log tick]. now rewrite <- !List.app_assoc.
Qed.

(** What a cached handler does when it raises. *)
Lemma run_raises (c : cached_call) (w : World) (e : exn) :
  fst (run c w) = Raise e ->
  (e = TypeError \/ e = JSONDecodeError
   \/ exists status_code detail, e = HTTPException status_code detail)
  /\ redis_client (snd (run c w)) = redis_client w
  /\ exists evs, trace (snd (run c w)) = (trace w ++ evs)%list
                 /\ forallb (fun ev => negb (is_setex ev)) evs = true.
Proof.
  rewrite run_cached_search.
  set (key := cache_key_of c). set (endpoint := upstream_endpoint c).
  set (data := laravel_data_of c).
  assert (Hlog : forall w0 : World,
             exists evs,
               trace (log_if (http_client w) (HttpPost endpoint data)
                        (log_if (redis_client w) (RedisGet key) w0))
               = (trace w0 ++ evs)%list
               /\ forallb (fun ev => negb (is_setex ev)) evs = true).
  { intros w0. rewrite !log_if_trace, <- List.app_assoc. eexists.
    split; [reflexivity|]. now destruct (redis_client w), (http_client w). }
  destruct (truthy (cache_lookup (redis_client w) key)) eqn:Ht.
  - destruct (cache_lookup (redis_client w) key) as [p|v] eqn:Hlook.
    + rewrite (cached_search_hit _ _ _ _ p Hlook Ht). discriminate.
    + rewrite (cached_search_hit_other _ _ _ _ v Hlook Ht). cbn [fst snd].
      intros [= <-]. split; [now left|].
      split; [now rewrite log_if_redis_client|].
      rewrite log_if_trace. eexists. split; [reflexivity|].
      now destruct (redis_client w).
  - destruct (upstream_result (http_client w) endpoint data)
      as [[p|v]|e'] eqn:Hup.
    + pose proof (cached_search_miss_ok _ _ _ _ p Ht Hup) as Hrun.
      cbv zeta in Hrun. rewrite Hrun. discriminate.
    + rewrite (cached_search_miss_other _ _ _ _ v Ht Hup). cbn [fst snd].
      intros [= <-]. split; [now left|].
      split; [now rewrite !log_if_redis_client|].
      destruct (Hlog (tick w)) as (evs & Hevs & Hno).
      exists evs. split; [exact Hevs|exact Hno].
    + rewrite (cached_search_miss_raise _ _ _ _ e' Ht Hup). cbn [fst snd].
      intros [= <-]. split.
      * unfold upstream_result in Hup.
        destruct (http_client w) as [cl|].
        -- destruct (cl endpoint data); inversion Hup; eauto.
        -- inversion Hup; eauto.
      * split; [now rewrite !log_if_redis_client|].
        destruct (Hlog (tick w)) as (evs & Hevs & Hno).
        exists evs. split; [exact Hevs|exact Hno].
Qed.

(** X9.  Whenever a cached handler raises, the exception is a [TypeError],
    a JSON decoding error or an [HTTPException], never a Redis error;
    the Redis store is as it was before the request and no [setex] was
    issued. *)
Theorem failed_request_leaves_cache (c : cached_call) (w : World) (e : exn) :
  fst (run c w) = Raise e ->
  (e = TypeError \/ e = JSONDecodeError
   \/ exists status_code detail, e = HTTPException status_code detail)
  /\ redis_client (snd (run c w)) = redis_client w
  /\ exists evs, trace (snd (run c w)) = (trace w ++ evs)%list
                 /\ forallb (fun ev => negb (is_setex ev)) evs = true.
Proof. apply run_raises. Qed.

(** X10.  Whenever a cached handler returns, it returns a dict whose
    ["cached"] member tells whether the answer came from the cache and
    whose ["response_time_ms"] member is the time between the two clock
    readings of this request. *)
Theorem answers_carry_flags (c : cached_call) (w : World) (b : body) :
  fst (run c w) = Ok b ->
  exists p,
    b = Object p
    /\ dict_get "cached" (fields p)
       = Some (JBool (truthy (cache_lookup (redis_client w) (cache_key_of c))))
    /\ dict_get "response_time_ms" (fields p)
       = Some (JInt (elapsed_ms (clock w (ticks w))
                       (clock w (Datatypes.S (ticks w))))).
Proof.
  rewrite run_cached_search.
  destruct (truthy (cache_lookup (redis_client w) (cache_key_of c))) eqn:Ht.
  - destruct (cache_lookup (redis_client w) (cache_key_of c)) as [p|v] eqn:Hlook.
    + rewrite (cached_search_hit _ _ _ _ p Hlook Ht). intros [= <-].
      eexists. split; [reflexivity|].
      split; [apply annotate_cached|apply annotate_response_time].
    + rewrite (cached_search_hit_other _ _ _ _ v Hlook Ht). discriminate.
  - destruct (upstream_result (http_client w) (upstream_endpoint c)
                (laravel_data_of c)) as [[p|v]|e'] eqn:Hup.
    + pose proof (cached_search_miss_ok _ _ _ _ p Ht Hup) as Hrun.
      cbv zeta in Hrun. rewrite Hrun. intros [= <-].
      eexists. split; [reflexivity|].
      split; [apply annotate_cached|apply annotate_response_time].
    + rewrite (cached_search_miss_other _ _ _ _ v Ht Hup). discriminate.
    + rewrite (cached_search_miss_raise _ _ _ _ e' Ht Hup). discriminate.
Qed.

End MoreHandlers.

(** ** Further properties of enhanced search *)

Lemma slice_to_all {A} (n : Z) (l : list A) :
  (Z.of_nat (List.length l) <= n)%Z -> slice_to n l = l.
Proof.
  intros Hn. unfold slice_to.
  destruct (Z.leb_spec 0 n); [|lia].
  apply List.firstn_all2. lia.
Qed.

Section MoreEnhanced.
Context `{PyLib}.

Lemma after_calls_trace (calls : list (string * json)) (w : World) :
  trace (after_calls calls w)
  = (trace w ++ match http_client w with
                | Some _ => List.map (fun call => HttpPost (fst call) (snd call)) calls
                | None => []
                end)%list.
Proof.
  revert w. induction calls as [|call calls IH]; intros w.
  - cbn. destruct (http_client w); now rewrite List.app_nil_r.
  - cbn [after_calls fold_left]. fold (after_calls calls).
    change (fold_left _ calls ?w0) with (after_calls calls w0).
    rewrite IH, log_if_http_client, log_if_trace.
    destruct (http_client w); cbn [List.map].
    + now rewrite <- List.app_assoc.
    + now rewrite List.app_nil_r.
Qed.


(** X12.  An enhanced search never uses the cache, whether it returns or
    raises: it leaves the Redis client as it was and its only calls are the
    three POSTs, to the general, ingredient and dish searches in this order
    (none without HTTP client); a response says ["cached"] false. *)
Theorem enhanced_search_never_uses_cache (request : SearchRequest.t) (w : World) :
  redis_client (snd (enhanced_search request w)) = redis_client w
  /\ trace (snd (enhanced_search request w))
     = (trace w
        ++ match http_client w with
           | Some _ =>
               List.map (fun call => HttpPost (fst call) (snd call))
                 (sub_search_calls request)
           | None => []
           end)%list
  /\ List.map fst (sub_search_calls request)
     = ["/search/general"; "/search/ingredients"; "/search/dish"]
  /\ (forall resp, fst (enhanced_search request w) = Ok resp ->
      EnhancedResponse.cached resp = false).
Proof.
  rewrite enhanced_search_run. cbv zeta.
  destruct (ranked_pool (sub_searches request w)) as [ranked|e];
    cbn [fst snd tick redis_client trace];
    rewrite after_calls_redis_client, after_calls_trace;
    (split; [reflexivity|]); (split; [reflexivity|]);
    (split; [reflexivity|]).
  - now intros resp [= <-].
  - discriminate.
Qed.

(** X13.  The counters of a response of an enhanced search:
    [successful_searches] is the number of sub-searches that gave a dict
    with a ["results"] key, between 0 and 3; [total_searches] is 3; the
    query is echoed and the search type is ["enhanced_parallel"]. *)
Theorem enhanced_search_counters (request : SearchRequest.t) (w : World)
  (resp : EnhancedResponse.t) :
  fst (enhanced_search request w) = Ok resp ->
  EnhancedResponse.successful_searches resp
  = Z.of_nat (List.length (List.filter succeeded (sub_searches request w)))
  /\ (0 <= EnhancedResponse.successful_searches resp <= 3)%Z
  /\ EnhancedResponse.total_searches resp = 3%Z
  /\ EnhancedResponse.query resp = SearchRequest.query request
  /\ EnhancedResponse.search_type resp = "enhanced_parallel".
Proof.
  intros (pool & unique & ranked & _ & _ & _ & ->)%enhanced_search_response.
  cbn [EnhancedResponse.successful_searches EnhancedResponse.total_searches
       EnhancedResponse.query EnhancedResponse.search_type].
  split; [reflexivity|]. split; [|repeat split; reflexivity].
  pose proof (List.filter_length_le succeeded (sub_searches request w)) as Hle.
  change (List.length (sub_searches request w)) with 3%nat in Hle. lia.
Qed.

(** X14.  When the pool of a response holds no more distinct recipes than
    the limit, nothing is cut: the results are the whole ranking, and
    every [recipe_id] of the pool is the id of a result. *)
Theorem enhanced_search_keeps_every_id (request : SearchRequest.t) (w : World)
  (resp : EnhancedResponse.t) :
  fst (enhanced_search request w) = Ok resp ->
  exists pool unique,
    combined_pool (sub_searches request w) = Ok pool
    /\ remove_duplicates pool = Ok unique
    /\ ((Z.of_nat (List.length unique) <= SearchRequest.limit request)%Z ->
        sort_desc unique = Ok (EnhancedResponse.results resp)
        /\ forall x, In x pool ->
             exists r, In r (EnhancedResponse.results resp)
                       /\ same_id r x = true).
Proof.
  intros (pool & unique & ranked & Hpool & Hunique & Hranked & ->)
    %enhanced_search_response.
  exists pool, unique. split; [exact Hpool|].
  split; [now rewrite remove_duplicates_dedup_from|].
  intros Hfit. cbn [EnhancedResponse.results].
  pose proof (sort_desc_perm _ _ Hranked) as Hperm.
  rewrite slice_to_all by (rewrite (Permutation_length Hperm); exact Hfit).
  split; [exact Hranked|].
  intros x Hx.
  destruct (dedup_from_complete [] pool unique x Hunique Hx) as (r & Hr & Hid);
    [reflexivity|].
  exists r. split; [|exact Hid].
  eapply Permutation_in; [symmetry; exact Hperm|exact Hr].
Qed.

End MoreEnhanced.

(** X15.  A pool of entries whose [recipe_id]s can be hashed and are
    pairwise different passes deduplication unchanged, in the same
    order. *)
Theorem remove_duplicates_distinct (l : list json) :
  Forall (fun x => has_id x = true) l ->
  distinct_ids l ->
  remove_duplicates l = Ok l.
Proof.
  intros Hids Hd. rewrite remove_duplicates_dedup_from.
  now apply dedup_from_fixed.
Qed.

(** X16.  On scores that are numbers other than NaN the ranking is
    determined by three facts: a list that holds the same entries, is in
    non-increasing score order and keeps the relative order of entries of
    equal score is the list [sort_desc] returns.  In particular a list
    already in that order is left as it is. *)
Theorem ranking_is_determined (l sorted : list json) :
  Forall (fun x => ordered_score x = true) l ->
  non_increasing sorted ->
  Permutation sorted l ->
  (forall q, List.filter (same_score q) sorted = List.filter (same_score q) l) ->
  sort_desc l = Ok sorted /\ sort_desc sorted = Ok sorted.
Proof.
  intros Hl Hs Hp Hf. split.
  - destruct (sort_desc_spec l Hl) as (ranked & -> & Hperm & Hsorted & Hstable).
    f_equal. apply stable_sorted_unique; [exact Hsorted|exact Hs| |].
    + now rewrite Hperm, Hp.
    + intros q. now rewrite Hstable, Hf.
  - assert (Hl' : Forall (fun x => ordered_score x = true) sorted).
    { eapply Permutation_Forall; [symmetry; exact Hp|exact Hl]. }
    destruct (sort_desc_spec sorted Hl')
      as (ranked & -> & Hperm & Hsorted & Hstable).
    f_equal. now apply stable_sorted_unique.
Qed.

(** X17.  For a request that passes validation, each of the three
    sub-searches is asked for half the limit, rounded down: a number [n]
    between 0 and 25 with [2 n <= limit <= 2 n + 1]. *)
Theorem enhanced_sub_limits (query : string) (limit : option Z)
  (request : SearchRequest.t) :
  SearchRequest.parse query limit = Some request ->
  exists n,
    (0 <= n <= 25)%Z
    /\ (2 * n <= SearchRequest.limit request <= 2 * n + 1)%Z
    /\ forall call, In call (sub_search_calls request) ->
         match snd call with
         | JDict members => dict_get "limit" members = Some (JInt n)
         | _ => False
         end.
Proof.
  unfold SearchRequest.parse, in_bounds.
  destruct (_ && _) eqn:Hok; [|discriminate]. intros [= <-].
  cbn [SearchRequest.limit SearchRequest.query].
  apply andb_true_iff in Hok as [_ Hlim].
  apply andb_true_iff in Hlim as [Hlo Hhi].
  apply Z.leb_le in Hlo, Hhi.
  exists (default 10%Z limit / 2)%Z.
  pose proof (Z.div_mod (default 10%Z limit) 2 ltac:(lia)) as Hdiv.
  pose proof (Z.mod_pos_bound (default 10%Z limit) 2 ltac:(lia)) as Hmod.
  split; [lia|]. split; [lia|].
  intros call [<-|[<-|[<-|[]]]]; reflexivity.
Qed.

(** ** Further properties of request validation *)

Section MoreValidation.
Context `{PyLib}.

(** X18.  On the six routes that take a text, an empty text or a text
    longer than the model allows (200 characters for a cuisine or a dish,
    500 otherwise) is rejected before the handler runs: the world is
    untouched. *)
Theorem text_validated (req : request) (text : string) (w : World) :
  request_text req = Some text ->
  in_bounds 1 (request_max_length req) (len text) = false ->
  app req w = (Raise RequestValidationError, w).
Proof.
  intros Htext Hout.
  destruct req as [s l|s l|s l|s l|s l|rid l|s l]; simpl in Htext;
    try discriminate; injection Htext as ->;
    cbn [request_max_length] in Hout;
    unfold app;
    unfold IngredientSearchRequest.parse, CuisineSearchRequest.parse,
      DishSearchRequest.parse, SearchRequest.parse;
    rewrite Hout; reflexivity.
Qed.

Lemma run_not_rejected (c : cached_call) (w : World) :
  fst (run c w) <> Raise RequestValidationError.
Proof.
  intros Hraise. apply run_raises in Hraise as [Hkind _].
  destruct Hkind as [Hk|[Hk|(code & detail & Hk)]]; discriminate.
Qed.

Lemma validated_run (c : cached_call) (w : World) :
  fst ((r <- run c ;; ret (ReplyBody r)) w) <> Raise RequestValidationError.
Proof.
  unfold bind. pose proof (run_not_rejected c w) as Hrun.
  destruct (run c w) as [[b|e] w']; cbn [fst] in *; [discriminate|].
  congruence.
Qed.

(** X19.  A request whose text and limit are within the bounds of its
    model is never rejected; a limit left out counts as 10 (as 5 on the
    route of similar recipes). *)
Theorem valid_request_accepted (req : request) (w : World) :
  (forall text, request_text req = Some text ->
     in_bounds 1 (request_max_length req) (len text) = true) ->
  in_bounds 1 50 (effective_limit req) = true ->
  fst (app req w) <> Raise RequestValidationError.
Proof.
  intros Htext Hlimit.
  destruct req as [s l|s l|s l|s l|s l|rid l|s l];
    try (specialize (Htext s eq_refl));
    cbn [request_max_length effective_limit request_limit] in *;
    unfold app;
    unfold IngredientSearchRequest.parse, CuisineSearchRequest.parse,
      DishSearchRequest.parse, SearchRequest.parse;
    try rewrite Htext, Hlimit; cbn [andb validated].
  - apply (validated_run (CallIngredients _)).
  - apply (validated_run (CallCuisine _)).
  - apply (validated_run (CallDish _)).
  - apply (validated_run (CallGeneral _)).
  - apply (validated_run (CallHybrid _)).
  - apply (validated_run (CallSimilar _ _)).
  - unfold bind. rewrite enhanced_search_run. cbv zeta.
    destruct (ranked_pool _); discriminate.
Qed.

End MoreValidation.

(** ** The further properties at work *)

Lemma generate_cache_key_same_mapping_witness :
  same_mapping DemoMore.nested DemoMore.nested_reordered
  /\ generate_cache_key (H := Demo.lib []) "general" DemoMore.nested
     = generate_cache_key (H := Demo.lib []) "general" DemoMore.nested_reordered.
Proof.
  assert (Hsame : same_mapping DemoMore.nested DemoMore.nested_reordered).
  { unfold DemoMore.nested, DemoMore.nested_reordered.
    eapply same_dict.
    - simpl. repeat constructor; simpl; intuition discriminate.
    - apply perm_swap.
    - constructor; [split; [reflexivity|constructor]|].
      constructor; [|constructor].
      split; [reflexivity|]. cbn [snd]. apply same_list.
      constructor; [|constructor].
      apply same_mapping_permutation; [|apply perm_swap].
      simpl. repeat constructor; simpl; intuition discriminate. }
  split; [exact Hsame|].
  exact (generate_cache_key_same_mapping (H := Demo.lib []) "general" _ _ Hsame).
Defined.

Lemma set_then_get_witness :
  fst (get_cached_result (H := Demo.cached_lib) "k"
         (snd (set_cached_result (H := Demo.cached_lib) "k"
                 (Object Demo.first_answer) (Demo.world (Some Demo.empty_redis)))))
  = Ok (Object Demo.first_answer).
Proof.
  refine (proj1 (set_then_get (H := Demo.cached_lib) "k"
                   (Object Demo.first_answer)
                   (Demo.world (Some Demo.empty_redis)) Demo.empty_redis
                   eq_refl eq_refl _ _)).
  - vm_compute. discriminate.
  - vm_compute. reflexivity.
Defined.

Lemma corrupt_entry_is_recomputed_witness :
  exists w' r',
    run (H := Demo.lib []) Demo.ingredients_call DemoMore.garbled_world
    = (Ok (Object (annotate false 2 DemoMore.ingredient_payload)), w')
    /\ redis_client w' = Some r'
    /\ db r' !! cache_key_of (H := Demo.lib []) Demo.ingredients_call
       = Some (CACHE_TTL,
               Demo.dumps (Object (annotate false 2 DemoMore.ingredient_payload))).
Proof.
  refine (corrupt_entry_is_recomputed (H := Demo.lib []) Demo.ingredients_call
            DemoMore.garbled_world DemoAdmin.garbled_redis CACHE_TTL
            "{not json" DemoMore.ingredient_payload eq_refl eq_refl _ _ _).
  - vm_compute. reflexivity.
  - right. reflexivity.
  - vm_compute. reflexivity.
Defined.

Lemma miss_populates_cache_witness :
  exists w',
    run (H := Demo.lib []) Demo.ingredients_call
      (Demo.world (Some Demo.empty_redis))
    = (Ok (Object (annotate false 2 DemoMore.ingredient_payload)), w')
    /\ dict_get "cached" (fields (annotate false 2 DemoMore.ingredient_payload))
       = Some (JBool false).
Proof.
  destruct (miss_populates_cache (H := Demo.lib []) Demo.ingredients_call
              (Demo.world (Some Demo.empty_redis)) Demo.empty_redis
              DemoMore.ingredient_payload eq_refl eq_refl)
    as (w' & Hrun & Hflag & _).
  - vm_compute. reflexivity.
  - vm_compute. reflexivity.
  - exists w'. split; [exact Hrun|exact Hflag].
Defined.

Lemma miss_then_hit_witness :
  exists w2',
    run (H := Demo.cached_lib) Demo.ingredients_call Demo.warm_world
    = (Ok (Object (annotate true 2 Demo.first_answer)), w2')
    /\ trace w2'
       = (trace Demo.warm_world
          ++ [RedisGet (cache_key_of (H := Demo.cached_lib)
                          Demo.ingredients_call)])%list
    /\ redis_client w2' = redis_client Demo.warm_world
    /\ http_client w2' = http_client Demo.warm_world.
Proof.
  refine (miss_then_hit (H := Demo.cached_lib) Demo.ingredients_call
            (Demo.world (Some Demo.empty_redis)) Demo.warm_world
            Demo.empty_redis DemoMore.ingredient_payload
            eq_refl eq_refl _ _ _ _ eq_refl).
  - vm_compute. reflexivity.
  - vm_compute. reflexivity.
  - vm_compute. discriminate.
  - vm_compute. reflexivity.
Defined.

Lemma failed_request_leaves_cache_witness :
  fst (run (H := Demo.lib []) Demo.dish_call (Demo.world (Some Demo.empty_redis)))
  = Raise Demo.service_unavailable
  /\ redis_client
       (snd (run (H := Demo.lib []) Demo.dish_call
               (Demo.world (Some Demo.empty_redis))))
     = Some Demo.empty_redis.
Proof.
  assert (Hraise : fst (run (H := Demo.lib []) Demo.dish_call
                          (Demo.world (Some Demo.empty_redis)))
                   = Raise Demo.service_unavailable)
    by (vm_compute; reflexivity).
  split; [exact Hraise|].
  exact (proj1 (proj2 (failed_request_leaves_cache (H := Demo.lib [])
                         Demo.dish_call (Demo.world (Some Demo.empty_redis))
                         Demo.service_unavailable Hraise))).
Defined.

Lemma answers_carry_flags_witness :
  fst (run (H := Demo.lib []) Demo.ingredients_call
         (Demo.world (Some Demo.empty_redis)))
  = Ok (Object Demo.first_answer)
  /\ exists p,
       Object Demo.first_answer = Object p
       /\ dict_get "cached" (fields p) = Some (JBool false)
       /\ dict_get "response_time_ms" (fields p) = Some (JInt 2).
Proof.
  assert (Hrun : fst (run (H := Demo.lib []) Demo.ingredients_call
                        (Demo.world (Some Demo.empty_redis)))
                 = Ok (Object Demo.first_answer))
    by (vm_compute; reflexivity).
  split; [exact Hrun|].
  destruct (answers_carry_flags (H := Demo.lib []) Demo.ingredients_call
              (Demo.world (Some Demo.empty_redis)) (Object Demo.first_answer)
              Hrun)
    as (p & Hp & Hcached & Htime).
  exists p. split; [exact Hp|]. split.
  - rewrite Hcached. vm_compute. reflexivity.
  - rewrite Htime. vm_compute. reflexivity.
Defined.

Lemma enhanced_search_counters_witness :
  fst (enhanced_search (H := Demo.lib []) Demo.request (Demo.world None))
  = Ok Demo.enhanced_answer
  /\ EnhancedResponse.successful_searches Demo.enhanced_answer = 2%Z
  /\ EnhancedResponse.total_searches Demo.enhanced_answer = 3%Z.
Proof.
  assert (Hrun : fst (enhanced_search (H := Demo.lib []) Demo.request
                        (Demo.world None))
                 = Ok Demo.enhanced_answer)
    by (vm_compute; reflexivity).
  split; [exact Hrun|].
  destruct (enhanced_search_counters (H := Demo.lib []) Demo.request
              (Demo.world None) Demo.enhanced_answer Hrun)
    as (_ & _ & Htotal & _).
  split; [reflexivity|exact Htotal].
Defined.

Lemma enhanced_search_keeps_every_id_witness :
  fst (enhanced_search (H := Demo.lib []) Demo.request (Demo.world None))
  = Ok Demo.enhanced_answer
  /\ exists pool unique,
       combined_pool (sub_searches Demo.request (Demo.world None)) = Ok pool
       /\ remove_duplicates pool = Ok unique
       /\ sort_desc unique
          = Ok (EnhancedResponse.results Demo.enhanced_answer).
Proof.
  assert (Hrun : fst (enhanced_search (H := Demo.lib []) Demo.request
                        (Demo.world None))
                 = Ok Demo.enhanced_answer)
    by (vm_compute; reflexivity).
  split; [exact Hrun|].
  destruct (enhanced_search_keeps_every_id (H := Demo.lib []) Demo.request
              (Demo.world None) Demo.enhanced_answer Hrun)
    as (pool & unique & Hpool & Hunique & Hfit).
  exists pool, unique. split; [exact Hpool|]. split; [exact Hunique|].
  apply Hfit.
  revert Hpool. vm_compute. intros [= <-].
  revert Hunique. vm_compute. intros [= <-].
  vm_compute. discriminate.
Defined.

Lemma remove_duplicates_distinct_witness :
  remove_duplicates (Demo.entries_of Demo.general_hits)
  = Ok (Demo.entries_of Demo.general_hits).
Proof.
  apply remove_duplicates_distinct.
  - repeat constructor.
  - repeat constructor.
Defined.

Lemma ranking_is_determined_witness :
  sort_desc (Demo.entries_of Demo.general_hits)
  = Ok (rev (Demo.entries_of Demo.general_hits))
  /\ sort_desc (rev (Demo.entries_of Demo.general_hits))
     = Ok (rev (Demo.entries_of Demo.general_hits)).
Proof.
  apply ranking_is_determined;
    cbn [Demo.entries_of Demo.general_hits List.map rev List.app].
  - repeat constructor.
  - repeat constructor.
  - apply perm_swap.
  - intros q. cbn [List.filter].
    destruct (same_score q (recipe_dict (Demo.recipe 2 "Chicken Parmesan" (8 # 10))))
      eqn:H2,
      (same_score q (recipe_dict (Demo.recipe 1 "Chicken Alfredo" (9 # 10))))
      eqn:H1; try reflexivity.
    exfalso. revert H1 H2. unfold same_score.
    change (score_value (recipe_dict (Demo.recipe 2 "Chicken Parmesan" (8 # 10))))
      with (Some (Finite (8 # 10))).
    change (score_value (recipe_dict (Demo.recipe 1 "Chicken Alfredo" (9 # 10))))
      with (Some (Finite (9 # 10))).
    destruct q; try discriminate. cbn [float_same].
    rewrite !Qeq_bool_iff. intros H9 H8. rewrite <- H8 in H9. discriminate.
Defined.

Lemma enhanced_sub_limits_witness :
  exists n,
    (0 <= n <= 25)%Z
    /\ (2 * n <= 1 <= 2 * n + 1)%Z
    /\ forall call,
         In call (sub_search_calls (SearchRequest.mk "chicken" 1)) ->
         match snd call with
         | JDict members => dict_get "limit" members = Some (JInt n)
         | _ => False
         end.
Proof.
  exact (enhanced_sub_limits "chicken" (Some 1%Z) (SearchRequest.mk "chicken" 1)
           eq_refl).
Defined.

Lemma text_validated_witness :
  app (H := Demo.lib []) (PostSearchGeneral "" (Some 5%Z))
    (Demo.world (Some Demo.empty_redis))
  = (Raise RequestValidationError, Demo.world (Some Demo.empty_redis)).
Proof.
  exact (text_validated (H := Demo.lib []) (PostSearchGeneral "" (Some 5%Z)) ""
           (Demo.world (Some Demo.empty_redis)) eq_refl eq_refl).
Defined.

Lemma valid_request_accepted_witness :
  in_bounds 1 50 (effective_limit (PostSearchGeneral "pasta" None)) = true
  /\ fst (app (H := Demo.lib []) (PostSearchGeneral "pasta" None)
            (Demo.world (Some Demo.empty_redis)))
     <> Raise RequestValidationError.
Proof.
  split; [reflexivity|].
  apply (valid_request_accepted (H := Demo.lib [])
           (PostSearchGeneral "pasta" None)).
  - intros text [= <-]. reflexivity.
  - reflexivity.
Defined.

Lemma limit_validated_witness :
  app (H := Demo.lib []) (PostSearchEnhanced "pasta" (Some 51%Z))
    (Demo.world (Some Demo.empty_redis))
  = (Raise RequestValidationError, Demo.world (Some Demo.empty_redis)).
Proof.
  apply (limit_validated (H := Demo.lib [])
           (PostSearchEnhanced "pasta" (Some 51%Z)) 51).
  - reflexivity.
  - reflexivity.
  - discriminate.
Defined.

Lemma startup_without_redis_serves_uncached_witness :
  reachable Demo.down_redis = false
  /\ fst (run (H := Demo.lib []) Demo.dish_call
            (snd (startup_event Demo.upstream Demo.down_redis
                    DemoAdmin.cold_world)))
     = Raise Demo.service_unavailable
  /\ redis_client
       (snd (run (H := Demo.lib []) Demo.dish_call
               (snd (startup_event Demo.upstream Demo.down_redis
                       DemoAdmin.cold_world))))
     = None.
Proof.
  split; [reflexivity|].
  destruct (startup_without_redis_serves_uncached (H := Demo.lib [])
              Demo.upstream Demo.down_redis DemoAdmin.cold_world
              Demo.dish_call eq_refl)
    as (Hfst & Hredis & _).
  split; [exact Hfst|exact Hredis].
Defined.

Lemma cache_enabled_reports_disagree_witness :
  exists d,
    cache_stats (H := Demo.lib []) (H0 := DemoAdmin.services)
      (Demo.world (Some Demo.down_redis))
    = (Ok (JDict d), Demo.world (Some Demo.down_redis))
    /\ dict_get "cache_enabled" d = Some (JBool false)
    /\ dict_get "error" d = Some (JStr "error").
Proof.
  exact (proj2 (cache_enabled_reports_disagree (H := Demo.lib [])
                  (H0 := DemoAdmin.services)
                  (Demo.world (Some Demo.down_redis)) Demo.down_redis
                  eq_refl eq_refl)).
Defined.

Lemma get_search_stats_adds_proxy_info_witness :
  exists q w',
    get_search_stats (H := Demo.lib []) (H0 := DemoAdmin.services)
      (Demo.world None)
    = (Ok (Object q), w')
    /\ dict_get "total_recipes" (fields q) = Some (JInt 302).
Proof.
  destruct (get_search_stats_adds_proxy_info (H := Demo.lib [])
              (H0 := DemoAdmin.services) (Demo.world None) Demo.upstream
              DemoAdmin.stats_answer eq_refl eq_refl)
    as (q & w' & Hrun & _ & _ & Hother & _).
  exists q, w'. split; [exact Hrun|].
  rewrite Hother by discriminate. reflexivity.
Defined.

Lemma clear_cache_empties_witness :
  redis_client Demo.warm_world = Some Demo.warm_redis
  /\ exists d w',
       clear_cache (H := Demo.cached_lib) Demo.warm_world = (Ok (JDict d), w')
       /\ dict_get "success" d = Some (JBool true)
       /\ fst (get_cached_result (H := Demo.cached_lib)
                 (cache_key_of (H := Demo.cached_lib) Demo.ingredients_call) w')
          = Ok None_.
Proof.
  assert (Hc : redis_client Demo.warm_world = Some Demo.warm_redis)
    by (vm_compute; reflexivity).
  split; [exact Hc|].
  destruct (clear_cache_empties (H := Demo.cached_lib) Demo.warm_world
              Demo.warm_redis Hc eq_refl)
    as (d & w' & Hrun & Hok & _ & Hget & _).
  exists d, w'. split; [exact Hrun|]. split; [exact Hok|apply Hget].
Defined.

Lemma distinct_requests_distinct_hash_input_witness :
  DemoMore.cuisine_call <> Demo.dish_call
  /\ PyStr.encode (cache_string_of (H := Demo.lib []) DemoMore.cuisine_call)
     <> PyStr.encode (cache_string_of (H := Demo.lib []) Demo.dish_call).
Proof.
  split; [discriminate|].
  apply (distinct_requests_distinct_hash_input (H := Demo.lib [])
           DemoMore.cuisine_call Demo.dish_call).
  discriminate.
Defined.
